(** * Tatbeeb Link relay: a shallow embedding of the three relay drafts

    The repository holds three programs that share no state:
    - [Heartbeat]: the line-protocol relay with an application heartbeat
      ([RelayServer] with [agents] and [availablePorts]);
    - [Simple]: the line-protocol relay over a port cursor ([SimpleRelay]);
    - [Mux]: the framed, JWT-authenticated relay of main.go and jwt.go.

    Every handler is written in a small state monad over the relay value.
    The monad records the I/O calls the handler performs, each stamped with
    the relay state at the moment of the call, and it propagates Go panics. *)

From Stdlib Require Import ZArith String Ascii List Lia Bool.
From stdpp Require Import gmap strings list fin_maps pretty.

Local Open Scope Z_scope.

(** ** Go values *)

(** Handles of the objects the runtime hands out. *)
Definition net_Conn := nat.
Definition net_Listener := nat.
Definition yamux_Session := nat.

(** [fmt.Sprintf("%d", n)]. *)
Definition fmt_d (n : Z) : string := pretty n.

(** The bytes [strings.TrimSpace] strips.  Only the ASCII ones are modelled:
    tab, line feed, vertical tab, form feed, carriage return and space. *)
Definition isSpace (c : ascii) : bool :=
  let n := nat_of_ascii c in
  ((9 <=? n)%nat && (n <=? 13)%nat) || (n =? 32)%nat.

Fixpoint trimLeft (s : string) : string :=
  match s with
  | EmptyString => EmptyString
  | String c rest => if isSpace c then trimLeft rest else s
  end.

Fixpoint trimRight (s : string) : string :=
  match s with
  | EmptyString => EmptyString
  | String c rest =>
      match trimRight rest with
      | EmptyString => if isSpace c then EmptyString else String c EmptyString
      | r => String c r
      end
  end.

Definition TrimSpace (s : string) : string := trimRight (trimLeft s).

(** [s[:n]] on a Go string: the first [n] bytes, a run-time panic when
    [n] exceeds [len(s)]. *)
Definition slice_to (s : string) (n : nat) : option string :=
  if (n <=? String.length s)%nat then Some (substring 0 n s) else None.

(** The line feed that ends a protocol line. *)
Definition LF : string := String (ascii_of_nat 10) EmptyString.

(** ** I/O calls *)

(** A framed control message of the common package, by kind and payload. *)
Record RegisteredPayload := {
  rp_TenantID : string;
  rp_AssignedPort : Z;
  rp_SQLUser : string;
  rp_SQLPassword : string;
  rp_PublicHost : string;
  rp_ConnectionString : string
}.

Inductive Frame :=
| FrRegistered (p : RegisteredPayload)
| FrError (code message : string)
| FrPing.

(** A Go result pair [(value, err)]. *)
Inductive res (A : Type) : Type :=
| Ok (a : A)
| Err (msg : string).
Arguments Ok {A} a.
Arguments Err {A} msg.

(** The goroutines a handler starts. *)
Inductive Task :=
| TAccept (l : net_Listener)
| TForward (c : net_Conn) (m : yamux_Session)
| TNotifyPort (tenant : string) (port : Z)
| THeartbeats (tenant : string).

Inductive Event :=
| EvListen (port : Z) (r : res net_Listener)
| EvCloseListener (l : net_Listener)
| EvCloseConn (c : net_Conn)
| EvCloseSession (m : yamux_Session)
| EvOpenStream (m : yamux_Session) (r : res net_Conn)
| EvWrite (c : net_Conn) (data : string)
| EvWriteFrame (c : net_Conn) (f : Frame)
| EvGo (t : Task).

(** ** The handler monad *)

Inductive outcome (A : Type) : Type :=
| Done (a : A)
| Panicked (msg : string).
Arguments Done {A} a.
Arguments Panicked {A} msg.

Section Effects.
Context {St : Type}.

Definition trace : Type := list (Event * St).

Definition M (A : Type) : Type := St -> outcome A * St * trace.

Definition ret {A} (a : A) : M A := fun s => (Done a, s, []).

Definition bind {A B} (m : M A) (k : A -> M B) : M B :=
  fun s =>
    match m s with
    | (Done a, s1, t1) =>
        match k a s1 with
        | (r, s2, t2) => (r, s2, t1 ++ t2)
        end
    | (Panicked msg, s1, t1) => (Panicked msg, s1, t1)
    end.

Definition get : M St := fun s => (Done s, s, []).
Definition put (s : St) : M unit := fun _ => (Done tt, s, []).
Definition emit (e : Event) : M unit := fun s => (Done tt, s, [(e, s)]).
Definition panic {A} (msg : string) : M A := fun s => (Panicked msg, s, []).

(** [defer f(); body]: the deferred call runs when the body returns and
    also when it panics. *)
Definition defer {A} (d : M unit) (body : M A) : M A :=
  fun s =>
    match body s with
    | (r, s1, t1) =>
        match d s1 with
        | (Done _, s2, t2) => (r, s2, t1 ++ t2)
        | (Panicked msg, s2, t2) => (Panicked msg, s2, t1 ++ t2)
        end
    end.

Definition result {A} (r : outcome A * St * trace) : outcome A := r.1.1.
Definition final {A} (r : outcome A * St * trace) : St := r.1.2.
Definition log {A} (r : outcome A * St * trace) : trace := r.2.
Definition events {A} (r : outcome A * St * trace) : list Event := (log r).*1.
End Effects.

Notation "x <- c1 ;; c2" := (bind c1 (fun x => c2))
  (at level 100, c1 at next level, right associativity).
Notation "c1 ;; c2" := (bind c1 (fun _ => c2))
  (at level 100, right associativity).

Fixpoint for_each {St A} (l : list A) (f : A -> @M St unit) : @M St unit :=
  match l with
  | [] => ret tt
  | x :: rest => f x ;; for_each rest f
  end.

Fixpoint fold_each {St A B} (l : list A) (f : B -> A -> @M St B) (b : B)
  : @M St B :=
  match l with
  | [] => ret b
  | x :: rest => b1 <- f b x ;; fold_each rest f b1
  end.

(** [preserves R m]: the relation [R] holds between every state and the
    state [m] leaves from it, whether [m] returns or panics. *)
Definition preserves {St A} (R : St -> St -> Prop) (m : @M St A) : Prop :=
  forall s, R s (final (m s)).

(** ** The heartbeat draft: [RelayServer] over [agents] and [availablePorts] *)

Module Heartbeat.

(** [time.Time] as an instant in nanoseconds, [time.Duration] as int64
    nanoseconds. *)
Definition Second : Z := 1000000000.
Definition maxDuration : Z := 2 ^ 63 - 1.
Definition minDuration : Z := - 2 ^ 63.

(** [time.Since(t)] at instant [now]: the difference, saturated to the
    range of a Duration. *)
Definition Since (now t : Z) : Z :=
  let d := now - t in
  if maxDuration <? d then maxDuration
  else if d <? minDuration then minDuration
  else d.

Record Agent := {
  conn : option net_Conn;
  assignedPort : Z;
  listener : option net_Listener;
  lastHeartbeat : Z
}.

(** [agents] maps a port to a pointer; [heap] holds the pointed-to
    agents, so that the handler and the checker see one object. *)
Record RelayServer := {
  agents : gmap Z nat;
  heap : list Agent;
  availablePorts : list Z
}.

Definition set_agents (f : gmap Z nat -> gmap Z nat) (r : RelayServer) :=
  {| agents := f (agents r); heap := heap r;
     availablePorts := availablePorts r |}.
Definition set_heap (f : list Agent -> list Agent) (r : RelayServer) :=
  {| agents := agents r; heap := f (heap r);
     availablePorts := availablePorts r |}.
Definition set_availablePorts (f : list Z -> list Z) (r : RelayServer) :=
  {| agents := agents r; heap := heap r;
     availablePorts := f (availablePorts r) |}.

Local Abbreviation Go := (@M RelayServer).

(** The pool [main] builds: every port of the range, in order. *)
Definition initPorts (start stop : Z) : list Z :=
  (fun i => start + Z.of_nat i) <$> seq 0 (Z.to_nat (stop - start + 1)).

Definition newRelay (start stop : Z) : RelayServer :=
  {| agents := ∅; heap := []; availablePorts := initPorts start stop |}.

Definition assignPort : Go Z :=
  r <- get ;;
  match availablePorts r with
  | [] => ret 0
  | port :: rest =>
      put (set_availablePorts (fun _ => rest) r) ;;
      ret port
  end.

Definition releasePort (port : Z) : Go unit :=
  r <- get ;;
  put (set_availablePorts (fun l => l ++ [port]) r).

Definition deref (p : nat) : Go Agent :=
  r <- get ;;
  match heap r !! p with
  | Some a => ret a
  | None => panic "invalid memory address or nil pointer dereference"
  end.

Definition closeListener (l : option net_Listener) : Go unit :=
  match l with
  | Some h => emit (EvCloseListener h)
  | None => ret tt
  end.

Definition closeConn (c : option net_Conn) : Go unit :=
  match c with
  | Some h => emit (EvCloseConn h)
  | None => ret tt
  end.

Definition cleanupAgent (port : Z) : Go unit :=
  r <- get ;;
  let found := agents r !! port in
  put (set_agents (delete port) r) ;;
  match found with
  | Some p =>
      agent <- deref p ;;
      closeListener (listener agent) ;;
      closeConn (conn agent) ;;
      releasePort port
  | None => ret tt
  end.

Definition alloc (a : Agent) : Go nat :=
  r <- get ;;
  put (set_heap (fun h => h ++ [a]) r) ;;
  ret (length (heap r)).

Definition update (p : nat) (f : Agent -> Agent) : Go unit :=
  a <- deref p ;;
  r <- get ;;
  put (set_heap (<[p := f a]>) r).

Definition with_listener (l : net_Listener) (a : Agent) : Agent :=
  {| conn := conn a; assignedPort := assignedPort a;
     listener := Some l; lastHeartbeat := lastHeartbeat a |}.

Definition with_lastHeartbeat (t : Z) (a : Agent) : Agent :=
  {| conn := conn a; assignedPort := assignedPort a;
     listener := listener a; lastHeartbeat := t |}.

(** [handleAgent] up to the point where the agent is registered.  [first]
    is what [reader.ReadString] gave for the first line ([None] on a read
    error), [now] the clock, [bound] the result of [net.Listen] and
    [write_err] whether writing the OK line fails.  The result is the
    agent and its port when the registration stands. *)
Definition handleAgent_register (c : net_Conn) (first : option string)
    (now : Z) (bound : res net_Listener) (write_err : bool)
  : Go (option (nat * Z)) :=
  match first with
  | None => ret None
  | Some line =>
      let line := TrimSpace line in
      if decide (line <> "REGISTER") then
        emit (EvWrite c ("ERROR invalid command" +:+ LF)) ;;
        ret None
      else
        port <- assignPort ;;
        if decide (port = 0) then
          emit (EvWrite c ("ERROR no available ports" +:+ LF)) ;;
          ret None
        else
          agent <- alloc {| conn := Some c; assignedPort := port;
                            listener := None; lastHeartbeat := now |} ;;
          emit (EvListen port bound) ;;
          match bound with
          | Err err =>
              releasePort port ;;
              emit (EvWrite c ("ERROR failed to bind port: " +:+ err +:+ LF)) ;;
              ret None
          | Ok l =>
              update agent (with_listener l) ;;
              r <- get ;;
              put (set_agents (<[port := agent]>) r) ;;
              emit (EvWrite c ("OK port:" +:+ fmt_d port +:+ LF)) ;;
              if write_err then
                cleanupAgent port ;;
                ret None
              else
                emit (EvGo (TAccept l)) ;;
                ret (Some (agent, port))
          end
  end.

(** One round of the heartbeat loop, for a line read at instant [now]. *)
Definition handleAgent_heartbeat (agent : nat) (line : string) (now : Z)
  : Go unit :=
  let line := TrimSpace line in
  if decide (line = "HEARTBEAT") then update agent (with_lastHeartbeat now)
  else ret tt.

(** The whole handler: [lines] are the lines the loop reads, each with the
    instant it is read at, before the read that fails. *)
Definition handleAgent (c : net_Conn) (first : option string) (now : Z)
    (bound : res net_Listener) (write_err : bool)
    (lines : list (string * Z)) : Go unit :=
  defer (emit (EvCloseConn c))
    (reg <- handleAgent_register c first now bound write_err ;;
     match reg with
     | None => ret tt
     | Some (agent, port) =>
         for_each lines (fun l => handleAgent_heartbeat agent l.1 l.2) ;;
         cleanupAgent port
     end).

(** [time.Since(agent.lastHeartbeat) > 120*time.Second]. *)
Definition timedOut (now : Z) (a : Agent) : bool :=
  120 * Second <? Since now (lastHeartbeat a).

(** The scan of one tick; the range loop visits the map in the order of
    [map_to_list]. *)
Definition staleScan (now : Z) : Go (list Z) :=
  r <- get ;;
  fold_each (map_to_list (agents r))
    (fun ports e =>
       agent <- deref e.2 ;;
       ret (if timedOut now agent then ports ++ [e.1] else ports))
    [].

(** One tick of [heartbeatChecker]. *)
Definition heartbeatChecker_tick (now : Z) : Go unit :=
  ports <- staleScan now ;;
  for_each ports cleanupAgent.

(** The instants at which a ticker of period 60 s started at [start]
    fires. *)
Definition tickInstant (start : Z) (k : Z) : Z := start + k * (60 * Second).

(** Every registered pointer is allocated. *)
Definition wf (r : RelayServer) : Prop :=
  map_Forall (fun _ p => is_Some (heap r !! p)) (agents r).

(** The state [cleanupAgent] leaves when the port was registered. *)
Definition cleaned (port : Z) (r : RelayServer) : RelayServer :=
  {| agents := delete port (agents r); heap := heap r;
     availablePorts := availablePorts r ++ [port] |}.

(** The calls [cleanupAgent] makes, stamped with the state they run in. *)
Definition closings (a : Agent) (r : RelayServer) : @trace RelayServer :=
  match listener a with Some l => [(EvCloseListener l, r)] | None => [] end
  ++ match conn a with Some c => [(EvCloseConn c, r)] | None => [] end.

(** The ports the scan collects from the entries [l], in order. *)
Definition staleOf (now : Z) (r : RelayServer) (l : list (Z * nat)) : list Z :=
  (List.filter (fun e => match heap r !! e.2 with
                         | Some a => timedOut now a
                         | None => false
                         end) l).*1.

(** What /health reports: [activeAgents] and [availablePorts]. *)
Definition activeAgents (r : RelayServer) : Z := Z.of_nat (size (agents r)).
Definition availableCount (r : RelayServer) : Z :=
  Z.of_nat (length (availablePorts r)).

(** The ports the relay holds, free or registered. *)
Definition owned (r : RelayServer) : gset Z :=
  list_to_set (availablePorts r) ∪ dom (agents r).

(** The bookkeeping of ports: no free port is listed twice, is 0 or is
    registered, and every registered agent carries the port it is
    registered under and a bound listener. *)
Definition pool_inv (r : RelayServer) : Prop :=
  wf r
  /\ NoDup (availablePorts r)
  /\ (0 ∉ availablePorts r)
  /\ agents r !! 0 = None
  /\ (forall port, port ∈ availablePorts r -> agents r !! port = None)
  /\ (forall port p a,
        agents r !! port = Some p -> heap r !! p = Some a ->
        assignedPort a = port /\ is_Some (listener a)).

(** A step keeps the bookkeeping and the set of ports the relay holds. *)
Definition evolves (r r' : RelayServer) : Prop :=
  pool_inv r -> pool_inv r' /\ owned r' = owned r.

(** The steps of the relay between two quiet moments: a handshake, a
    heartbeat line, a cleanup and a tick of the checker, each with any
    argument and any answer of the network. *)
Inductive step : RelayServer -> RelayServer -> Prop :=
| step_register c first now bound write_err r :
    step r (final (handleAgent_register c first now bound write_err r))
| step_heartbeat agent line now r :
    step r (final (handleAgent_heartbeat agent line now r))
| step_cleanup port r :
    step r (final (cleanupAgent port r))
| step_tick now r :
    step r (final (heartbeatChecker_tick now r)).

(** The states of a relay started on the range [start..stop]. *)
Inductive reachable (start stop : Z) : RelayServer -> Prop :=
| reach_init : reachable start stop (newRelay start stop)
| reach_step r r' :
    reachable start stop r -> step r r' -> reachable start stop r'.

(** A relay on the range 50000..50001 on which one agent registered. *)
Definition one_agent : RelayServer :=
  final (handleAgent_register 7%nat (Some ("REGISTER" +:+ LF)) 0 (Ok 3%nat)
           false (newRelay 50000 50001)).

End Heartbeat.

(** ** The simple draft: [SimpleRelay] over a pool cursor *)

Module Simple.

Record SimpleTenant := {
  ID : string;
  AssignedPort : Z;
  YamuxSession : yamux_Session;
  Listener : net_Listener;
  ActiveConns : Z
}.

Record SimpleRelay := {
  tenants : gmap string nat;
  heap : list SimpleTenant;
  portPool : list Z;
  nextPortIndex : Z
}.

Local Abbreviation Go := (@M SimpleRelay).

Definition set_tenants (f : gmap string nat -> gmap string nat)
    (s : SimpleRelay) :=
  {| tenants := f (tenants s); heap := heap s; portPool := portPool s;
     nextPortIndex := nextPortIndex s |}.
Definition set_heap (f : list SimpleTenant -> list SimpleTenant)
    (s : SimpleRelay) :=
  {| tenants := tenants s; heap := f (heap s); portPool := portPool s;
     nextPortIndex := nextPortIndex s |}.
Definition set_nextPortIndex (f : Z -> Z) (s : SimpleRelay) :=
  {| tenants := tenants s; heap := heap s; portPool := portPool s;
     nextPortIndex := f (nextPortIndex s) |}.

Definition NewSimpleRelay (startPort endPort : Z) : SimpleRelay :=
  {| tenants := ∅; heap := [];
     portPool := (fun i => startPort + Z.of_nat i)
                   <$> seq 0 (Z.to_nat (endPort - startPort + 1));
     nextPortIndex := 0 |}.

(** What /metrics of the sibling draft reports as available:
    [len(portPool) - nextPortIndex]. *)
Definition free_count (s : SimpleRelay) : Z :=
  Z.of_nat (length (portPool s)) - nextPortIndex s.

(** The byte-by-byte read loop: the bytes before the first line feed;
    [None] when the read fails before one arrives. *)
Fixpoint readCommand (input : string) : option string :=
  match input with
  | EmptyString => None
  | String c rest =>
      if Ascii.eqb c (ascii_of_nat 10) then Some EmptyString
      else String c <$> readCommand rest
  end.

(** [portPool[i]], with Go's bounds check. *)
Definition index (l : list Z) (i : Z) : Go Z :=
  match (if i <? 0 then None else l !! Z.to_nat i) with
  | Some p => ret p
  | None => panic "index out of range"
  end.

Definition alloc (t : SimpleTenant) : Go nat :=
  s <- get ;;
  put (set_heap (fun h => h ++ [t]) s) ;;
  ret (length (heap s)).

(** [handleConnection] up to the accept loop.  Each deferred call the
    body has registered by the time it leaves is returned with it, so
    that the caller runs them in reverse order. *)
Definition handleConnection_register (c : net_Conn) (input : string)
    (write_err : bool) (mux : res yamux_Session) (bound : res net_Listener)
  : Go (option (nat * net_Listener) * list (Go unit)) :=
  match readCommand input with
  | None => ret (None, [])
  | Some line =>
      let command := TrimSpace line in
      if decide (command <> "REGISTER") then ret (None, [])
      else
        s <- get ;;
        if Z.of_nat (length (portPool s)) <=? nextPortIndex s then
          emit (EvWrite c ("ERROR No ports available" +:+ LF)) ;;
          ret (None, [])
        else
          port <- index (portPool s) (nextPortIndex s) ;;
          put (set_nextPortIndex (fun i => i + 1) s) ;;
          let tenantID := "tenant-" +:+ fmt_d port in
          emit (EvWrite c ("OK port:" +:+ fmt_d port +:+ LF)) ;;
          if write_err then ret (None, [])
          else
            match mux with
            | Err _ => ret (None, [])
            | Ok session =>
                let d1 := emit (EvCloseSession session) in
                emit (EvListen port bound) ;;
                match bound with
                | Err _ => ret (None, [d1])
                | Ok l =>
                    let d2 := emit (EvCloseListener l) in
                    tenant <- alloc {| ID := tenantID; AssignedPort := port;
                                       YamuxSession := session;
                                       Listener := l; ActiveConns := 0 |} ;;
                    s1 <- get ;;
                    put (set_tenants (<[tenantID := tenant]>) s1) ;;
                    let d3 := (s2 <- get ;;
                               put (set_tenants (delete tenantID) s2)) in
                    ret (Some (tenant, l), [d3; d2; d1])
                end
            end
  end.

(** The whole handler: [clients] are the connections the accept loop
    takes before [Accept] fails. *)
Definition handleConnection (c : net_Conn) (input : string)
    (write_err : bool) (mux : res yamux_Session) (bound : res net_Listener)
    (clients : list net_Conn) : Go unit :=
  defer (emit (EvCloseConn c))
    (reg <- handleConnection_register c input write_err mux bound ;;
     defer (for_each reg.2 (fun d => d))
       match reg.1 with
       | None => ret tt
       | Some (tenant, l) =>
           for_each clients (fun cl =>
             s <- get ;;
             match heap s !! tenant with
             | Some t => emit (EvGo (TForward cl (YamuxSession t)))
             | None => panic "invalid memory address or nil pointer dereference"
             end)
       end).

Definition set_ActiveConns (f : Z -> Z) (t : SimpleTenant) :=
  {| ID := ID t; AssignedPort := AssignedPort t;
     YamuxSession := YamuxSession t; Listener := Listener t;
     ActiveConns := f (ActiveConns t) |}.

Definition deref (p : nat) : Go SimpleTenant :=
  s <- get ;;
  match heap s !! p with
  | Some t => ret t
  | None => panic "invalid memory address or nil pointer dereference"
  end.

Definition update (p : nat) (f : SimpleTenant -> SimpleTenant) : Go unit :=
  t <- deref p ;;
  s <- get ;;
  put (set_heap (<[p := f t]>) s).

(** [handleClientConnection], from its start to the end of the copy;
    [stream] is the answer of [OpenStream]. *)
Definition handleClientConnection (clientConn : net_Conn) (tenant : nat)
    (stream : res net_Conn) : Go unit :=
  defer (emit (EvCloseConn clientConn))
    (t <- deref tenant ;;
     emit (EvOpenStream (YamuxSession t) stream) ;;
     match stream with
     | Err _ => ret tt
     | Ok st =>
         defer (emit (EvCloseConn st))
           (update tenant (set_ActiveConns (fun n => n + 1)) ;;
            defer (update tenant (set_ActiveConns (fun n => n - 1)))
              (ret tt))
     end).

End Simple.

(** ** The authenticated draft: jwt.go *)

Module JWT.

Record JWTClaims := {
  Sub : string;
  Iss : string;
  Aud : string;
  Exp : Z;
  Iat : Z;
  OrganizationID : string;
  UserID : string;
  Role : string
}.

(** The calls [VerifyJWT] makes into the Go standard library. *)
Record Lib := {
  hmac_sha256 : string -> string -> string;
  base64_RawURL_encode : string -> string;
  base64_RawURL_decode : string -> res string;
  json_Unmarshal : string -> res JWTClaims;
  format_RFC3339 : Z -> string
}.

(** [strings.Split(s, ".")]. *)
Fixpoint splitDot (s : string) : list string :=
  match s with
  | EmptyString => [EmptyString]
  | String c rest =>
      if Ascii.eqb c "."%char then EmptyString :: splitDot rest
      else match splitDot rest with
           | h :: t => String c h :: t
           | [] => [String c EmptyString]
           end
  end.

Definition computeSignature (lib : Lib) (header payload secret : string)
  : res string :=
  let message := header +:+ "." +:+ payload in
  Ok (base64_RawURL_encode lib (hmac_sha256 lib secret message)).

(** [now] is [time.Now().Unix()]. *)
Definition VerifyJWT (lib : Lib) (now : Z)
    (tokenString secret expectedIssuer expectedAudience : string)
  : res JWTClaims :=
  match splitDot tokenString with
  | [header; payload; signature] =>
      match computeSignature lib header payload secret with
      | Err e => Err ("failed to compute signature: " +:+ e)
      | Ok expectedSig =>
          if decide (signature <> expectedSig) then Err "invalid signature"
          else
            match base64_RawURL_decode lib payload with
            | Err e => Err ("failed to decode payload: " +:+ e)
            | Ok payloadBytes =>
                match json_Unmarshal lib payloadBytes with
                | Err e => Err ("failed to parse claims: " +:+ e)
                | Ok claims =>
                    if decide (Iss claims <> expectedIssuer) then
                      Err ("invalid issuer: expected " +:+ expectedIssuer
                           +:+ ", got " +:+ Iss claims)
                    else if decide (Aud claims <> expectedAudience) then
                      Err ("invalid audience: expected " +:+ expectedAudience
                           +:+ ", got " +:+ Aud claims)
                    else if (0 <? Exp claims) && (Exp claims <? now) then
                      Err ("token expired at "
                           +:+ format_RFC3339 lib (Exp claims))
                    else Ok claims
                end
            end
      end
  | parts =>
      Err ("invalid JWT format: expected 3 parts, got "
           +:+ fmt_d (Z.of_nat (length parts)))
  end.

Definition is_err {A} (r : res A) : bool :=
  match r with Err _ => true | Ok _ => false end.

(** The number of dots in a token. *)
Fixpoint dots (s : string) : nat :=
  match s with
  | EmptyString => 0
  | String c rest => if Ascii.eqb c "."%char then S (dots rest) else dots rest
  end.

(** [strings.Join(parts, ".")]. *)
Fixpoint joinDot (parts : list string) : string :=
  match parts with
  | [] => EmptyString
  | p :: rest =>
      match rest with
      | [] => p
      | _ :: _ => p +:+ "." +:+ joinDot rest
      end
  end.

End JWT.

(** ** The authenticated draft: main.go *)

Module Mux.
Import JWT.

Record Tenant := {
  ID : string;
  AssignedPort : Z;
  SQLUser : string;
  SQLPassword : string;
  ControlSession : yamux_Session;
  Listener : option net_Listener;
  ActiveConns : Z
}.

(** The fields of [common.RelayConfig] that the relay reads after start. *)
Record RelayConfig := {
  TenantPortStart : Z;
  TenantPortEnd : Z;
  MaxConnectionsPerTenant : Z
}.

Record RelayServer := {
  config : RelayConfig;
  tenants : gmap string nat;
  heap : list Tenant;
  portPool : list Z;
  nextPortIndex : Z;
  jwtSecret : string;
  jwtIssuer : string;
  jwtAudience : string
}.

Local Abbreviation Go := (@M RelayServer).

Definition set_tenants (f : gmap string nat -> gmap string nat)
    (s : RelayServer) :=
  {| config := config s; tenants := f (tenants s); heap := heap s;
     portPool := portPool s; nextPortIndex := nextPortIndex s;
     jwtSecret := jwtSecret s; jwtIssuer := jwtIssuer s;
     jwtAudience := jwtAudience s |}.
Definition set_heap (f : list Tenant -> list Tenant) (s : RelayServer) :=
  {| config := config s; tenants := tenants s; heap := f (heap s);
     portPool := portPool s; nextPortIndex := nextPortIndex s;
     jwtSecret := jwtSecret s; jwtIssuer := jwtIssuer s;
     jwtAudience := jwtAudience s |}.
Definition set_nextPortIndex (f : Z -> Z) (s : RelayServer) :=
  {| config := config s; tenants := tenants s; heap := heap s;
     portPool := portPool s; nextPortIndex := f (nextPortIndex s);
     jwtSecret := jwtSecret s; jwtIssuer := jwtIssuer s;
     jwtAudience := jwtAudience s |}.
Definition set_ActiveConns (f : Z -> Z) (t : Tenant) :=
  {| ID := ID t; AssignedPort := AssignedPort t; SQLUser := SQLUser t;
     SQLPassword := SQLPassword t; ControlSession := ControlSession t;
     Listener := Listener t; ActiveConns := f (ActiveConns t) |}.

Definition NewRelayServer (cfg : RelayConfig) (secret : string)
  : RelayServer :=
  {| config := cfg; tenants := ∅; heap := [];
     portPool := (fun i => TenantPortStart cfg + Z.of_nat i)
                   <$> seq 0 (Z.to_nat (TenantPortEnd cfg
                                        - TenantPortStart cfg + 1));
     nextPortIndex := 0;
     jwtSecret := secret;
     jwtIssuer := "his.tatbeeb.sa";
     jwtAudience := "tatbeeb-link.tatbeeb.sa" |}.

(** [available_ports] of [handleMetrics]. *)
Definition available_ports (s : RelayServer) : Z :=
  Z.of_nat (length (portPool s)) - nextPortIndex s.

(** The ports the cursor has not passed: the only ones a later
    registration can be given. *)
Definition unassigned (s : RelayServer) : list Z :=
  if nextPortIndex s <? 0 then portPool s
  else drop (Z.to_nat (nextPortIndex s)) (portPool s).

(** [now] is [time.Now().Unix()]. *)
Definition generatePassword (now : Z) : string := "pwd_" +:+ fmt_d now.

Definition index (l : list Z) (i : Z) : Go Z :=
  match (if i <? 0 then None else l !! Z.to_nat i) with
  | Some p => ret p
  | None => panic "index out of range"
  end.

Definition deref (p : nat) : Go Tenant :=
  s <- get ;;
  match heap s !! p with
  | Some t => ret t
  | None => panic "invalid memory address or nil pointer dereference"
  end.

Definition alloc (t : Tenant) : Go nat :=
  s <- get ;;
  put (set_heap (fun h => h ++ [t]) s) ;;
  ret (length (heap s)).

Definition update (p : nat) (f : Tenant -> Tenant) : Go unit :=
  t <- deref p ;;
  s <- get ;;
  put (set_heap (<[p := f t]>) s).

Definition closeListener (l : option net_Listener) : Go unit :=
  match l with
  | Some h => emit (EvCloseListener h)
  | None => ret tt
  end.

Definition registerTenant (tenantID : string) (session : yamux_Session)
    (now : Z) (bound : res net_Listener) : Go (option nat) :=
  s <- get ;;
  match tenants s !! tenantID with
  | Some e =>
      existing <- deref e ;;
      closeListener (Listener existing)
  | None => ret tt
  end ;;
  if Z.of_nat (length (portPool s)) <=? nextPortIndex s then ret None
  else
    port <- index (portPool s) (nextPortIndex s) ;;
    s1 <- get ;;
    put (set_nextPortIndex (fun i => i + 1) s1) ;;
    emit (EvListen port bound) ;;
    match bound with
    | Err _ => ret None
    | Ok listener =>
        match slice_to tenantID 6 with
        | None => panic "slice bounds out of range"
        | Some prefix =>
            tenant <- alloc {| ID := tenantID; AssignedPort := port;
                               SQLUser := "tatbeeb_" +:+ prefix;
                               SQLPassword := generatePassword now;
                               ControlSession := session;
                               Listener := Some listener;
                               ActiveConns := 0 |} ;;
            s2 <- get ;;
            put (set_tenants (<[tenantID := tenant]>) s2) ;;
            ret (Some tenant)
        end
    end.

Definition unregisterTenant (tenantID : string) : Go unit :=
  s <- get ;;
  match tenants s !! tenantID with
  | Some p =>
      tenant <- deref p ;;
      closeListener (Listener tenant) ;;
      s1 <- get ;;
      put (set_tenants (delete tenantID) s1)
  | None => ret tt
  end.

(** One round of the accept loop, for an accepted connection [c]. *)
Definition acceptTenantConnections_accept (tenant : nat) (c : net_Conn)
  : Go unit :=
  s <- get ;;
  t <- deref tenant ;;
  if MaxConnectionsPerTenant (config s) <=? ActiveConns t then
    emit (EvCloseConn c)
  else
    update tenant (set_ActiveConns (fun n => n + 1)) ;;
    emit (EvGo (TForward c (ControlSession t))).

(** The accept loop: [clients] are the connections accepted before
    [Accept] fails. *)
Definition acceptTenantConnections (tenant : nat) (clients : list net_Conn)
  : Go unit :=
  t <- deref tenant ;;
  defer (unregisterTenant (ID t))
    (for_each clients (acceptTenantConnections_accept tenant)).

(** The forwarder of one client, from its start to the end of the copy. *)
Definition handleTenantConnection (tenant : nat) (clientConn : net_Conn)
    (stream : res net_Conn) : Go unit :=
  defer (emit (EvCloseConn clientConn))
    (defer (update tenant (set_ActiveConns (fun n => n - 1)))
       (t <- deref tenant ;;
        emit (EvOpenStream (ControlSession t) stream) ;;
        match stream with
        | Err _ => ret tt
        | Ok st => defer (emit (EvCloseConn st)) (ret tt)
        end)).

Definition sendError (stream : net_Conn) (code message : string) : Go unit :=
  emit (EvWriteFrame stream (FrError code message)).

(** [keepAlive], for a run in which [pings] pings are written before the
    one whose write fails. *)
Fixpoint keepAlive (stream : net_Conn) (tenant : nat) (pings : nat)
  : Go unit :=
  emit (EvWriteFrame stream FrPing) ;;
  match pings with
  | O => t <- deref tenant ;; unregisterTenant (ID t)
  | S n => keepAlive stream tenant n
  end.

Record RegisterPayload := {
  rq_TenantID : string;
  rq_JWT : string;
  rq_Version : string
}.

(** The REGISTERED payload the handler builds from the tenant. *)
Definition response (t : Tenant) : RegisteredPayload :=
  {| rp_TenantID := ID t;
     rp_AssignedPort := AssignedPort t;
     rp_SQLUser := SQLUser t;
     rp_SQLPassword := SQLPassword t;
     rp_PublicHost := "link.tatbeeb.sa";
     rp_ConnectionString :=
       "Server=link.tatbeeb.sa," +:+ fmt_d (AssignedPort t)
       +:+ ";Encrypt=True;TrustServerCertificate=False;User Id="
       +:+ SQLUser t +:+ ";Password=" +:+ SQLPassword t +:+ ";" |}.

(** [handleControlConnection].  [mux] and [accepted] are the results of
    [yamux.Server] and [AcceptStream]; [request] is the decoded REGISTER
    payload, [None] when reading or decoding fails or the message is of
    another kind; [now_jwt] and [now_pwd] are the two clock reads;
    [write_err] tells whether writing REGISTERED fails. *)
Definition handleControlConnection (lib : Lib) (c : net_Conn)
    (mux : res yamux_Session) (accepted : res net_Conn)
    (request : option RegisterPayload) (now_jwt now_pwd : Z)
    (bound : res net_Listener) (write_err : bool) (pings : nat) : Go unit :=
  defer (emit (EvCloseConn c))
    match mux with
    | Err _ => ret tt
    | Ok session =>
    defer (emit (EvCloseSession session))
      match accepted with
      | Err _ => ret tt
      | Ok stream =>
      defer (emit (EvCloseConn stream))
        match request with
        | None => ret tt
        | Some regPayload =>
        s <- get ;;
        match VerifyJWT lib now_jwt (rq_JWT regPayload) (jwtSecret s)
                (jwtIssuer s) (jwtAudience s) with
        | Err e =>
            sendError stream "INVALID_JWT"
              ("JWT verification failed: " +:+ e)
        | Ok claims =>
        if decide (Sub claims <> rq_TenantID regPayload) then
          sendError stream "TENANT_ID_MISMATCH"
            "Tenant ID does not match JWT claims"
        else
          reg <- registerTenant (rq_TenantID regPayload) session
                   now_pwd bound ;;
          match reg with
          | None =>
              sendError stream "REGISTRATION_FAILED"
                "Failed to allocate port"
          | Some tenant =>
              t <- deref tenant ;;
              emit (EvWriteFrame stream (FrRegistered (response t))) ;;
              if write_err then unregisterTenant (ID t)
              else
                emit (EvGo (TNotifyPort (ID t) (AssignedPort t))) ;;
                match Listener t with
                | Some l => emit (EvGo (TAccept l))
                | None => ret tt
                end ;;
                emit (EvGo (THeartbeats (ID t))) ;;
                keepAlive stream tenant pings
          end
        end
        end
      end
    end.

(** Every registered pointer is allocated. *)
Definition wf (s : RelayServer) : Prop :=
  map_Forall (fun _ p => is_Some (heap s !! p)) (tenants s).

(** The close [registerTenant] and [unregisterTenant] perform on the
    tenant registered under [id], stamped with the state it runs in. *)
Definition old_closing (s : RelayServer) (id : string)
  : @trace RelayServer :=
  match tenants s !! id with
  | Some e =>
      match heap s !! e with
      | Some existing =>
          match Listener existing with
          | Some l => [(EvCloseListener l, s)]
          | None => []
          end
      | None => []
      end
  | None => []
  end.

(** The tenant a successful registration allocates. *)
Definition registered (id : string) (port : Z) (prefix : string)
    (now : Z) (m : yamux_Session) (l : net_Listener) : Tenant :=
  {| ID := id; AssignedPort := port; SQLUser := "tatbeeb_" +:+ prefix;
     SQLPassword := generatePassword now; ControlSession := m;
     Listener := Some l; ActiveConns := 0 |}.

(** [activeTenants] of [handleHealth]. *)
Definition activeTenants (s : RelayServer) : Z := Z.of_nat (size (tenants s)).

(** The bookkeeping of main.go: the cursor stays within the pool, no more
    tenants are registered than ports were taken, every registered tenant
    is registered under its own id with a bound listener and a port the
    cursor has passed, and two registered tenants have different ports. *)
Definition mux_inv (s : RelayServer) : Prop :=
  wf s
  /\ NoDup (portPool s)
  /\ 0 <= nextPortIndex s <= Z.of_nat (length (portPool s))
  /\ Z.of_nat (size (tenants s)) <= nextPortIndex s
  /\ (forall id p t,
        tenants s !! id = Some p -> heap s !! p = Some t ->
        ID t = id /\ is_Some (Listener t)
        /\ AssignedPort t ∈ take (Z.to_nat (nextPortIndex s)) (portPool s))
  /\ (forall id1 id2 p1 p2 t1 t2,
        id1 <> id2 ->
        tenants s !! id1 = Some p1 -> tenants s !! id2 = Some p2 ->
        heap s !! p1 = Some t1 -> heap s !! p2 = Some t2 ->
        AssignedPort t1 <> AssignedPort t2).

(** A step keeps the bookkeeping, the pool and the configuration, and
    does not move the cursor back. *)
Definition mux_evolves (s s' : RelayServer) : Prop :=
  mux_inv s ->
  mux_inv s' /\ portPool s' = portPool s /\ config s' = config s
  /\ nextPortIndex s <= nextPortIndex s'.

(** The critical sections of main.go, each with any argument and any
    answer of the network. *)
Inductive step : RelayServer -> RelayServer -> Prop :=
| step_register id session now bound s :
    step s (final (registerTenant id session now bound s))
| step_unregister id s :
    step s (final (unregisterTenant id s))
| step_accept tenant c s :
    step s (final (acceptTenantConnections_accept tenant c s))
| step_forward tenant c stream s :
    step s (final (handleTenantConnection tenant c stream s)).

(** The states of a relay started with [cfg]. *)
Inductive reachable (cfg : RelayConfig) (secret : string)
  : RelayServer -> Prop :=
| reach_init : reachable cfg secret (NewRelayServer cfg secret)
| reach_step s s' :
    reachable cfg secret s -> step s s' -> reachable cfg secret s'.

End Mux.

(** ** Sample tokens *)

(** The answers of the Go standard library to the calls [VerifyJWT] makes
    on three tokens signed with the key s3cret under HS256, in a process
    whose local time zone is UTC.  On any other call the table answers
    with the empty string or an error. *)
Module Samples.
Import JWT.

Definition bytes (l : list nat) : string :=
  string_of_list_ascii (ascii_of_nat <$> l).

(** A JSON string literal and a JSON member. *)
Definition quoted (s : string) : string := bytes [34%nat] +:+ s +:+ bytes [34%nat].
Definition member (k v : string) : string := quoted k +:+ ":" +:+ v.

Definition header : string := "eyJhbGciOiJIUzI1NiIsInR5cCI6IkpXVCJ9".
Definition secret : string := "s3cret".
Definition issuer : string := "his.tatbeeb.sa".
Definition audience : string := "tatbeeb-link.tatbeeb.sa".

Definition json (sub : string) (exp : option Z) : string :=
  "{" +:+ member "sub" (quoted sub) +:+ ","
      +:+ member "iss" (quoted issuer) +:+ ","
      +:+ member "aud" (quoted audience)
      +:+ match exp with
          | Some e => "," +:+ member "exp" (fmt_d e)
          | None => EmptyString
          end
      +:+ "}".

Definition claims (sub : string) (exp : Z) : JWTClaims :=
  {| Sub := sub; Iss := issuer; Aud := audience; Exp := exp; Iat := 0;
     OrganizationID := EmptyString; UserID := EmptyString;
     Role := EmptyString |}.

Record Sample := {
  payload : string;
  decoded : string;
  parsed : JWTClaims;
  mac : string;
  signature : string
}.

(** sub tenant-001, exp 1700000000. *)
Definition expiring : Sample :=
  {| payload := "eyJzdWIiOiJ0ZW5hbnQtMDAxIiwiaXNzIjoiaGlzLnRhdGJlZWIuc2EiLCJhdWQiOiJ0YXRiZWViLWxpbmsudGF0YmVlYi5zYSIsImV4cCI6MTcwMDAwMDAwMH0";
     decoded := json "tenant-001" (Some 1700000000);
     parsed := claims "tenant-001" 1700000000;
     mac := bytes [147; 187; 79; 21; 176; 149; 129; 117; 59; 202; 2; 204;
                   230; 171; 177; 81; 54; 152; 81; 125; 57; 242; 97; 143;
                   54; 134; 158; 87; 38; 55; 166; 9]%nat;
     signature := "k7tPFbCVgXU7ygLM5quxUTaYUX058mGPNoaeVyY3pgk" |}.

(** sub tenant-001, no exp member. *)
Definition unbounded : Sample :=
  {| payload := "eyJzdWIiOiJ0ZW5hbnQtMDAxIiwiaXNzIjoiaGlzLnRhdGJlZWIuc2EiLCJhdWQiOiJ0YXRiZWViLWxpbmsudGF0YmVlYi5zYSJ9";
     decoded := json "tenant-001" None;
     parsed := claims "tenant-001" 0;
     mac := bytes [113; 221; 143; 138; 63; 17; 72; 219; 150; 101; 214; 27;
                   171; 91; 204; 187; 117; 175; 177; 192; 161; 83; 158;
                   193; 77; 172; 90; 113; 236; 172; 206; 177]%nat;
     signature := "cd2Pij8RSNuWZdYbq1vMu3WvscChU57BTaxaceyszrE" |}.

(** sub abc, exp 1700000000. *)
Definition short : Sample :=
  {| payload := "eyJzdWIiOiJhYmMiLCJpc3MiOiJoaXMudGF0YmVlYi5zYSIsImF1ZCI6InRhdGJlZWItbGluay50YXRiZWViLnNhIiwiZXhwIjoxNzAwMDAwMDAwfQ";
     decoded := json "abc" (Some 1700000000);
     parsed := claims "abc" 1700000000;
     mac := bytes [48; 10; 224; 78; 189; 160; 50; 138; 105; 104; 104; 9;
                   144; 186; 152; 74; 200; 105; 79; 35; 216; 199; 177; 11;
                   49; 169; 255; 173; 193; 78; 203; 115]%nat;
     signature := "MArgTr2gMoppaGgJkLqYSshpTyPYx7ELMan_rcFOy3M" |}.

Definition table : list Sample := [expiring; unbounded; short].

Definition find (p : Sample -> bool) : option Sample := List.find p table.

Definition lib : Lib :=
  {| hmac_sha256 key message :=
       if String.eqb key secret then
         match find (fun x => String.eqb message
                                (header +:+ "." +:+ payload x)) with
         | Some x => mac x
         | None => EmptyString
         end
       else EmptyString;
     base64_RawURL_encode b :=
       match find (fun x => String.eqb b (mac x)) with
       | Some x => signature x
       | None => EmptyString
       end;
     base64_RawURL_decode p :=
       match find (fun x => String.eqb p (payload x)) with
       | Some x => Ok (decoded x)
       | None => Err "illegal base64 data"
       end;
     json_Unmarshal b :=
       match find (fun x => String.eqb b (decoded x)) with
       | Some x => Ok (parsed x)
       | None => Err "invalid character"
       end;
     format_RFC3339 t :=
       if t =? 1700000000 then "2023-11-14T22:13:20Z" else EmptyString |}.

Definition token (x : Sample) : string :=
  header +:+ "." +:+ payload x +:+ "." +:+ signature x.

End Samples.

(** ** A sample relay *)

Module Scenario.
Import Mux.

Definition sample_config : RelayConfig :=
  {| TenantPortStart := 50000; TenantPortEnd := 50001;
     MaxConnectionsPerTenant := 0 |}.

(** A relay on which tenant-001 is registered on port 50000, with
    session 1 and listener 5. *)
Definition sample_relay : RelayServer :=
  final (registerTenant "tenant-001" 1%nat 1699999000 (Ok 5%nat)
           (NewRelayServer sample_config Samples.secret)).

Definition sample_request : RegisterPayload :=
  {| rq_TenantID := "tenant-001";
     rq_JWT := Samples.token Samples.expiring;
     rq_Version := "1.0.0" |}.

(** The sample relay after tenant-002 has registered too, on the last
    port of the range, with session 2 and listener 6. *)
Definition two_tenants : RelayServer :=
  final (registerTenant "tenant-002" 2%nat 1700000000 (Ok 6%nat)
           sample_relay).

(** The same range with room for two clients per tenant, and the relay
    on which tenant-001 is registered as in [sample_relay]. *)
Definition capped_config : RelayConfig :=
  {| TenantPortStart := 50000; TenantPortEnd := 50001;
     MaxConnectionsPerTenant := 2 |}.

Definition capped_relay : RelayServer :=
  final (registerTenant "tenant-001" 1%nat 1699999000 (Ok 5%nat)
           (NewRelayServer capped_config Samples.secret)).

End Scenario.

(** * Properties *)

(** ** The handler monad *)

Lemma bind_done {St A B} (m : @M St A) (k : A -> @M St B) s a s1 t1 :
  m s = (Done a, s1, t1) ->
  bind m k s = (result (k a s1), final (k a s1), t1 ++ log (k a s1)).
Proof.
  intros H. unfold bind, result, final, log. rewrite H.
  destruct (k a s1) as [[o s2] t2]. reflexivity.
Qed.

Lemma bind_run {St A B} (m : @M St A) (k : A -> @M St B) s a s1 t1 r s2 t2 t :
  m s = (Done a, s1, t1) -> k a s1 = (r, s2, t2) -> t = t1 ++ t2 ->
  bind m k s = (r, s2, t).
Proof. intros H1 H2 ->. unfold bind. rewrite H1, H2. reflexivity. Qed.

Lemma bind_log {St A B} (m : @M St A) (k : A -> @M St B) s a s1 t1 :
  m s = (Done a, s1, t1) -> log (bind m k s) = t1 ++ log (k a s1).
Proof. intros H. by rewrite (bind_done _ _ _ _ _ _ H). Qed.

Lemma defer_emit_log {St A} (e : Event) (body : @M St A) s :
  log (defer (emit e) body s) = log (body s) ++ [(e, final (body s))].
Proof. unfold defer, emit. by destruct (body s) as [[r s1] t1]. Qed.

Section HeartbeatFacts.
Import Heartbeat.

Lemma Since_gt (now t : Z) :
  (120 * Second <? Since now t) = true <-> 120 * Second < now - t.
Proof.
  unfold Since, maxDuration, minDuration, Second.
  rewrite Z.ltb_lt.
  destruct (Z.ltb_spec (2 ^ 63 - 1) (now - t));
    [|destruct (Z.ltb_spec (now - t) (- 2 ^ 63))]; lia.
Qed.

Lemma timedOut_spec (now : Z) (a : Agent) :
  timedOut now a = true <-> 120 * Second < now - lastHeartbeat a.
Proof. apply Since_gt. Qed.

Lemma deref_ok (r : RelayServer) (p : nat) (a : Agent) :
  heap r !! p = Some a -> deref p r = (Done a, r, []).
Proof. intros H. unfold deref, bind, get, ret. simpl. rewrite H. reflexivity. Qed.

Lemma cleanupAgent_Some (r : RelayServer) (port : Z) (p : nat) (a : Agent) :
  agents r !! port = Some p -> heap r !! p = Some a ->
  cleanupAgent port r
  = (Done tt, cleaned port r, closings a (set_agents (delete port) r)).
Proof.
  intros Hp Ha. unfold cleanupAgent, closings.
  unfold bind at 1. simpl. unfold bind at 1. simpl. rewrite Hp.
  unfold bind at 1. rewrite (deref_ok _ p a) by exact Ha.
  destruct a as [c ap l hb]; simpl.
  destruct l, c; reflexivity.
Qed.

Lemma cleanupAgent_None (r : RelayServer) (port : Z) :
  agents r !! port = None ->
  cleanupAgent port r = (Done tt, set_agents (delete port) r, []).
Proof.
  intros Hp. unfold cleanupAgent. unfold bind, get, put, ret. simpl.
  rewrite Hp. reflexivity.
Qed.

Lemma wf_cleaned (r : RelayServer) (port : Z) : wf r -> wf (cleaned port r).
Proof.
  intros H k p. simpl. intros Hk.
  apply lookup_delete_Some in Hk as [_ Hk]. exact (H k p Hk).
Qed.

Lemma wf_deleted (r : RelayServer) (port : Z) :
  wf r -> wf (set_agents (delete port) r).
Proof.
  intros H k p. simpl. intros Hk.
  apply lookup_delete_Some in Hk as [_ Hk]. exact (H k p Hk).
Qed.

(** [cleanupAgent] on a well-formed relay returns, keeps the heap and
    removes exactly its port from the registry. *)
Lemma cleanupAgent_total (r : RelayServer) (port : Z) :
  wf r ->
  exists r' tr,
    cleanupAgent port r = (Done tt, r', tr)
    /\ wf r' /\ heap r' = heap r
    /\ agents r' = delete port (agents r)
    /\ (forall x, x ∈ availablePorts r -> x ∈ availablePorts r')
    /\ (is_Some (agents r !! port) -> port ∈ availablePorts r').
Proof.
  intros Hwf. destruct (agents r !! port) as [p|] eqn:Hp.
  - destruct (Hwf port p Hp) as [a Ha].
    eexists _, _. split; [exact (cleanupAgent_Some r port p a Hp Ha)|].
    split; [by apply wf_cleaned|]. do 2 (split; [reflexivity|]).
    simpl. split; intros; apply elem_of_app; [by left|right].
    by apply list_elem_of_singleton.
  - eexists _, _. split; [exact (cleanupAgent_None r port Hp)|].
    split; [by apply wf_deleted|]. do 2 (split; [reflexivity|]).
    simpl. split; [done|]. by intros [? ?].
Qed.

Lemma cleanup_all (ports : list Z) (r : RelayServer) :
  wf r ->
  exists r' tr,
    for_each ports cleanupAgent r = (Done tt, r', tr)
    /\ wf r' /\ heap r' = heap r
    /\ (forall x, x ∈ availablePorts r -> x ∈ availablePorts r')
    /\ (forall k, k ∈ ports -> is_Some (agents r !! k) ->
                  k ∈ availablePorts r')
    /\ forall k, agents r' !! k
                 = if decide (k ∈ ports) then None else agents r !! k.
Proof.
  revert r. induction ports as [|port ports IH]; intros r Hwf.
  - exists r, []. repeat split; try done. by intros k ?%elem_of_nil.
  - destruct (cleanupAgent_total r port Hwf)
      as (r1 & t1 & E1 & Hwf1 & Hh1 & Ha1 & Hmono1 & Hfree1).
    destruct (IH r1 Hwf1) as (r2 & t2 & E2 & Hwf2 & Hh2 & Hmono2 & Hfree2 & Ha2).
    exists r2, (t1 ++ t2). split.
    { simpl. rewrite (bind_done _ _ _ _ _ _ E1), E2. reflexivity. }
    split; [done|]. split; [congruence|]. split; [by auto|]. split.
    { intros k Hk Hsome. destruct (decide (k = port)) as [->|Hne].
      - by auto.
      - apply elem_of_cons in Hk as [?|Hk]; [done|].
        apply Hfree2; [done|]. rewrite Ha1, lookup_delete_ne; done. }
    intros k. rewrite Ha2, Ha1.
    destruct (decide (k = port)) as [->|Hne].
    + rewrite lookup_delete_eq.
      rewrite (decide_True (P := port ∈ port :: ports));
        [by case_decide|]. apply elem_of_cons. by left.
    + rewrite lookup_delete_ne by done.
      destruct (decide (k ∈ ports)) as [Hin|Hin].
      * rewrite decide_True; [done|]. apply elem_of_cons. by right.
      * rewrite decide_False; [done|].
        intros [?|?]%elem_of_cons; done.
Qed.

Lemma scan_entries (now : Z) (r : RelayServer) (l : list (Z * nat)) (acc : list Z) :
  (forall e, e ∈ l -> is_Some (heap r !! e.2)) ->
  fold_each l
    (fun ports e =>
       agent <- deref e.2 ;;
       ret (if timedOut now agent then ports ++ [e.1] else ports)) acc r
  = (Done (acc ++ staleOf now r l), r, []).
Proof.
  revert acc. induction l as [|e l IH]; intros acc Hl.
  - unfold staleOf. simpl. rewrite app_nil_r. reflexivity.
  - destruct (Hl e) as [a Ha]; [set_solver|].
    cbn [fold_each].
    erewrite bind_done; last first.
    { erewrite bind_done by (apply deref_ok; exact Ha). reflexivity. }
    simpl. rewrite IH by (intros; apply Hl; set_solver).
    unfold staleOf. simpl. rewrite Ha.
    destruct (timedOut now a); simpl; [rewrite <- app_assoc|]; reflexivity.
Qed.

Lemma staleScan_run (now : Z) (r : RelayServer) :
  wf r ->
  exists ports,
    staleScan now r = (Done ports, r, [])
    /\ forall port, port ∈ ports <->
         exists p a, agents r !! port = Some p /\ heap r !! p = Some a
                     /\ timedOut now a = true.
Proof.
  intros Hwf. exists (staleOf now r (map_to_list (agents r))). split.
  - unfold staleScan. erewrite bind_done by reflexivity. simpl.
    rewrite scan_entries; [reflexivity|].
    intros [k p] He. apply elem_of_map_to_list in He. exact (Hwf k p He).
  - intros port. unfold staleOf. rewrite list_elem_of_fmap. split.
    + intros ([k p] & -> & He). apply list_elem_of_In, filter_In in He.
      destruct He as [He Hb]. apply list_elem_of_In, elem_of_map_to_list in He.
      simpl in *. destruct (heap r !! p) as [a|] eqn:Ha; [|done].
      exists p, a. done.
    + intros (p & a & Hp & Ha & Hb). exists (port, p). split; [done|].
      apply list_elem_of_In, filter_In. split.
      * apply list_elem_of_In, elem_of_map_to_list. exact Hp.
      * simpl. rewrite Ha. exact Hb.
Qed.

(** One tick returns, and removes exactly the timed-out agents. *)
Lemma tick_run (now : Z) (r : RelayServer) :
  wf r ->
  exists r' tr,
    heartbeatChecker_tick now r = (Done tt, r', tr)
    /\ wf r' /\ heap r' = heap r
    /\ (forall port p a,
          agents r !! port = Some p -> heap r !! p = Some a ->
          timedOut now a = true -> port ∈ availablePorts r')
    /\ forall port p a,
         agents r !! port = Some p -> heap r !! p = Some a ->
         agents r' !! port = if timedOut now a then None else Some p.
Proof.
  intros Hwf.
  destruct (staleScan_run now r Hwf) as (ports & Escan & Hports).
  destruct (cleanup_all ports r Hwf)
    as (r' & tr & Eall & Hwf' & Hheap & _ & Hfree & Hag).
  exists r', tr. split.
  { unfold heartbeatChecker_tick.
    rewrite (bind_done _ _ _ _ _ _ Escan), Eall. reflexivity. }
  split; [done|]. split; [done|]. split.
  { intros port p a Hp Ha Hto. apply Hfree; [|by eauto].
    apply Hports. eauto. }
  intros port p a Hp Ha. rewrite Hag.
  destruct (timedOut now a) eqn:Hto.
  - rewrite decide_True; [done|]. apply Hports. eauto.
  - rewrite decide_False; [done|].
    intros (p' & a' & Hp' & Ha' & Hto')%Hports. congruence.
Qed.

Lemma heartbeat_run (r : RelayServer) (p : nat) (a : Agent) (line : string)
    (t : Z) :
  heap r !! p = Some a -> TrimSpace line = "HEARTBEAT" ->
  handleAgent_heartbeat p line t r
  = (Done tt, set_heap (<[p := with_lastHeartbeat t a]>) r, []).
Proof.
  intros Ha Hline. unfold handleAgent_heartbeat. rewrite Hline.
  rewrite decide_True by done. unfold update.
  rewrite (bind_done _ _ _ _ _ _ (deref_ok r p a Ha)). reflexivity.
Qed.

Lemma wf_set_heap (r : RelayServer) (p : nat) (a : Agent) :
  wf r -> wf (set_heap (<[p := a]>) r).
Proof.
  intros H k q Hk. simpl in *. destruct (H k q Hk) as [b Hb].
  apply lookup_lt_is_Some. rewrite length_insert.
  apply lookup_lt_is_Some. eauto.
Qed.

(** C8.  Taking a port from a pool that has one and giving it back at
    once returns, changes nothing but the order of the pool, and leaves
    the same set of free ports. *)
Theorem assign_release_roundtrip (r : RelayServer) :
  availablePorts r <> [] ->
  let run := (port <- assignPort ;; releasePort port) r in
  result run = Done tt
  /\ log run = []
  /\ availablePorts (final run) ≡ₚ availablePorts r
  /\ (list_to_set (availablePorts (final run)) : gset Z)
     = list_to_set (availablePorts r)
  /\ agents (final run) = agents r
  /\ heap (final run) = heap r.
Proof.
  intros Hne. destruct r as [ag hp [|port rest]]; [done|].
  cbn. repeat split.
  - symmetry. apply Permutation_cons_append.
  - rewrite list_to_set_app_L, !list_to_set_cons, list_to_set_nil.
    rewrite (right_id_L ∅ (∪)). apply (comm_L (∪)).
Qed.

Lemma assign_release_roundtrip_witness :
  let r := newRelay 50000 50002 in
  let run := (port <- assignPort ;; releasePort port) r in
  result run = Done tt
  /\ log run = []
  /\ availablePorts (final run) ≡ₚ availablePorts r
  /\ (list_to_set (availablePorts (final run)) : gset Z)
     = list_to_set (availablePorts r)
  /\ agents (final run) = agents r
  /\ heap (final run) = heap r.
Proof.
  apply (assign_release_roundtrip (newRelay 50000 50002)).
  vm_compute. discriminate.
Defined.

Lemma next_tick (start h : Z) :
  start <= h + 120 * Second ->
  exists k, 1 <= k
    /\ h + 120 * Second < tickInstant start k <= h + 180 * Second.
Proof.
  intros Hs. unfold tickInstant, Second in *.
  exists ((h + 120000000000 - start) / 60000000000 + 1).
  pose proof (Z.div_mod (h + 120000000000 - start) 60000000000 ltac:(lia)).
  pose proof (Z.mod_pos_bound (h + 120000000000 - start) 60000000000
                ltac:(lia)).
  pose proof (Z.div_pos (h + 120000000000 - start) 60000000000
                ltac:(lia) ltac:(lia)).
  lia.
Qed.

(** C7.  For a registered agent: once its last heartbeat is more than
    120 s old a tick of the checker removes it from the registry, and a
    ticker of period 60 s fires within 60 s of that moment; a HEARTBEAT
    line read at [t] sets the agent's last heartbeat to [t] and keeps the
    agent through every tick up to [t + 120 s]. *)
Theorem heartbeat_staleness_bound (r : RelayServer) (port : Z) (p : nat)
    (a : Agent) :
  wf r -> agents r !! port = Some p -> heap r !! p = Some a ->
  (forall start, start <= lastHeartbeat a + 120 * Second ->
     exists k, 1 <= k
       /\ lastHeartbeat a + 120 * Second < tickInstant start k
          <= lastHeartbeat a + 180 * Second)
  /\ (forall now, 120 * Second < now - lastHeartbeat a ->
        let run := heartbeatChecker_tick now r in
        result run = Done tt /\ agents (final run) !! port = None)
  /\ (forall line t,
        TrimSpace line = "HEARTBEAT" ->
        heap (final (handleAgent_heartbeat p line t r)) !! p
        = Some (with_lastHeartbeat t a))
  /\ (forall line t now,
        TrimSpace line = "HEARTBEAT" -> now - t <= 120 * Second ->
        let run := (handleAgent_heartbeat p line t ;;
                    heartbeatChecker_tick now) r in
        result run = Done tt /\ agents (final run) !! port = Some p).
Proof.
  intros Hwf Hp Ha. split; [intros; by apply next_tick|]. split; [|split].
  2:{ intros line t Hline. rewrite (heartbeat_run r p a line t Ha Hline).
      unfold final. simpl. apply list_lookup_insert_eq.
      by eapply lookup_lt_Some. }
  - intros now Hold.
    destruct (tick_run now r Hwf) as (r' & tr & E & _ & _ & _ & Hag).
    simpl. rewrite E. split; [done|]. unfold final. simpl.
    rewrite (Hag port p a Hp Ha).
    apply timedOut_spec in Hold. by rewrite Hold.
  - intros line t now Hline Hfresh.
    pose proof (heartbeat_run r p a line t Ha Hline) as E1.
    set (r1 := set_heap (<[p := with_lastHeartbeat t a]>) r) in *.
    assert (wf r1) as Hwf1 by by apply wf_set_heap.
    assert (heap r1 !! p = Some (with_lastHeartbeat t a)) as Ha1.
    { simpl. apply list_lookup_insert_eq. by eapply lookup_lt_Some. }
    destruct (tick_run now r1 Hwf1) as (r' & tr & E & _ & _ & _ & Hag).
    simpl. rewrite (bind_done _ _ _ _ _ _ E1), E.
    split; [done|]. unfold final. simpl.
    rewrite (Hag port p _ Hp Ha1).
    destruct (timedOut now (with_lastHeartbeat t a)) eqn:Hto; [|done].
    apply timedOut_spec in Hto. simpl in Hto. lia.
Qed.

Lemma heartbeat_staleness_bound_witness :
  let r := final (handleAgent_register 7%nat (Some ("REGISTER" +:+ LF)) 0
                    (Ok 3%nat) false (newRelay 50000 50001)) in
  agents (final (heartbeatChecker_tick (121 * Second) r)) !! 50000 = None
  /\ agents (final ((handleAgent_heartbeat 0%nat ("HEARTBEAT" +:+ LF)
                       (100 * Second) ;;
                     heartbeatChecker_tick (200 * Second)) r)) !! 50000
     = Some 0%nat.
Proof.
  set (r := final (handleAgent_register 7%nat (Some ("REGISTER" +:+ LF)) 0
                     (Ok 3%nat) false (newRelay 50000 50001))).
  assert (wf r) as Hwf
    by (unfold wf; apply (bool_decide_unpack _); vm_compute; exact I).
  assert (agents r !! 50000 = Some 0%nat) as Hp by (vm_compute; reflexivity).
  pose proof (heartbeat_staleness_bound r 50000 0%nat
                {| conn := Some 7%nat; assignedPort := 50000;
                   listener := Some 3%nat; lastHeartbeat := 0 |}
                Hwf Hp eq_refl) as (_ & Hstale & _ & Hfresh).
  split.
  - apply (Hstale (121 * Second)). vm_compute. reflexivity.
  - apply (Hfresh ("HEARTBEAT" +:+ LF) (100 * Second) (200 * Second)).
    + vm_compute. reflexivity.
    + vm_compute. discriminate.
Defined.

Lemma register_ok (r : RelayServer) (c : net_Conn) (line : string)
    (now : Z) (l : net_Listener) (port : Z) (rest : list Z) :
  TrimSpace line = "REGISTER" -> availablePorts r = port :: rest ->
  port <> 0 ->
  let a := {| conn := Some c; assignedPort := port; listener := Some l;
              lastHeartbeat := now |} in
  let r1 := {| agents := <[port := length (heap r)]> (agents r);
               heap := heap r ++ [a]; availablePorts := rest |} in
  exists tr,
    handleAgent_register c (Some line) now (Ok l) false r
    = (Done (Some (length (heap r), port)), r1, tr)
    /\ tr.*1 = [EvListen port (Ok l);
                EvWrite c ("OK port:" +:+ fmt_d port +:+ LF);
                EvGo (TAccept l)].
Proof.
  intros Hline Hav Hport. destruct r as [ag hp av]. simpl in *. subst av.
  unfold handleAgent_register. rewrite Hline.
  case_decide; [done|].
  unfold assignPort, alloc, update, deref.
  unfold bind, get, put, ret, emit,
    set_availablePorts, set_heap, set_agents. simpl.
  case_decide; [done|]. simpl.
  rewrite list_lookup_middle by done. simpl.
  rewrite (insert_app_r_alt hp) by done. rewrite Nat.sub_diag. simpl.
  eexists. split; reflexivity.
Qed.

Lemma register_write_err (r : RelayServer) (c : net_Conn) (line : string)
    (now : Z) (l : net_Listener) (port : Z) (rest : list Z) :
  TrimSpace line = "REGISTER" -> availablePorts r = port :: rest ->
  port <> 0 ->
  exists r1 tr,
    handleAgent_register c (Some line) now (Ok l) true r = (Done None, r1, tr)
    /\ agents r1 = delete port (agents r)
    /\ availablePorts r1 = rest ++ [port]
    /\ tr.*1 = [EvListen port (Ok l);
                EvWrite c ("OK port:" +:+ fmt_d port +:+ LF);
                EvCloseListener l; EvCloseConn c].
Proof.
  intros Hline Hav Hport. destruct r as [ag hp av]. simpl in *. subst av.
  unfold handleAgent_register. rewrite Hline.
  case_decide; [done|].
  unfold cleanupAgent, releasePort, closeListener, closeConn,
    assignPort, alloc, update, deref.
  unfold bind, get, put, ret, emit,
    set_availablePorts, set_heap, set_agents. simpl.
  case_decide; [done|]. simpl.
  rewrite list_lookup_middle by done. simpl.
  rewrite (insert_app_r_alt hp) by done. rewrite Nat.sub_diag. simpl.
  rewrite lookup_insert_eq. simpl.
  rewrite list_lookup_middle by done. simpl.
  eexists _, _. split; [reflexivity|]. simpl.
  split; [apply delete_insert_eq|]. split; reflexivity.
Qed.

Lemma heartbeats_run (lines : list (string * Z)) (r : RelayServer)
    (agent : nat) (a : Agent) :
  heap r !! agent = Some a ->
  exists r' a',
    for_each lines (fun l => handleAgent_heartbeat agent l.1 l.2) r
    = (Done tt, r', [])
    /\ agents r' = agents r /\ availablePorts r' = availablePorts r
    /\ heap r' !! agent = Some a'
    /\ conn a' = conn a /\ listener a' = listener a.
Proof.
  revert r a. induction lines as [|[line t] lines IH]; intros r a Ha.
  - exists r, a. done.
  - simpl. unfold handleAgent_heartbeat at 1.
    destruct (decide (TrimSpace line = "HEARTBEAT")) as [Hl|Hl].
    + destruct (IH (set_heap (<[agent := with_lastHeartbeat t a]>) r)
                  (with_lastHeartbeat t a))
        as (r' & a' & E & ? & ? & ? & ? & ?).
      { simpl. apply list_lookup_insert_eq. by eapply lookup_lt_Some. }
      exists r', a'. split; [|done].
      eapply bind_run; [|exact E|..].
      * unfold update.
        eapply bind_run; [by apply deref_ok|reflexivity|reflexivity].
      * reflexivity.
    + destruct (IH r a Ha) as (r' & a' & E & ? & ? & ? & ? & ?).
      exists r', a'. split; [|done].
      eapply bind_run; [reflexivity|exact E|reflexivity].
Qed.

(** A whole session of [handleAgent]: registration, the heartbeat lines,
    then the read error.  The port goes back to the pool after the
    listener is closed. *)
Lemma handleAgent_session (r : RelayServer) (c : net_Conn) (line : string)
    (now : Z) (l : net_Listener) (port : Z) (rest : list Z)
    (lines : list (string * Z)) :
  TrimSpace line = "REGISTER" -> availablePorts r = port :: rest ->
  port <> 0 ->
  let run := handleAgent c (Some line) now (Ok l) false lines r in
  result run = Done tt
  /\ agents (final run) = delete port (agents r)
  /\ availablePorts (final run) = rest ++ [port]
  /\ events run = [EvListen port (Ok l);
                   EvWrite c ("OK port:" +:+ fmt_d port +:+ LF);
                   EvGo (TAccept l);
                   EvCloseListener l; EvCloseConn c; EvCloseConn c].
Proof.
  intros Hline Hav Hport.
  destruct (register_ok r c line now l port rest Hline Hav Hport)
    as (tr & Ereg & Htr).
  set (a := {| conn := Some c; assignedPort := port; listener := Some l;
               lastHeartbeat := now |}) in *.
  set (r1 := {| agents := <[port := length (heap r)]> (agents r);
                heap := heap r ++ [a]; availablePorts := rest |}) in *.
  destruct (heartbeats_run lines r1 (length (heap r)) a)
    as (r2 & a2 & Ehb & Hag2 & Hav2 & Ha2 & Hc2 & Hl2).
  { simpl. by apply list_lookup_middle. }
  assert (agents r2 !! port = Some (length (heap r))) as Hp2.
  { rewrite Hag2. simpl. apply lookup_insert_eq. }
  pose proof (cleanupAgent_Some r2 port _ a2 Hp2 Ha2) as Ecl.
  unfold handleAgent, defer.
  rewrite (bind_done _ _ _ _ _ _ Ereg). simpl.
  rewrite (bind_done _ _ _ _ _ _ Ehb), Ecl. simpl.
  unfold events, result, final, log. simpl.
  split; [done|]. split; [by rewrite Hag2; apply delete_insert_eq|].
  split; [by rewrite Hav2|].
  rewrite !fmap_app, Htr. unfold closings. rewrite Hc2, Hl2. reflexivity.
Qed.

(** C2, as amended.  In the heartbeat draft every teardown goes through
    [cleanupAgent]: it returns, removes the agent, closes the listener
    while the port is still out of the pool, and then appends the port to
    [availablePorts].  A tick of the checker does so for an agent whose
    heartbeat is older than 120 s, and [handleAgent] does so when its
    reader fails. *)
Theorem teardown_releases_port (r : RelayServer) (port : Z) (p : nat)
    (a : Agent) (l : net_Listener) :
  wf r -> agents r !! port = Some p -> heap r !! p = Some a ->
  listener a = Some l ->
  (let run := cleanupAgent port r in
   result run = Done tt
   /\ agents (final run) !! port = None
   /\ EvCloseListener l ∈ events run
   /\ (forall e s, (e, s) ∈ log run -> availablePorts s = availablePorts r)
   /\ availablePorts (final run) = availablePorts r ++ [port])
  /\ (forall now, 120 * Second < now - lastHeartbeat a ->
        let run := heartbeatChecker_tick now r in
        result run = Done tt
        /\ agents (final run) !! port = None
        /\ port ∈ availablePorts (final run))
  /\ (forall r0 c line now l0 port0 rest lines,
        TrimSpace line = "REGISTER" -> availablePorts r0 = port0 :: rest ->
        port0 <> 0 ->
        let run := handleAgent c (Some line) now (Ok l0) false lines r0 in
        result run = Done tt
        /\ agents (final run) !! port0 = None
        /\ EvCloseListener l0 ∈ events run
        /\ availablePorts (final run) = rest ++ [port0]).
Proof.
  intros Hwf Hp Ha Hl. split; [|split].
  - simpl. rewrite (cleanupAgent_Some r port p a Hp Ha).
    unfold result, final, events, log. simpl.
    split; [done|]. split; [apply lookup_delete_eq|].
    unfold closings. rewrite Hl. split.
    { simpl. apply elem_of_cons. by left. }
    split; [|done].
    intros e s Hin. apply elem_of_app in Hin as [Hin|Hin].
    + apply list_elem_of_singleton in Hin. by inversion Hin.
    + destruct (conn a); [|by apply elem_of_nil in Hin].
      apply list_elem_of_singleton in Hin. by inversion Hin.
  - intros now Hold.
    destruct (tick_run now r Hwf) as (r' & tr & E & _ & _ & Hfree & Hag).
    apply timedOut_spec in Hold.
    simpl. rewrite E. unfold result, final. simpl.
    split; [done|]. split.
    + by rewrite (Hag port p a Hp Ha), Hold.
    + by apply (Hfree port p a).
  - intros r0 c line now l0 port0 rest lines Hline Hav Hport.
    destruct (handleAgent_session r0 c line now l0 port0 rest lines
                Hline Hav Hport) as (Hres & Hag & Hav' & Hev).
    simpl. split; [done|]. split; [by rewrite Hag; apply lookup_delete_eq|].
    split; [|done]. rewrite Hev. do 3 (apply elem_of_cons; right).
    apply elem_of_cons. by left.
Qed.

Lemma teardown_releases_port_witness :
  let r := final (handleAgent_register 7%nat (Some ("REGISTER" +:+ LF)) 0
                    (Ok 3%nat) false (newRelay 50000 50001)) in
  let run := cleanupAgent 50000 r in
  availablePorts r = [50001]
  /\ EvCloseListener 3%nat ∈ events run
  /\ availablePorts (final run) = [50001; 50000].
Proof.
  set (r := final (handleAgent_register 7%nat (Some ("REGISTER" +:+ LF)) 0
                     (Ok 3%nat) false (newRelay 50000 50001))).
  assert (wf r) as Hwf
    by (unfold wf; apply (bool_decide_unpack _); vm_compute; exact I).
  assert (agents r !! 50000 = Some 0%nat) as Hp by (vm_compute; reflexivity).
  pose proof (teardown_releases_port r 50000 0%nat
                {| conn := Some 7%nat; assignedPort := 50000;
                   listener := Some 3%nat; lastHeartbeat := 0 |} 3%nat
                Hwf Hp eq_refl eq_refl) as ((_ & _ & Hev & _ & Hav) & _).
  split; [reflexivity|]. split; [exact Hev|exact Hav].
Defined.
End HeartbeatFacts.

Section FailedHandshake.
Import Heartbeat.

(** C3, as amended.  In the heartbeat draft, with port 0 not in the pool,
    a handshake that registers nothing returns, adds no agent to the
    registry and leaves the pool with the ports it had. *)
Theorem failed_handshake_keeps_pool (r : RelayServer) (c : net_Conn)
    (first : option string) (now : Z) (bound : res net_Listener)
    (write_err : bool) (lines : list (string * Z)) :
  0 ∉ availablePorts r ->
  result (handleAgent_register c first now bound write_err r) = Done None ->
  let run := handleAgent c first now bound write_err lines r in
  result run = Done tt
  /\ length (availablePorts (final run)) = length (availablePorts r)
  /\ availablePorts (final run) ≡ₚ availablePorts r
  /\ forall k q, agents (final run) !! k = Some q -> agents r !! k = Some q.
Proof.
  intros Hzero Hnone.
  assert (exists r1 tr,
    handleAgent_register c first now bound write_err r = (Done None, r1, tr)
    /\ availablePorts r1 ≡ₚ availablePorts r
    /\ forall k q, agents r1 !! k = Some q -> agents r !! k = Some q)
    as (r1 & tr & E & Hperm & Hsub).
  { destruct first as [line|]; [|by exists r, []].
    destruct (decide (TrimSpace line = "REGISTER")) as [Hline|Hline].
    2:{ eexists r, _. unfold handleAgent_register.
        rewrite decide_True by done. split; [reflexivity|done]. }
    destruct (availablePorts r) as [|port rest] eqn:Hav.
    { eexists r, _. unfold handleAgent_register, assignPort.
      rewrite Hline. case_decide; [done|].
      unfold bind, get, ret, emit. simpl. rewrite Hav. simpl.
      split; [reflexivity|]. split; [reflexivity|done]. }
    assert (port <> 0) as Hport.
    { intros ->. apply Hzero. apply elem_of_cons. by left. }
    destruct bound as [l|err].
    - destruct write_err.
      + destruct (register_write_err r c line now l port rest Hline Hav Hport)
          as (r1 & tr & E & Hag & Hav1 & _).
        exists r1, tr. split; [done|]. split.
        * rewrite Hav1. symmetry. apply Permutation_cons_append.
        * intros k q. rewrite Hag. by intros [_ ?]%lookup_delete_Some.
      + exfalso.
        destruct (register_ok r c line now l port rest Hline Hav Hport)
          as (tr & E & _).
        rewrite E in Hnone. discriminate.
    - destruct r as [ag hp av]. simpl in *. subst av.
      unfold handleAgent_register. rewrite Hline. case_decide; [done|].
      unfold releasePort, assignPort, alloc.
      unfold bind, get, put, ret, emit,
        set_availablePorts, set_heap, set_agents. simpl.
      case_decide; [done|]. simpl.
      eexists _, _. split; [reflexivity|]. simpl.
      split; [|done]. symmetry. apply Permutation_cons_append. }
  simpl. unfold handleAgent, defer.
  rewrite (bind_done _ _ _ _ _ _ E). unfold result, final. simpl.
  split; [done|]. split; [by rewrite Hperm|]. split; done.
Qed.

Lemma failed_handshake_keeps_pool_witness :
  let r := newRelay 50000 50001 in
  let run := handleAgent 7%nat (Some ("REGISTER" +:+ LF)) 0
               (Err "address already in use") false [] r in
  result run = Done tt
  /\ length (availablePorts (final run)) = length (availablePorts r)
  /\ availablePorts (final run) ≡ₚ availablePorts r
  /\ forall k q, agents (final run) !! k = Some q -> agents r !! k = Some q.
Proof.
  apply (failed_handshake_keeps_pool (newRelay 50000 50001)).
  - apply (bool_decide_unpack _). vm_compute. exact I.
  - vm_compute. reflexivity.
Defined.
End FailedHandshake.

Section PoolExhaustion.

(** C6, as amended.  With the pool exhausted a REGISTER is answered by
    one line and the close of the connection, and the relay value is left
    as it was: the heartbeat draft writes "ERROR no available ports", the
    simple draft writes "ERROR No ports available". *)
Theorem pool_exhaustion_reply
    (r : Heartbeat.RelayServer) (s : Simple.SimpleRelay) (c : net_Conn)
    (line input command : string) (now : Z) (bound : res net_Listener)
    (write_err : bool) (mux : res yamux_Session)
    (lines : list (string * Z)) (clients : list net_Conn) :
  TrimSpace line = "REGISTER" ->
  Heartbeat.availablePorts r = [] ->
  Simple.readCommand input = Some command ->
  TrimSpace command = "REGISTER" ->
  Z.of_nat (length (Simple.portPool s)) <= Simple.nextPortIndex s ->
  Heartbeat.handleAgent c (Some line) now bound write_err lines r
  = (Done tt, r,
     [(EvWrite c ("ERROR no available ports" +:+ LF), r);
      (EvCloseConn c, r)])
  /\ Simple.handleConnection c input write_err mux bound clients s
     = (Done tt, s,
        [(EvWrite c ("ERROR No ports available" +:+ LF), s);
         (EvCloseConn c, s)]).
Proof.
  intros Hline Hav Hinput Hcommand Hfull. split.
  - unfold Heartbeat.handleAgent, Heartbeat.handleAgent_register,
      Heartbeat.assignPort, defer.
    rewrite Hline. case_decide; [done|].
    unfold bind, get, ret, emit. simpl. rewrite Hav. reflexivity.
  - unfold Simple.handleConnection, Simple.handleConnection_register, defer.
    rewrite Hinput, Hcommand. case_decide; [done|].
    unfold bind, get, ret, emit. simpl.
    apply Z.leb_le in Hfull. rewrite Hfull. reflexivity.
Qed.

Lemma pool_exhaustion_reply_witness :
  let r := Heartbeat.newRelay 50000 49999 in
  let s := Simple.NewSimpleRelay 50000 49999 in
  Heartbeat.handleAgent 7%nat (Some ("REGISTER" +:+ LF)) 0 (Ok 3%nat) false
    [] r
  = (Done tt, r,
     [(EvWrite 7%nat ("ERROR no available ports" +:+ LF), r);
      (EvCloseConn 7%nat, r)])
  /\ Simple.handleConnection 7%nat ("REGISTER" +:+ LF) false (Ok 1%nat)
       (Ok 3%nat) [] s
     = (Done tt, s,
        [(EvWrite 7%nat ("ERROR No ports available" +:+ LF), s);
         (EvCloseConn 7%nat, s)]).
Proof.
  apply (pool_exhaustion_reply (Heartbeat.newRelay 50000 49999)
           (Simple.NewSimpleRelay 50000 49999) 7%nat
           ("REGISTER" +:+ LF) ("REGISTER" +:+ LF) "REGISTER").
  - vm_compute. reflexivity.
  - vm_compute. reflexivity.
  - vm_compute. reflexivity.
  - vm_compute. reflexivity.
  - vm_compute. discriminate.
Defined.

(** C6 as stated fails on the simple draft: with its pool exhausted the
    reply to REGISTER is not the line "ERROR no available ports". *)
Lemma pool_exhaustion_reply_differs :
  let s := Simple.NewSimpleRelay 50000 50000 in
  let s1 := final (Simple.handleConnection 7%nat ("REGISTER" +:+ LF) false
                     (Ok 1%nat) (Ok 3%nat) [] s) in
  let run := Simple.handleConnection 8%nat ("REGISTER" +:+ LF) false
               (Ok 2%nat) (Ok 4%nat) [] s1 in
  Simple.free_count s1 = 0
  /\ events run = [EvWrite 8%nat ("ERROR No ports available" +:+ LF);
                   EvCloseConn 8%nat]
  /\ EvWrite 8%nat ("ERROR no available ports" +:+ LF) ∉ events run.
Proof.
  intros s s1 run.
  assert (events run = [EvWrite 8%nat ("ERROR No ports available" +:+ LF);
                        EvCloseConn 8%nat]) as E
    by (vm_compute; reflexivity).
  split; [vm_compute; reflexivity|]. split; [exact E|].
  rewrite E. intros H.
  apply elem_of_cons in H as [H|H]; [vm_compute in H; discriminate|].
  apply elem_of_cons in H as [H|H]; [discriminate|].
  by apply elem_of_nil in H.
Qed.
End PoolExhaustion.

Section Expiry.
Import JWT.

(** C5, as amended.  For a token that passes the format, signature,
    decoding, issuer and audience checks, [VerifyJWT] returns an error
    exactly when [exp] is positive and smaller than the clock; a token
    whose [exp] equals the clock, or is zero or absent, is accepted. *)
Theorem expiry_check (lib : Lib) (now : Z)
    (token secret issuer audience header payload signature decoded : string)
    (claims : JWTClaims) :
  splitDot token = [header; payload; signature] ->
  computeSignature lib header payload secret = Ok signature ->
  base64_RawURL_decode lib payload = Ok decoded ->
  json_Unmarshal lib decoded = Ok claims ->
  Iss claims = issuer -> Aud claims = audience ->
  let r := VerifyJWT lib now token secret issuer audience in
  (is_err r = true <-> 0 < Exp claims < now)
  /\ (~ 0 < Exp claims < now -> r = Ok claims)
  /\ (Exp claims = now -> r = Ok claims)
  /\ (Exp claims = 0 -> r = Ok claims).
Proof.
  intros Hsplit Hsig Hdec Hjson Hiss Haud.
  assert (VerifyJWT lib now token secret issuer audience
          = if (0 <? Exp claims) && (Exp claims <? now)
            then Err ("token expired at "
                      +:+ format_RFC3339 lib (Exp claims))
            else Ok claims) as E.
  { unfold VerifyJWT. rewrite Hsplit, Hsig.
    case_decide; [done|]. rewrite Hdec, Hjson.
    do 2 (case_decide; [done|]). reflexivity. }
  simpl. rewrite E.
  destruct (Z.ltb_spec 0 (Exp claims)), (Z.ltb_spec (Exp claims) now);
    simpl; (split; [split; [done || lia | done || lia]|]);
    (split; [intros; done || lia|]); split; intros; done || lia.
Qed.

Lemma expiry_check_witness :
  let r := VerifyJWT Samples.lib 1700000000 (Samples.token Samples.expiring)
             Samples.secret Samples.issuer Samples.audience in
  (is_err r = true <-> 0 < 1700000000 < 1700000000)
  /\ r = Ok (Samples.parsed Samples.expiring).
Proof.
  pose proof (expiry_check Samples.lib 1700000000
                (Samples.token Samples.expiring)
                Samples.secret Samples.issuer Samples.audience
                Samples.header (Samples.payload Samples.expiring)
                (Samples.signature Samples.expiring)
                (Samples.decoded Samples.expiring)
                (Samples.parsed Samples.expiring)
                ltac:(vm_compute; reflexivity) ltac:(vm_compute; reflexivity)
                ltac:(vm_compute; reflexivity) ltac:(vm_compute; reflexivity)
                ltac:(vm_compute; reflexivity) ltac:(vm_compute; reflexivity))
    as (H1 & _ & H3 & _).
  split; [exact H1|]. apply H3. reflexivity.
Defined.

(** C5 as stated fails: a token whose [exp] equals the clock and a token
    without [exp] both pass, although neither has [exp] above the clock. *)
Lemma expiry_not_strict :
  VerifyJWT Samples.lib 1700000000 (Samples.token Samples.expiring)
    Samples.secret Samples.issuer Samples.audience
  = Ok (Samples.parsed Samples.expiring)
  /\ Exp (Samples.parsed Samples.expiring) = 1700000000
  /\ VerifyJWT Samples.lib 1700000000 (Samples.token Samples.unbounded)
       Samples.secret Samples.issuer Samples.audience
     = Ok (Samples.parsed Samples.unbounded)
  /\ Exp (Samples.parsed Samples.unbounded) = 0.
Proof. repeat split; vm_compute; reflexivity. Qed.
End Expiry.

Section MuxFacts.
Import Mux Scenario.

Lemma close_existing_run (s : RelayServer) (id : string) :
  wf s ->
  match tenants s !! id with
  | Some e => existing <- deref e ;; closeListener (Listener existing)
  | None => ret tt
  end s = (Done tt, s, old_closing s id).
Proof.
  intros Hwf. unfold old_closing.
  destruct (tenants s !! id) as [e|] eqn:He; [|reflexivity].
  destruct (Hwf id e He) as [existing Hex]. rewrite Hex.
  unfold deref, closeListener, bind, get, ret, emit. simpl. rewrite Hex.
  destruct (Listener existing); reflexivity.
Qed.

Lemma deref_tenant (s : RelayServer) (p : nat) (t : Tenant) :
  heap s !! p = Some t -> deref p s = (Done t, s, []).
Proof.
  intros H. unfold deref, bind, get, ret. simpl. rewrite H. reflexivity.
Qed.

Lemma cursor_in_range (s : RelayServer) (port : Z) :
  0 <= nextPortIndex s ->
  portPool s !! Z.to_nat (nextPortIndex s) = Some port ->
  (Z.of_nat (length (portPool s)) <=? nextPortIndex s) = false
  /\ (nextPortIndex s <? 0) = false.
Proof.
  intros Hidx Hport. apply lookup_lt_Some in Hport.
  split; [apply Z.leb_gt|apply Z.ltb_ge]; lia.
Qed.

Lemma registerTenant_ok (s : RelayServer) (id : string) (m : yamux_Session)
    (now : Z) (l : net_Listener) (port : Z) (prefix : string) :
  wf s -> 0 <= nextPortIndex s ->
  portPool s !! Z.to_nat (nextPortIndex s) = Some port ->
  slice_to id 6 = Some prefix ->
  registerTenant id m now (Ok l) s
  = (Done (Some (length (heap s))),
     set_tenants (<[id := length (heap s)]>)
       (set_heap (fun h => h ++ [registered id port prefix now m l])
          (set_nextPortIndex (fun i => i + 1) s)),
     old_closing s id
     ++ [(EvListen port (Ok l), set_nextPortIndex (fun i => i + 1) s)]).
Proof.
  intros Hwf Hidx Hport Hslice.
  destruct (cursor_in_range s port Hidx Hport) as [Hle Hlt].
  unfold registerTenant.
  eapply bind_run; [reflexivity| |reflexivity].
  eapply bind_run; [by apply close_existing_run| |reflexivity].
  rewrite Hle. unfold index. rewrite Hlt, Hport, Hslice.
  unfold alloc, bind, get, put, ret, emit. simpl.
  reflexivity.
Qed.

Lemma registerTenant_panics (s : RelayServer) (id : string)
    (m : yamux_Session) (now : Z) (l : net_Listener) (port : Z) :
  wf s -> 0 <= nextPortIndex s ->
  portPool s !! Z.to_nat (nextPortIndex s) = Some port ->
  slice_to id 6 = None ->
  registerTenant id m now (Ok l) s
  = (Panicked "slice bounds out of range",
     set_nextPortIndex (fun i => i + 1) s,
     old_closing s id
     ++ [(EvListen port (Ok l), set_nextPortIndex (fun i => i + 1) s)]).
Proof.
  intros Hwf Hidx Hport Hslice.
  destruct (cursor_in_range s port Hidx Hport) as [Hle Hlt].
  unfold registerTenant.
  eapply bind_run; [reflexivity| |reflexivity].
  eapply bind_run; [by apply close_existing_run| |reflexivity].
  rewrite Hle. unfold index. rewrite Hlt, Hport, Hslice.
  unfold bind, get, put, ret, emit, panic. simpl.
  reflexivity.
Qed.

Lemma registerTenant_bind_fails (s : RelayServer) (id : string)
    (m : yamux_Session) (now : Z) (err : string) (port : Z) :
  wf s -> 0 <= nextPortIndex s ->
  portPool s !! Z.to_nat (nextPortIndex s) = Some port ->
  registerTenant id m now (Err err) s
  = (Done None, set_nextPortIndex (fun i => i + 1) s,
     old_closing s id
     ++ [(EvListen port (Err err), set_nextPortIndex (fun i => i + 1) s)]).
Proof.
  intros Hwf Hidx Hport.
  destruct (cursor_in_range s port Hidx Hport) as [Hle Hlt].
  unfold registerTenant.
  eapply bind_run; [reflexivity| |reflexivity].
  eapply bind_run; [by apply close_existing_run| |reflexivity].
  rewrite Hle. unfold index. rewrite Hlt, Hport.
  unfold bind, get, put, ret, emit. simpl.
  reflexivity.
Qed.

Lemma registerTenant_exhausted (s : RelayServer) (id : string)
    (m : yamux_Session) (now : Z) (bound : res net_Listener) :
  wf s -> Z.of_nat (length (portPool s)) <= nextPortIndex s ->
  registerTenant id m now bound s = (Done None, s, old_closing s id).
Proof.
  intros Hwf Hfull. apply Z.leb_le in Hfull. unfold registerTenant.
  eapply bind_run; [reflexivity| |reflexivity].
  eapply bind_run; [by apply close_existing_run| |by rewrite app_nil_r].
  rewrite Hfull. reflexivity.
Qed.

(** What a successful [registerTenant] stores, whatever the state. *)
Lemma registerTenant_stores (s : RelayServer) (id : string)
    (m : yamux_Session) (now : Z) (bound : res net_Listener)
    (t : nat) (T : Tenant) :
  let run := registerTenant id m now bound s in
  result run = Done (Some t) -> heap (final run) !! t = Some T ->
  ID T = id /\ SQLPassword T = generatePassword now
  /\ ControlSession T = m /\ slice_to id 6 = Some (substring 0 6 id)
  /\ SQLUser T = "tatbeeb_" +:+ substring 0 6 id.
Proof.
  unfold registerTenant, deref, closeListener, index, alloc.
  unfold bind, get, put, ret, emit, panic, result, final. simpl.
  destruct (tenants s !! id) as [e|];
    [destruct (heap s !! e) as [ex|]; [destruct (Listener ex)|]|]; simpl;
    try discriminate;
    (destruct (Z.of_nat (length (portPool s)) <=? nextPortIndex s); simpl;
     try discriminate;
     destruct (nextPortIndex s <? 0); simpl; try discriminate;
     destruct (portPool s !! Z.to_nat (nextPortIndex s)); simpl;
     try discriminate;
     destruct bound; simpl; try discriminate;
     unfold slice_to;
     destruct (6 <=? String.length id)%nat; simpl; try discriminate;
     intros [= <-]; rewrite list_lookup_middle by done;
     intros [= <-]; done).
Qed.

(** C10.  The password of a registration is "pwd_" followed by the
    decimal clock reading in seconds and nothing else: two registrations
    that succeed with the same reading get the same password, whatever the
    relay state, the tenant, the session and the listener, and two
    different readings give different passwords. *)
Theorem password_is_clock_reading
    (s1 s2 : RelayServer) (id1 id2 : string) (m1 m2 : yamux_Session)
    (now : Z) (bound1 bound2 : res net_Listener) (t1 t2 : nat)
    (T1 T2 : Tenant) :
  let run1 := registerTenant id1 m1 now bound1 s1 in
  let run2 := registerTenant id2 m2 now bound2 s2 in
  result run1 = Done (Some t1) -> heap (final run1) !! t1 = Some T1 ->
  result run2 = Done (Some t2) -> heap (final run2) !! t2 = Some T2 ->
  SQLPassword T1 = "pwd_" +:+ fmt_d now
  /\ SQLPassword T2 = SQLPassword T1
  /\ forall now', generatePassword now' = generatePassword now -> now' = now.
Proof.
  intros run1 run2 Hr1 Hh1 Hr2 Hh2.
  destruct (registerTenant_stores s1 id1 m1 now bound1 t1 T1 Hr1 Hh1)
    as (_ & Hp1 & _).
  destruct (registerTenant_stores s2 id2 m2 now bound2 t2 T2 Hr2 Hh2)
    as (_ & Hp2 & _).
  split; [exact Hp1|]. split; [congruence|].
  intros now' Heq. unfold generatePassword, fmt_d in Heq.
  apply (inj (String.append "pwd_")) in Heq.
  by apply (inj pretty) in Heq.
Qed.

Lemma password_is_clock_reading_witness :
  exists T1 T2,
    heap sample_relay !! 0%nat = Some T1
    /\ heap (final (registerTenant "tenant-002" 2%nat 1699999000 (Ok 6%nat)
                      sample_relay)) !! 1%nat = Some T2
    /\ SQLPassword T1 = "pwd_1699999000"
    /\ SQLPassword T2 = SQLPassword T1.
Proof.
  eexists _, _. split; [vm_compute; reflexivity|].
  split; [vm_compute; reflexivity|].
  pose proof (password_is_clock_reading
                (NewRelayServer sample_config Samples.secret) sample_relay
                "tenant-001" "tenant-002" 1%nat 2%nat 1699999000
                (Ok 5%nat) (Ok 6%nat) 0%nat 1%nat _ _
                ltac:(vm_compute; reflexivity) ltac:(vm_compute; reflexivity)
                ltac:(vm_compute; reflexivity) ltac:(vm_compute; reflexivity))
    as (H1 & H2 & _).
  split; [exact H1|exact H2].
Defined.

(** When [registerTenant] returns a tenant, the handler's next call is
    the write of the REGISTERED frame. *)
Lemma handler_sends_registered (lib : JWT.Lib) (c : net_Conn)
    (session : yamux_Session) (stream : net_Conn) (reg : RegisterPayload)
    (now_jwt now_pwd : Z) (bound : res net_Listener) (write_err : bool)
    (pings : nat) (s : RelayServer) (claims : JWT.JWTClaims)
    (t : nat) (T : Tenant) (s1 : RelayServer) (tr1 : @trace RelayServer) :
  JWT.VerifyJWT lib now_jwt (rq_JWT reg) (jwtSecret s) (jwtIssuer s)
    (jwtAudience s) = Ok claims ->
  JWT.Sub claims = rq_TenantID reg ->
  registerTenant (rq_TenantID reg) session now_pwd bound s
  = (Done (Some t), s1, tr1) ->
  heap s1 !! t = Some T ->
  exists tl,
    events (handleControlConnection lib c (Ok session) (Ok stream)
              (Some reg) now_jwt now_pwd bound write_err pings s)
    = tr1.*1 ++ EvWriteFrame stream (FrRegistered (response T)) :: tl.
Proof.
  intros Hjwt Hsub Hreg HT.
  unfold handleControlConnection, events.
  rewrite !defer_emit_log.
  erewrite bind_log by reflexivity.
  rewrite Hjwt. case_decide; [done|].
  erewrite bind_log by exact Hreg. cbv beta iota.
  erewrite bind_log by (apply deref_tenant; exact HT).
  erewrite bind_log by reflexivity.
  eexists. rewrite !fmap_app. simpl. rewrite <- !app_assoc. simpl.
  reflexivity.
Qed.

(** When [registerTenant] panics the handler panics too: the deferred
    closes run and nothing is written to the agent. *)
Lemma handler_panics (lib : JWT.Lib) (c : net_Conn)
    (session : yamux_Session) (stream : net_Conn) (reg : RegisterPayload)
    (now_jwt now_pwd : Z) (bound : res net_Listener) (write_err : bool)
    (pings : nat) (s : RelayServer) (claims : JWT.JWTClaims)
    (msg : string) (s1 : RelayServer) (tr1 : @trace RelayServer) :
  JWT.VerifyJWT lib now_jwt (rq_JWT reg) (jwtSecret s) (jwtIssuer s)
    (jwtAudience s) = Ok claims ->
  JWT.Sub claims = rq_TenantID reg ->
  registerTenant (rq_TenantID reg) session now_pwd bound s
  = (Panicked msg, s1, tr1) ->
  handleControlConnection lib c (Ok session) (Ok stream) (Some reg)
    now_jwt now_pwd bound write_err pings s
  = (Panicked msg, s1,
     tr1 ++ [(EvCloseConn stream, s1); (EvCloseSession session, s1);
             (EvCloseConn c, s1)]).
Proof.
  intros Hjwt Hsub Hreg.
  unfold handleControlConnection, defer, emit. simpl.
  unfold bind at 1. simpl. rewrite Hjwt.
  case_decide; [done|].
  unfold bind at 1. rewrite Hreg. simpl.
  rewrite <- !app_assoc. reflexivity.
Qed.

(** C1, as amended.  A REGISTER for a tenant that is already registered
    closes the previous listener while the previous entry is still in the
    registry, then takes the next port of the pool, binds it and replaces
    the registry entry by the new session; the REGISTERED frame is written
    after that.  The cursor of the pool moves on by one and the previous
    port is not given back. *)
Theorem reregistration_replaces (lib : JWT.Lib) (s : RelayServer)
    (c : net_Conn) (session : yamux_Session) (stream : net_Conn)
    (reg : RegisterPayload) (now_jwt now_pwd : Z) (l_new : net_Listener)
    (write_err : bool) (pings : nat) (claims : JWT.JWTClaims)
    (e : nat) (existing : Tenant) (l_old : net_Listener) (port : Z)
    (prefix : string) :
  wf s ->
  JWT.VerifyJWT lib now_jwt (rq_JWT reg) (jwtSecret s) (jwtIssuer s)
    (jwtAudience s) = Ok claims ->
  JWT.Sub claims = rq_TenantID reg ->
  tenants s !! rq_TenantID reg = Some e ->
  heap s !! e = Some existing ->
  Listener existing = Some l_old ->
  0 <= nextPortIndex s ->
  portPool s !! Z.to_nat (nextPortIndex s) = Some port ->
  slice_to (rq_TenantID reg) 6 = Some prefix ->
  let id := rq_TenantID reg in
  let T := registered id port prefix now_pwd session l_new in
  let reg_run := registerTenant id session now_pwd (Ok l_new) s in
  let run := handleControlConnection lib c (Ok session) (Ok stream)
               (Some reg) now_jwt now_pwd (Ok l_new) write_err pings s in
  result reg_run = Done (Some (length (heap s)))
  /\ log reg_run
     = [(EvCloseListener l_old, s);
        (EvListen port (Ok l_new), set_nextPortIndex (fun i => i + 1) s)]
  /\ tenants (final reg_run) = <[id := length (heap s)]> (tenants s)
  /\ heap (final reg_run) = heap s ++ [T]
  /\ nextPortIndex (final reg_run) = nextPortIndex s + 1
  /\ portPool (final reg_run) = portPool s
  /\ exists tl,
       events run
       = EvCloseListener l_old :: EvListen port (Ok l_new)
         :: EvWriteFrame stream (FrRegistered (response T)) :: tl.
Proof.
  intros Hwf Hjwt Hsub He Hex Hold Hidx Hport Hslice id T reg_run run.
  pose proof (registerTenant_ok s id session now_pwd l_new port prefix
                Hwf Hidx Hport Hslice) as Hreg.
  assert (old_closing s id = [(EvCloseListener l_old, s)]) as Hclose.
  { unfold old_closing, id. by rewrite He, Hex, Hold. }
  rewrite Hclose in Hreg.
  subst reg_run. rewrite Hreg. unfold result, final, log. simpl.
  do 6 (split; [reflexivity|]).
  destruct (handler_sends_registered lib c session stream reg now_jwt
              now_pwd (Ok l_new) write_err pings s claims _ T _ _
              Hjwt Hsub Hreg) as [tl Htl].
  { simpl. by apply list_lookup_middle. }
  exists tl. exact Htl.
Qed.

Lemma sample_relay_wf : wf sample_relay.
Proof. unfold wf. apply (bool_decide_unpack _). vm_compute. exact I. Qed.

Lemma reregistration_replaces_witness :
  let reg_run := registerTenant "tenant-001" 2%nat 1700000000 (Ok 6%nat)
                   sample_relay in
  log reg_run
  = [(EvCloseListener 5%nat, sample_relay);
     (EvListen 50001 (Ok 6%nat),
      set_nextPortIndex (fun i => i + 1) sample_relay)]
  /\ tenants (final reg_run) !! "tenant-001" = Some 1%nat
  /\ nextPortIndex (final reg_run) = 2.
Proof.
  pose proof (reregistration_replaces Samples.lib sample_relay 7%nat 2%nat
                8%nat sample_request 1700000000 1700000000 6%nat false
                0%nat (Samples.parsed Samples.expiring) 0%nat
                (registered "tenant-001" 50000 "tenant" 1699999000 1%nat
                   5%nat)
                5%nat 50001 "tenant" sample_relay_wf
                ltac:(vm_compute; reflexivity) ltac:(vm_compute; reflexivity)
                ltac:(vm_compute; reflexivity) ltac:(vm_compute; reflexivity)
                ltac:(vm_compute; reflexivity) ltac:(vm_compute; discriminate)
                ltac:(vm_compute; reflexivity) ltac:(vm_compute; reflexivity))
    as (_ & Hlog & Hten & _ & Hidx & _).
  split; [exact Hlog|]. split.
  - etrans; [exact (f_equal (fun m => m !! "tenant-001") Hten)|].
    apply lookup_insert_eq.
  - exact Hidx.
Defined.

(** C1 as stated fails: on a second REGISTER of tenant-001 the handler
    runs to the end of its first ping without ever closing the first
    session (session 1), and port 50000 of the first session is not among
    the ports a later registration can get. *)
Lemma reregistration_keeps_session_and_port :
  let run := handleControlConnection Samples.lib 7%nat (Ok 2%nat)
               (Ok 8%nat) (Some sample_request) 1700000000 1700000000
               (Ok 6%nat) false 0 sample_relay in
  result run = Done tt
  /\ 50000 ∈ unassigned (NewRelayServer sample_config Samples.secret)
  /\ (EvCloseSession 1%nat ∉ events run)
  /\ (50000 ∉ unassigned (final run))
  /\ available_ports (final run) = 0.
Proof.
  intros run.
  assert (exists e1 e2 e3 e4 e5 e6 e7 e8,
    events run = [EvCloseListener 5%nat; e1; EvWriteFrame 8%nat e2;
                  EvGo e3; EvGo e4; EvGo e5; EvWriteFrame 8%nat e6;
                  EvCloseListener e7; EvCloseConn 8%nat;
                  EvCloseSession 2%nat; EvCloseConn e8]
    /\ e1 = EvListen 50001 (Ok 6%nat)) as (e1&e2&e3&e4&e5&e6&e7&e8&E&->).
  { do 8 eexists. split; vm_compute; reflexivity. }
  split; [vm_compute; reflexivity|].
  split; [apply (bool_decide_unpack _); vm_compute; exact I|].
  split; [|split; [apply (bool_decide_unpack _); vm_compute; exact I
                  |vm_compute; reflexivity]].
  rewrite E. intros H.
  repeat (apply elem_of_cons in H as [H|H]; [discriminate|]).
  by apply elem_of_nil in H.
Qed.

Lemma slice_to_long (id : string) :
  (6 <= String.length id)%nat -> slice_to id 6 = Some (substring 0 6 id).
Proof.
  intros H. unfold slice_to. apply Nat.leb_le in H. by rewrite H.
Qed.

Lemma slice_to_short (id : string) :
  (String.length id < 6)%nat -> slice_to id 6 = None.
Proof.
  intros H. unfold slice_to. apply Nat.leb_gt in H. by rewrite H.
Qed.

(** C9.  With a port to give and a listener bound, [registerTenant]
    computes the SQL user from the first six bytes of the tenant id when
    the id has at least six bytes; when it has fewer the slice is out of
    bounds, [registerTenant] panics after taking the port, and the handler
    panics with it without writing an ERROR frame. *)
Theorem tenant_id_slice (lib : JWT.Lib) (s : RelayServer) (c : net_Conn)
    (session : yamux_Session) (stream : net_Conn) (reg : RegisterPayload)
    (now_jwt now_pwd : Z) (l : net_Listener) (write_err : bool)
    (pings : nat) (claims : JWT.JWTClaims) (port : Z) :
  wf s ->
  JWT.VerifyJWT lib now_jwt (rq_JWT reg) (jwtSecret s) (jwtIssuer s)
    (jwtAudience s) = Ok claims ->
  JWT.Sub claims = rq_TenantID reg ->
  0 <= nextPortIndex s ->
  portPool s !! Z.to_nat (nextPortIndex s) = Some port ->
  let id := rq_TenantID reg in
  let reg_run := registerTenant id session now_pwd (Ok l) s in
  let run := handleControlConnection lib c (Ok session) (Ok stream)
               (Some reg) now_jwt now_pwd (Ok l) write_err pings s in
  ((6 <= String.length id)%nat ->
     result reg_run = Done (Some (length (heap s)))
     /\ exists T, heap (final reg_run) !! length (heap s) = Some T
                  /\ SQLUser T = "tatbeeb_" +:+ substring 0 6 id)
  /\ ((String.length id < 6)%nat ->
        result reg_run = Panicked "slice bounds out of range"
        /\ nextPortIndex (final reg_run) = nextPortIndex s + 1
        /\ result run = Panicked "slice bounds out of range"
        /\ forall code message,
             EvWriteFrame stream (FrError code message) ∉ events run).
Proof.
  intros Hwf Hjwt Hsub Hidx Hport id reg_run run. split.
  - intros Hlong. subst reg_run.
    rewrite (registerTenant_ok s id session now_pwd l port _
               Hwf Hidx Hport (slice_to_long id Hlong)).
    split; [reflexivity|]. eexists. split.
    + unfold final. simpl. by apply list_lookup_middle.
    + reflexivity.
  - intros Hshort.
    pose proof (registerTenant_panics s id session now_pwd l port
                  Hwf Hidx Hport (slice_to_short id Hshort)) as Hreg.
    subst reg_run run. rewrite Hreg.
    rewrite (handler_panics lib c session stream reg now_jwt now_pwd
               (Ok l) write_err pings s claims _ _ _ Hjwt Hsub Hreg).
    unfold result, final, events, log. simpl.
    do 3 (split; [reflexivity|]).
    intros code message Hin. rewrite fmap_app in Hin.
    apply elem_of_app in Hin as [Hin|Hin].
    + rewrite fmap_app in Hin. apply elem_of_app in Hin as [Hin|Hin].
      * unfold old_closing in Hin.
        destruct (tenants s !! id) as [e|]; [|by apply elem_of_nil in Hin].
        destruct (heap s !! e) as [ex|]; [|by apply elem_of_nil in Hin].
        destruct (Listener ex); [|by apply elem_of_nil in Hin].
        apply list_elem_of_singleton in Hin. discriminate.
      * apply list_elem_of_singleton in Hin. discriminate.
    + simpl in Hin.
      repeat (apply elem_of_cons in Hin as [Hin|Hin]; [discriminate|]).
      by apply elem_of_nil in Hin.
Qed.

Lemma tenant_id_slice_witness :
  let s := NewRelayServer sample_config Samples.secret in
  let reg := {| rq_TenantID := "abc";
                rq_JWT := Samples.token Samples.short;
                rq_Version := "1.0.0" |} in
  let run := handleControlConnection Samples.lib 7%nat (Ok 1%nat)
               (Ok 8%nat) (Some reg) 1700000000 1700000000 (Ok 5%nat)
               false 0 s in
  result run = Panicked "slice bounds out of range"
  /\ forall code message,
       EvWriteFrame 8%nat (FrError code message) ∉ events run.
Proof.
  assert (wf (NewRelayServer sample_config Samples.secret)) as Hwf
    by (unfold wf; apply (bool_decide_unpack _); vm_compute; exact I).
  pose proof (tenant_id_slice Samples.lib
                (NewRelayServer sample_config Samples.secret) 7%nat 1%nat
                8%nat
                {| rq_TenantID := "abc";
                   rq_JWT := Samples.token Samples.short;
                   rq_Version := "1.0.0" |}
                1700000000 1700000000 5%nat false 0
                (Samples.parsed Samples.short) 50000 Hwf
                ltac:(vm_compute; reflexivity) ltac:(vm_compute; reflexivity)
                ltac:(vm_compute; discriminate)
                ltac:(vm_compute; reflexivity)) as [_ Hshort].
  destruct Hshort as (_ & _ & Hres & Hframes).
  - vm_compute. lia.
  - split; [exact Hres|exact Hframes].
Defined.

Lemma accept_run (s : RelayServer) (tenant : nat) (t : Tenant)
    (c : net_Conn) :
  heap s !! tenant = Some t ->
  acceptTenantConnections_accept tenant c s
  = if MaxConnectionsPerTenant (config s) <=? ActiveConns t
    then (Done tt, s, [(EvCloseConn c, s)])
    else
      let s' := set_heap (<[tenant := set_ActiveConns (fun n => n + 1) t]>) s in
      (Done tt, s', [(EvGo (TForward c (ControlSession t)), s')]).
Proof.
  intros Ht. unfold acceptTenantConnections_accept.
  destruct (MaxConnectionsPerTenant (config s) <=? ActiveConns t) eqn:E.
  - eapply bind_run; [reflexivity| |reflexivity].
    eapply bind_run; [by apply deref_tenant| |reflexivity].
    rewrite E. reflexivity.
  - eapply bind_run; [reflexivity| |reflexivity].
    eapply bind_run; [by apply deref_tenant| |reflexivity].
    rewrite E.
    eapply bind_run.
    { unfold update.
      eapply bind_run; [by apply deref_tenant|reflexivity|reflexivity]. }
    { reflexivity. }
    reflexivity.
Qed.

(** With a positive cap the accept loop forwards clients until the cap is
    reached and closes every later one, as long as no forwarder ends. *)
Lemma cap_enforced (conns : list net_Conn) (s : RelayServer) (tenant : nat)
    (t : Tenant) :
  heap s !! tenant = Some t ->
  0 <= ActiveConns t <= MaxConnectionsPerTenant (config s) ->
  let room := Z.to_nat (MaxConnectionsPerTenant (config s) - ActiveConns t) in
  let run := for_each conns (acceptTenantConnections_accept tenant) s in
  result run = Done tt
  /\ events run
     = ((fun c => EvGo (TForward c (ControlSession t))) <$> take room conns)
       ++ (EvCloseConn <$> drop room conns).
Proof.
  revert s t. induction conns as [|c conns IH]; intros s t Ht Hcap.
  - simpl. split; [reflexivity|]. by rewrite take_nil, drop_nil.
  - simpl. pose proof (accept_run s tenant t c Ht) as E.
    destruct (Z.leb_spec (MaxConnectionsPerTenant (config s)) (ActiveConns t))
      as [Hfull|Hroom].
    + destruct (IH s t Ht Hcap) as [Hres Hev].
      rewrite (bind_done _ _ _ _ _ _ E).
      unfold result, events, log in *. simpl in *.
      split; [exact Hres|].
      etrans; [exact (f_equal (cons _) Hev)|].
      replace (Z.to_nat (MaxConnectionsPerTenant (config s) - ActiveConns t))
        with 0%nat by lia.
      by rewrite !take_0, !drop_0.
    + simpl in E.
      set (t' := set_ActiveConns (fun n => n + 1) t) in *.
      set (s' := set_heap (<[tenant := t']>) s) in *.
      destruct (IH s' t') as [Hres Hev].
      { simpl. apply list_lookup_insert_eq. by eapply lookup_lt_Some. }
      { simpl. lia. }
      rewrite (bind_done _ _ _ _ _ _ E).
      unfold result, events, log in *. simpl in *.
      split; [exact Hres|].
      etrans; [exact (f_equal (cons _) Hev)|].
      replace (Z.to_nat (MaxConnectionsPerTenant (config s) - ActiveConns t))
        with (S (Z.to_nat (MaxConnectionsPerTenant (config s)
                           - (ActiveConns t + 1)))) by lia.
      reflexivity.
Qed.

(** C4, on the input where the code departs from it.  With
    [MaxConnectionsPerTenant] equal to 0 the accept loop closes every
    client it accepts and starts no forwarder: the relay value does not
    change and no stream is opened. *)
Theorem zero_cap_closes_every_client (conns : list net_Conn)
    (s : RelayServer) (tenant : nat) (t : Tenant) :
  heap s !! tenant = Some t ->
  MaxConnectionsPerTenant (config s) = 0 ->
  0 <= ActiveConns t ->
  for_each conns (acceptTenantConnections_accept tenant) s
  = (Done tt, s, (fun c => (EvCloseConn c, s)) <$> conns).
Proof.
  intros Ht Hzero Hact. induction conns as [|c conns IH]; [reflexivity|].
  simpl. eapply bind_run.
  { rewrite (accept_run s tenant t c Ht), Hzero.
    apply Z.leb_le in Hact. rewrite Hact. reflexivity. }
  { exact IH. }
  reflexivity.
Qed.

Lemma zero_cap_closes_every_client_witness :
  for_each [9%nat; 10%nat] (acceptTenantConnections_accept 0) sample_relay
  = (Done tt, sample_relay,
     [(EvCloseConn 9%nat, sample_relay); (EvCloseConn 10%nat, sample_relay)]).
Proof.
  apply (zero_cap_closes_every_client [9%nat; 10%nat] sample_relay 0%nat
           (registered "tenant-001" 50000 "tenant" 1699999000 1%nat 5%nat)).
  - vm_compute. reflexivity.
  - vm_compute. reflexivity.
  - vm_compute. discriminate.
Defined.

(** C2 as stated fails on main.go: after [unregisterTenant] has closed
    the listener of tenant-001 and removed the tenant, its port 50000 is
    not among the ports a later registration can get, and the next
    registration is given 50001. *)
Lemma unregister_keeps_port :
  let run := unregisterTenant "tenant-001" sample_relay in
  let next := registerTenant "tenant-002" 2%nat 1700000000 (Ok 6%nat)
                (final run) in
  result run = Done tt
  /\ events run = [EvCloseListener 5%nat]
  /\ tenants (final run) !! "tenant-001" = None
  /\ (50000 ∉ unassigned (final run))
  /\ available_ports (final run) = available_ports sample_relay
  /\ events next = [EvListen 50001 (Ok 6%nat)].
Proof.
  repeat split; try (vm_compute; reflexivity).
  apply (bool_decide_unpack _). vm_compute. exact I.
Qed.

(** C3 as stated fails on main.go and on the simple draft: a handshake
    whose listener cannot be bound, and one whose OK line cannot be
    written, register nothing and leave one port fewer to give. *)
Lemma failed_handshake_loses_port :
  let s := NewRelayServer sample_config Samples.secret in
  let run := handleControlConnection Samples.lib 7%nat (Ok 1%nat)
               (Ok 8%nat) (Some sample_request) 1700000000 1700000000
               (Err "address already in use") false 0 s in
  let s' := Simple.NewSimpleRelay 50000 50001 in
  let run' := Simple.handleConnection 7%nat ("REGISTER" +:+ LF) true
                (Ok 1%nat) (Ok 5%nat) [] s' in
  (result run = Done tt
   /\ tenants (final run) = tenants s
   /\ available_ports s = 2
   /\ available_ports (final run) = 1)
  /\ (result run' = Done tt
      /\ Simple.tenants (final run') = Simple.tenants s'
      /\ Simple.free_count s' = 2
      /\ Simple.free_count (final run') = 1).
Proof. repeat split; vm_compute; reflexivity. Qed.
End MuxFacts.

(** ** Composition of handlers *)

Section Preservation.
Context {St : Type} (R : St -> St -> Prop).
Context (R_refl : forall s, R s s).
Context (R_trans : forall s1 s2 s3, R s1 s2 -> R s2 s3 -> R s1 s3).

Lemma preserves_ret {A} (a : A) : preserves R (ret a).
Proof. intros s. apply R_refl. Qed.

Lemma preserves_get : preserves R get.
Proof. intros s. apply R_refl. Qed.

Lemma preserves_emit (e : Event) : preserves R (emit e).
Proof. intros s. apply R_refl. Qed.

Lemma preserves_panic {A} (msg : string) : preserves R (@panic St A msg).
Proof. intros s. apply R_refl. Qed.

Lemma preserves_bind {A B} (m : @M St A) (k : A -> @M St B) :
  preserves R m -> (forall a, preserves R (k a)) -> preserves R (bind m k).
Proof.
  intros Hm Hk s. specialize (Hm s). unfold bind, final in *.
  destruct (m s) as [[[a|msg] s1] t1]; simpl in *; [|exact Hm].
  specialize (Hk a s1). unfold final in Hk.
  destruct (k a s1) as [[r s2] t2]. simpl in *. eauto.
Qed.

Lemma preserves_defer {A} (d : @M St unit) (body : @M St A) :
  preserves R d -> preserves R body -> preserves R (defer d body).
Proof.
  intros Hd Hb s. specialize (Hb s). unfold defer, final in *.
  destruct (body s) as [[r s1] t1]. simpl in *.
  specialize (Hd s1). unfold final in Hd.
  destruct (d s1) as [[[u|msg] s2] t2]; simpl in *; eauto.
Qed.

Lemma preserves_for_each {A} (l : list A) (f : A -> @M St unit) :
  (forall x, preserves R (f x)) -> preserves R (for_each l f).
Proof.
  intros Hf. induction l as [|x l IH]; simpl.
  - apply preserves_ret.
  - apply preserves_bind; [apply Hf|intros _; exact IH].
Qed.

Lemma preserves_fold_each {A B} (l : list A) (f : B -> A -> @M St B) (b : B) :
  (forall b x, preserves R (f b x)) -> preserves R (fold_each l f b).
Proof.
  intros Hf. revert b. induction l as [|x l IH]; intros b; simpl.
  - apply preserves_ret.
  - apply preserves_bind; [apply Hf|intros b1; apply IH].
Qed.
End Preservation.

Lemma defer_run {St A} (d : @M St unit) (body : @M St A) (s s1 s2 : St)
    (r : outcome A) (t1 t2 : @trace St) :
  body s = (r, s1, t1) -> d s1 = (Done tt, s2, t2) ->
  defer d body s = (r, s2, t1 ++ t2).
Proof. intros Hb Hd. unfold defer. by rewrite Hb, Hd. Qed.

Lemma defer_run_eq {St A} (d : @M St unit) (body : @M St A) (s s1 s2 : St)
    (r : outcome A) (t1 t2 t : @trace St) :
  body s = (r, s1, t1) -> d s1 = (Done tt, s2, t2) -> t = t1 ++ t2 ->
  defer d body s = (r, s2, t).
Proof. intros Hb Hd ->. by apply (defer_run d body s s1 s2). Qed.

(** ** The heartbeat draft: bookkeeping of ports *)

Section HeartbeatInvariant.
Import Heartbeat.

Lemma evolves_refl (r : RelayServer) : evolves r r.
Proof. by intros H. Qed.

Lemma evolves_trans (r1 r2 r3 : RelayServer) :
  evolves r1 r2 -> evolves r2 r3 -> evolves r1 r3.
Proof.
  intros H12 H23 H1. destruct (H12 H1) as [H2 E2].
  destruct (H23 H2) as [H3 E3]. split; [done|congruence].
Qed.

Lemma initPorts_elem (start stop x : Z) :
  x ∈ initPorts start stop <-> start <= x <= stop.
Proof.
  unfold initPorts. rewrite list_elem_of_fmap. split.
  - intros (i & -> & Hi). apply elem_of_seq in Hi. lia.
  - intros Hx. exists (Z.to_nat (x - start)). split; [lia|].
    apply elem_of_seq. lia.
Qed.

Lemma initPorts_NoDup (start stop : Z) : NoDup (initPorts start stop).
Proof.
  unfold initPorts. apply NoDup_fmap_2; [|apply NoDup_seq].
  intros i j Hij. lia.
Qed.

Lemma initPorts_length (start stop : Z) :
  length (initPorts start stop) = Z.to_nat (stop - start + 1).
Proof. unfold initPorts. by rewrite length_fmap, length_seq. Qed.

Lemma newRelay_inv (start stop : Z) : 0 < start -> pool_inv (newRelay start stop).
Proof.
  intros Hpos. unfold pool_inv, wf. simpl. split; [apply map_Forall_empty|].
  split; [apply initPorts_NoDup|]. split.
  { intros H%initPorts_elem. lia. }
  split; [apply lookup_empty|]. split; [intros; apply lookup_empty|].
  intros port p a H. by rewrite lookup_empty in H.
Qed.

Lemma owned_cleaned (r : RelayServer) (port : Z) :
  is_Some (agents r !! port) -> owned (cleaned port r) = owned r.
Proof.
  intros Hp. unfold owned. simpl.
  rewrite list_to_set_app_L, dom_delete_L. simpl.
  apply elem_of_dom in Hp. apply set_eq. intros x.
  rewrite !elem_of_union, elem_of_difference, !elem_of_singleton,
    elem_of_empty.
  destruct (decide (x = port)) as [->|Hne]; [|tauto].
  split; [|tauto]. intros _. by right.
Qed.

Lemma cleanupAgent_evolves (port : Z) : preserves evolves (cleanupAgent port).
Proof.
  intros r Hinv. pose proof Hinv as (Hwf & Hnd & H0 & Ha0 & Hdis & Hcons).
  destruct (agents r !! port) as [p|] eqn:Hp.
  - destruct (Hwf port p Hp) as [a Ha].
    rewrite (cleanupAgent_Some r port p a Hp Ha). unfold final. simpl.
    split; [|apply owned_cleaned; by rewrite Hp].
    assert (port <> 0) as Hport by (intros ->; congruence).
    assert (port ∉ availablePorts r) as Hfree.
    { intros Hin. apply Hdis in Hin. congruence. }
    split; [by apply wf_cleaned|]. simpl. split.
    { apply NoDup_app. split; [done|]. split; [|apply NoDup_singleton].
      intros x Hx ->%list_elem_of_singleton. done. }
    split.
    { intros [?|Heq%list_elem_of_singleton]%elem_of_app; [done|congruence]. }
    split; [by apply lookup_delete_None; right|]. split.
    { intros x [Hx| ->%list_elem_of_singleton]%elem_of_app.
      - apply lookup_delete_None. right. by apply Hdis.
      - apply lookup_delete_eq. }
    intros k q b [_ Hk]%lookup_delete_Some Hq. by apply (Hcons k q b).
  - rewrite (cleanupAgent_None r port Hp). unfold final. simpl.
    assert (set_agents (delete port) r = r) as ->; [|done].
    destruct r as [ag hp av]. unfold set_agents. simpl in *.
    by rewrite delete_id.
Qed.

Lemma heartbeat_evolves (agent : nat) (line : string) (now : Z) :
  preserves evolves (handleAgent_heartbeat agent line now).
Proof.
  intros r Hinv. pose proof Hinv as (Hwf & Hnd & H0 & Ha0 & Hdis & Hcons).
  unfold handleAgent_heartbeat.
  destruct (decide (TrimSpace line = "HEARTBEAT")) as [Hl|Hl]; [|done].
  destruct (heap r !! agent) as [a|] eqn:Ha.
  - unfold update. rewrite (bind_done _ _ _ _ _ _ (deref_ok r agent a Ha)).
    unfold final. simpl. split; [|done].
    split; [by apply wf_set_heap|]. simpl. do 4 (split; [done|]).
    intros k q b Hk Hq.
    destruct (decide (q = agent)) as [->|Hne].
    + rewrite list_lookup_insert_eq in Hq by (by eapply lookup_lt_Some).
      injection Hq as <-. simpl. by apply (Hcons k agent a).
    + rewrite list_lookup_insert_ne in Hq by done. by apply (Hcons k q b).
  - unfold update, deref, bind, get, panic, final. simpl. rewrite Ha. done.
Qed.

Lemma staleScan_final (now : Z) (r : RelayServer) :
  final (staleScan now r) = r.
Proof.
  unfold staleScan. rewrite (bind_done _ _ _ _ _ _ eq_refl).
  unfold final at 1. simpl.
  apply (preserves_fold_each (fun s s' => s' = s)); [done|congruence|].
  intros ports e s. unfold deref, bind, get, ret, panic, final. simpl.
  by destruct (heap s !! e.2).
Qed.

Lemma tick_evolves (now : Z) : preserves evolves (heartbeatChecker_tick now).
Proof.
  intros r. unfold heartbeatChecker_tick.
  apply (preserves_bind evolves evolves_trans).
  - intros s. rewrite staleScan_final. apply evolves_refl.
  - intros ports. apply (preserves_for_each evolves evolves_refl evolves_trans).
    apply cleanupAgent_evolves.
Qed.

Lemma register_bind_err (r : RelayServer) (c : net_Conn) (line : string)
    (now : Z) (err : string) (write_err : bool) (port : Z) (rest : list Z) :
  TrimSpace line = "REGISTER" -> availablePorts r = port :: rest ->
  port <> 0 ->
  handleAgent_register c (Some line) now (Err err) write_err r
  = (Done None,
     {| agents := agents r;
        heap := heap r ++ [{| conn := Some c; assignedPort := port;
                              listener := None; lastHeartbeat := now |}];
        availablePorts := rest ++ [port] |},
     [(EvListen port (Err err),
       {| agents := agents r;
          heap := heap r ++ [{| conn := Some c; assignedPort := port;
                                listener := None; lastHeartbeat := now |}];
          availablePorts := rest |});
      (EvWrite c ("ERROR failed to bind port: " +:+ err +:+ LF),
       {| agents := agents r;
          heap := heap r ++ [{| conn := Some c; assignedPort := port;
                                listener := None; lastHeartbeat := now |}];
          availablePorts := rest ++ [port] |})]).
Proof.
  intros Hline Hav Hport. destruct r as [ag hp av]. simpl in *. subst av.
  unfold handleAgent_register. rewrite Hline. case_decide; [done|].
  unfold releasePort, assignPort, alloc.
  unfold bind, get, put, ret, emit,
    set_availablePorts, set_heap, set_agents. simpl.
  case_decide; [done|]. reflexivity.
Qed.

(** The bookkeeping after a handshake that took [port] from the head of
    the pool and either gave it back at the tail or registered it. *)
Lemma inv_after_handshake (r r' : RelayServer) (port : Z) (rest : list Z)
    (a : Agent) (registered : bool) :
  pool_inv r -> availablePorts r = port :: rest ->
  heap r' = heap r ++ [a] -> assignedPort a = port ->
  (if registered
   then agents r' = <[port := length (heap r)]> (agents r)
        /\ availablePorts r' = rest /\ is_Some (listener a)
   else agents r' = agents r /\ availablePorts r' = rest ++ [port]) ->
  pool_inv r' /\ owned r' = owned r.
Proof.
  intros (Hwf & Hnd & H0 & Ha0 & Hdis & Hcons) Hav Hheap Hap Hcase.
  rewrite Hav in Hnd, H0, Hdis. apply NoDup_cons in Hnd as [Hfresh Hnd].
  assert (port <> 0) as Hport.
  { intros ->. apply H0. apply elem_of_cons. by left. }
  assert (forall k q, agents r !! k = Some q -> heap r' !! q = heap r !! q)
    as Hold.
  { intros k q Hk. rewrite Hheap. apply lookup_app_l.
    apply lookup_lt_is_Some. exact (Hwf k q Hk). }
  unfold pool_inv, wf, owned. rewrite Hav. destruct registered.
  - destruct Hcase as (Hag & Hav' & Hl). rewrite Hag, Hav'. split.
    + split.
      { intros k q [[-> <-]|[Hne Hk]]%lookup_insert_Some.
        - rewrite Hheap. exists a. by apply list_lookup_middle.
        - rewrite (Hold k q Hk). exact (Hwf k q Hk). }
      split; [done|]. split.
      { intros Hin. apply H0. apply elem_of_cons. by right. }
      split; [by rewrite lookup_insert_ne|]. split.
      { intros x Hx. rewrite lookup_insert_ne by (intros ->; done).
        apply Hdis. apply elem_of_cons. by right. }
      intros k q b [[-> <-]|[Hne Hk]]%lookup_insert_Some Hq.
      * rewrite Hheap, list_lookup_middle in Hq by done.
        injection Hq as <-. done.
      * rewrite (Hold k q Hk) in Hq. by apply (Hcons k q b).
    + rewrite dom_insert_L, list_to_set_cons.
      apply set_eq. intros x.
      rewrite !elem_of_union, !elem_of_singleton. tauto.
  - destruct Hcase as (Hag & Hav'). rewrite Hag, Hav'. split.
    + split.
      { intros k q Hk. rewrite (Hold k q Hk). exact (Hwf k q Hk). }
      split.
      { apply NoDup_app. split; [done|]. split; [|apply NoDup_singleton].
        intros x Hx Heq%list_elem_of_singleton. congruence. }
      split.
      { intros [Hin|Heq%list_elem_of_singleton]%elem_of_app; [|congruence].
        apply H0. apply elem_of_cons. by right. }
      split; [done|]. split.
      { intros x [Hx|Heq%list_elem_of_singleton]%elem_of_app;
          apply Hdis, elem_of_cons; [by right|by left]. }
      intros k q b Hk Hq. rewrite (Hold k q Hk) in Hq. by apply (Hcons k q b).
    + rewrite list_to_set_app_L, list_to_set_cons. simpl.
      apply set_eq. intros x.
      rewrite !elem_of_union, !elem_of_singleton, elem_of_empty. tauto.
Qed.

Lemma register_evolves (c : net_Conn) (first : option string) (now : Z)
    (bound : res net_Listener) (write_err : bool) :
  preserves evolves (handleAgent_register c first now bound write_err).
Proof.
  intros r Hinv. pose proof Hinv as (Hwf & Hnd & H0 & Ha0 & Hdis & Hcons).
  destruct first as [line|]; [|done].
  destruct (decide (TrimSpace line = "REGISTER")) as [Hline|Hline].
  2:{ unfold handleAgent_register. by rewrite decide_True by done. }
  destruct (availablePorts r) as [|port rest] eqn:Hav.
  { unfold handleAgent_register, assignPort.
    rewrite Hline. case_decide; [done|].
    unfold bind, get, ret, emit, final. simpl. by rewrite Hav. }
  assert (port <> 0) as Hport.
  { intros ->. apply H0. apply elem_of_cons. by left. }
  destruct bound as [l|err].
  - destruct write_err.
    + destruct (register_write_err r c line now l port rest Hline Hav Hport)
        as (r1 & tr & E & Hag & Hav1 & _).
      rewrite E. unfold final. simpl.
      assert (exists a, heap r1 = heap r ++ [a] /\ assignedPort a = port)
        as (a & Hheap & Hap).
      { revert E. destruct r as [ag hp av]. simpl in *. subst av.
        unfold handleAgent_register. rewrite Hline. case_decide; [done|].
        unfold cleanupAgent, releasePort, closeListener, closeConn,
          assignPort, alloc, update, deref.
        unfold bind, get, put, ret, emit,
          set_availablePorts, set_heap, set_agents. simpl.
        case_decide; [done|]. simpl.
        rewrite list_lookup_middle by done. simpl.
        rewrite (insert_app_r_alt hp) by done. rewrite Nat.sub_diag. simpl.
        rewrite lookup_insert_eq. simpl.
        rewrite list_lookup_middle by done. simpl.
        intros [= <-]. eexists. split; reflexivity. }
      apply (inv_after_handshake r r1 port rest a false Hinv Hav Hheap Hap).
      split; [|done]. rewrite Hag. apply delete_id, Hdis.
      apply elem_of_cons. by left.
    + destruct (register_ok r c line now l port rest Hline Hav Hport)
        as (tr & E & _).
      rewrite E. unfold final. simpl.
      by eapply (inv_after_handshake r _ port rest _ true Hinv Hav).
  - rewrite (register_bind_err r c line now err write_err port rest
               Hline Hav Hport).
    unfold final. simpl.
    by eapply (inv_after_handshake r _ port rest _ false Hinv Hav).
Qed.

Lemma step_evolves (r r' : RelayServer) : step r r' -> evolves r r'.
Proof.
  intros [c first now bound write_err s|agent line now s|port s|now s].
  - apply register_evolves.
  - apply heartbeat_evolves.
  - apply cleanupAgent_evolves.
  - apply tick_evolves.
Qed.

Lemma reachable_inv (start stop : Z) (r : RelayServer) :
  0 < start -> reachable start stop r ->
  pool_inv r /\ owned r = list_to_set (initPorts start stop).
Proof.
  intros Hpos Hr. induction Hr as [|r r' Hr [IH Eown] Hstep].
  - split; [by apply newRelay_inv|]. unfold owned. simpl.
    rewrite dom_empty_L. apply (right_id_L ∅ (∪)).
  - destruct (step_evolves r r' Hstep IH) as [Hinv E]. split; [done|congruence].
Qed.

Lemma one_agent_reachable : reachable 50000 50001 one_agent.
Proof.
  apply reach_step with (newRelay 50000 50001);
    [apply reach_init|apply step_register].
Qed.

(** X1.  After any sequence of handshakes, heartbeat lines, cleanups and
    checker ticks, each run to its end, on a heartbeat relay started on a
    range above port 0, the ports of the range are exactly the free and
    the registered ones, and no port is free twice or both free and
    registered. *)
Theorem ports_free_or_registered (start stop : Z) (r : RelayServer) :
  0 < start -> reachable start stop r ->
  NoDup (availablePorts r)
  /\ (forall port, port ∈ availablePorts r -> agents r !! port = None)
  /\ (forall port,
        port ∈ availablePorts r \/ is_Some (agents r !! port)
        <-> start <= port <= stop).
Proof.
  intros Hpos Hr.
  destruct (reachable_inv start stop r Hpos Hr)
    as [(_ & Hnd & _ & _ & Hdis & _) Hown].
  split; [done|]. split; [done|]. intros port. split.
  - intros H. apply initPorts_elem.
    apply (elem_of_list_to_set (C := gset Z)). rewrite <- Hown.
    unfold owned. apply elem_of_union. destruct H as [H|H].
    + left. by apply elem_of_list_to_set.
    + right. by apply elem_of_dom.
  - intros H%initPorts_elem.
    apply (elem_of_list_to_set (C := gset Z)) in H. rewrite <- Hown in H.
    unfold owned in H. apply elem_of_union in H as [H|H].
    + left. by apply elem_of_list_to_set in H.
    + right. by apply elem_of_dom in H.
Qed.

Lemma ports_free_or_registered_witness :
  NoDup (availablePorts one_agent)
  /\ (forall port, port ∈ availablePorts one_agent ->
                   agents one_agent !! port = None)
  /\ (forall port,
        port ∈ availablePorts one_agent \/ is_Some (agents one_agent !! port)
        <-> 50000 <= port <= 50001).
Proof.
  apply (ports_free_or_registered 50000 50001 one_agent);
    [lia|exact one_agent_reachable].
Defined.

(** X2.  After any such sequence the two numbers /health reports add up
    to the size of the range. *)
Theorem health_counts_add_up (start stop : Z) (r : RelayServer) :
  0 < start -> reachable start stop r ->
  activeAgents r + availableCount r = Z.max 0 (stop - start + 1).
Proof.
  intros Hpos Hr.
  destruct (reachable_inv start stop r Hpos Hr)
    as [(_ & Hnd & _ & _ & Hdis & _) Hown].
  assert (size (owned r) = (length (availablePorts r) + size (agents r))%nat)
    as Hsize.
  { unfold owned. rewrite size_union.
    - by rewrite size_list_to_set, size_dom.
    - intros x Hx%elem_of_list_to_set Hd%elem_of_dom.
      apply Hdis in Hx. rewrite Hx in Hd. by destruct Hd. }
  rewrite Hown, size_list_to_set, initPorts_length in Hsize
    by apply initPorts_NoDup.
  unfold activeAgents, availableCount. lia.
Qed.

Lemma health_counts_add_up_witness :
  activeAgents one_agent + availableCount one_agent = 2.
Proof.
  apply (health_counts_add_up 50000 50001 one_agent);
    [lia|exact one_agent_reachable].
Defined.

(** X3.  After any such sequence an agent registered under a port is an
    allocated object that carries that port and a bound listener, and the
    port lies in the range. *)
Theorem registered_agent_is_consistent (start stop : Z) (r : RelayServer)
    (port : Z) (p : nat) :
  0 < start -> reachable start stop r -> agents r !! port = Some p ->
  start <= port <= stop
  /\ exists a l, heap r !! p = Some a /\ assignedPort a = port
                 /\ listener a = Some l.
Proof.
  intros Hpos Hr Hp.
  destruct (reachable_inv start stop r Hpos Hr)
    as [(Hwf & _ & _ & _ & _ & Hcons) Hown].
  split.
  - apply initPorts_elem. apply (elem_of_list_to_set (C := gset Z)).
    rewrite <- Hown. unfold owned. apply elem_of_union. right.
    apply elem_of_dom. by rewrite Hp.
  - destruct (Hwf port p Hp) as [a Ha].
    destruct (Hcons port p a Hp Ha) as [Hap [l Hl]]. by exists a, l.
Qed.

Lemma registered_agent_is_consistent_witness :
  50000 <= 50000 <= 50001
  /\ exists a l, heap one_agent !! 0%nat = Some a /\ assignedPort a = 50000
                 /\ listener a = Some l.
Proof.
  apply (registered_agent_is_consistent 50000 50001 one_agent 50000 0%nat);
    [lia|exact one_agent_reachable|vm_compute; reflexivity].
Defined.
End HeartbeatInvariant.

(** ** The heartbeat draft: teardown and handshake edges *)

Section HeartbeatEdges.
Import Heartbeat.

(** X4.  A second [cleanupAgent] on the same port does nothing: the checker
    timing an agent out and the handler of that agent then cleaning up
    release the port once and close the listener once. *)
Theorem cleanup_twice_is_once (r : RelayServer) (port : Z) :
  wf r ->
  let once := cleanupAgent port r in
  let twice := (cleanupAgent port ;; cleanupAgent port) r in
  result twice = Done tt
  /\ final twice = final once
  /\ log twice = log once.
Proof.
  intros Hwf.
  destruct (cleanupAgent_total r port Hwf)
    as (r1 & t1 & E1 & Hwf1 & _ & Hag1 & _).
  assert (agents r1 !! port = None) as Hgone.
  { rewrite Hag1. apply lookup_delete_eq. }
  simpl. rewrite (bind_done _ _ _ _ _ _ E1), E1.
  rewrite (cleanupAgent_None r1 port Hgone).
  unfold result, final, log. simpl. split; [done|]. split.
  - destruct r1 as [ag hp av]. unfold set_agents. simpl in *.
    by rewrite delete_id.
  - apply app_nil_r.
Qed.

Lemma cleanup_twice_is_once_witness :
  final ((cleanupAgent 50000 ;; cleanupAgent 50000) one_agent)
  = final (cleanupAgent 50000 one_agent).
Proof.
  assert (wf one_agent) as Hwf
    by (unfold wf; apply (bool_decide_unpack _); vm_compute; exact I).
  exact (proj1 (proj2 (cleanup_twice_is_once one_agent 50000 Hwf))).
Defined.

(** X5.  Cleanup goes by port, not by agent.  When the only port of the
    pool is taken from a timed-out agent and given to a new agent, the
    cleanup the old agent's handler runs on leaving closes the listener and
    the connection of the new agent and removes it from the registry. *)
Theorem late_cleanup_removes_successor (r : RelayServer) (port : Z)
    (old : nat) (c : net_Conn) (line : string) (now : Z) (l : net_Listener) :
  wf r -> agents r !! port = Some old -> availablePorts r = [] ->
  port <> 0 -> TrimSpace line = "REGISTER" ->
  let timed_out := final (cleanupAgent port r) in
  let handshake := handleAgent_register c (Some line) now (Ok l) false
                     timed_out in
  let leaving := cleanupAgent port (final handshake) in
  result handshake = Done (Some (length (heap r), port))
  /\ agents (final handshake) !! port = Some (length (heap r))
  /\ events leaving = [EvCloseListener l; EvCloseConn c]
  /\ agents (final leaving) !! port = None.
Proof.
  intros Hwf Hold Hav Hport Hline timed_out.
  destruct (Hwf port old Hold) as [a Ha].
  assert (timed_out = cleaned port r) as Ht.
  { unfold timed_out. by rewrite (cleanupAgent_Some r port old a Hold Ha). }
  clearbody timed_out. subst timed_out. intros handshake.
  destruct (register_ok (cleaned port r) c line now l port [] Hline)
    as (tr & E & _); [by simpl; rewrite Hav|done|].
  set (b := {| conn := Some c; assignedPort := port; listener := Some l;
               lastHeartbeat := now |}) in *.
  set (r2 := {| agents := <[port := length (heap r)]> (delete port (agents r));
                heap := heap r ++ [b]; availablePorts := [] |}).
  assert (handshake = (Done (Some (length (heap r), port)), r2, tr)) as Eh
    by exact E.
  clearbody handshake. subst handshake. intros leaving.
  assert (leaving = (Done tt, cleaned port r2,
                     closings b (set_agents (delete port) r2))) as El.
  { apply (cleanupAgent_Some r2 port (length (heap r)) b).
    - apply lookup_insert_eq.
    - by apply list_lookup_middle. }
  clearbody leaving. subst leaving.
  unfold result, events, final, log. simpl.
  split; [done|]. split; [apply lookup_insert_eq|].
  split; [done|]. apply lookup_delete_eq.
Qed.

Lemma late_cleanup_removes_successor_witness :
  let r := set_availablePorts (fun _ => []) one_agent in
  let timed_out := final (cleanupAgent 50000 r) in
  let handshake := handleAgent_register 8%nat (Some ("REGISTER" +:+ LF)) 200
                     (Ok 4%nat) false timed_out in
  let leaving := cleanupAgent 50000 (final handshake) in
  result handshake = Done (Some (1%nat, 50000))
  /\ agents (final handshake) !! 50000 = Some 1%nat
  /\ events leaving = [EvCloseListener 4%nat; EvCloseConn 8%nat]
  /\ agents (final leaving) !! 50000 = None.
Proof.
  apply (late_cleanup_removes_successor
           (set_availablePorts (fun _ => []) one_agent) 50000 0%nat 8%nat
           ("REGISTER" +:+ LF) 200 4%nat).
  - unfold wf. apply (bool_decide_unpack _). vm_compute. exact I.
  - vm_compute. reflexivity.
  - vm_compute. reflexivity.
  - discriminate.
  - vm_compute. reflexivity.
Defined.



(** X7.  Port 0 doubles as the answer "no port": when port 0 is at the head
    of the pool a REGISTER is answered "ERROR no available ports" although
    ports are free, and port 0 is gone from the pool afterwards. *)
Theorem port_zero_is_lost (r : RelayServer) (c : net_Conn) (line : string)
    (now : Z) (bound : res net_Listener) (write_err : bool)
    (lines : list (string * Z)) (rest : list Z) :
  TrimSpace line = "REGISTER" -> availablePorts r = 0 :: rest ->
  let run := handleAgent c (Some line) now bound write_err lines r in
  result run = Done tt
  /\ events run = [EvWrite c ("ERROR no available ports" +:+ LF);
                   EvCloseConn c]
  /\ availablePorts (final run) = rest
  /\ agents (final run) = agents r.
Proof.
  intros Hline Hav. destruct r as [ag hp av]. simpl in *. subst av.
  unfold handleAgent, handleAgent_register, assignPort, defer.
  rewrite Hline. case_decide; [done|].
  unfold bind, get, put, ret, emit, set_availablePorts. simpl. done.
Qed.

Lemma port_zero_is_lost_witness :
  let run := handleAgent 7%nat (Some ("REGISTER" +:+ LF)) 0 (Ok 3%nat) false
               [] (newRelay 0 1) in
  result run = Done tt
  /\ events run = [EvWrite 7%nat ("ERROR no available ports" +:+ LF);
                   EvCloseConn 7%nat]
  /\ availablePorts (final run) = [1]
  /\ agents (final run) = agents (newRelay 0 1).
Proof.
  apply (port_zero_is_lost (newRelay 0 1) 7%nat ("REGISTER" +:+ LF) 0
           (Ok 3%nat) false [] [1]); vm_compute; reflexivity.
Defined.
End HeartbeatEdges.

(** ** The simple draft *)

Section SimpleFacts.
Import Simple.

Lemma readCommand_line (line rest : string) :
  readCommand line = None -> readCommand (line +:+ LF +:+ rest) = Some line.
Proof.
  induction line as [|ch line IH]; [reflexivity|]. simpl.
  destruct (Ascii.eqb ch (ascii_of_nat 10)); [discriminate|].
  intros Hline. destruct (readCommand line); [discriminate|].
  by rewrite IH.
Qed.

Lemma readCommand_split (input line : string) :
  readCommand input = Some line ->
  readCommand line = None /\ exists rest, input = line +:+ LF +:+ rest.
Proof.
  revert line. induction input as [|ch input IH]; [discriminate|].
  intros line. simpl.
  destruct (Ascii.eqb ch (ascii_of_nat 10)) eqn:Hch.
  - intros [= <-]. split; [reflexivity|]. exists input.
    apply Ascii.eqb_eq in Hch. by subst ch.
  - destruct (readCommand input) as [l|] eqn:Hin; [|discriminate].
    intros [= <-]. destruct (IH l eq_refl) as (Hnone & rest & ->).
    split; [|by exists rest]. simpl. by rewrite Hch, Hnone.
Qed.

(** X8.  The byte-by-byte read loop returns exactly the bytes before the
    first line feed, and fails exactly on the inputs that hold no line
    feed. *)
Theorem readCommand_first_line (input line : string) :
  (readCommand input = Some line
   <-> readCommand line = None /\ exists rest, input = line +:+ LF +:+ rest)
  /\ (readCommand input = None
      <-> forall l rest, input <> l +:+ LF +:+ rest).
Proof.
  split; [split|split].
  - apply readCommand_split.
  - intros (Hnone & rest & ->). by apply readCommand_line.
  - intros Hnone l rest ->.
    assert (forall a b, readCommand (a +:+ LF +:+ b) <> None) as Hsome.
    { clear. intros a b. induction a as [|ch a IH]; [discriminate|]. simpl.
      destruct (Ascii.eqb ch (ascii_of_nat 10)); [discriminate|].
      by destruct (readCommand (a +:+ LF +:+ b)). }
    by apply (Hsome l rest).
  - intros Hno. destruct (readCommand input) as [l|] eqn:Hin; [|done].
    destruct (readCommand_split input l Hin) as (_ & rest & ->).
    by destruct (Hno l rest).
Qed.

Lemma simple_forwards (clients : list net_Conn) (s : SimpleRelay)
    (tenant : nat) (t : SimpleTenant) :
  heap s !! tenant = Some t ->
  for_each clients (fun cl =>
    s <- get ;;
    match heap s !! tenant with
    | Some t => emit (EvGo (TForward cl (YamuxSession t)))
    | None => panic "invalid memory address or nil pointer dereference"
    end) s
  = (Done tt, s, (fun cl => (EvGo (TForward cl (YamuxSession t)), s))
                   <$> clients).
Proof.
  intros Ht. induction clients as [|cl clients IH]; [reflexivity|].
  cbn [for_each]. eapply bind_run.
  { unfold bind, get, emit. simpl. rewrite Ht. reflexivity. }
  { exact IH. }
  reflexivity.
Qed.

Lemma simple_cursor (s : SimpleRelay) (port : Z) :
  0 <= nextPortIndex s ->
  portPool s !! Z.to_nat (nextPortIndex s) = Some port ->
  (Z.of_nat (length (portPool s)) <=? nextPortIndex s) = false
  /\ (nextPortIndex s <? 0) = false.
Proof.
  intros Hidx Hport. apply lookup_lt_Some in Hport.
  split; [apply Z.leb_gt|apply Z.ltb_ge]; lia.
Qed.

(** A whole session of the simple draft, from REGISTER to the failure of
    [Accept]. *)
Lemma simple_session (s : SimpleRelay) (c : net_Conn) (input line : string)
    (session : yamux_Session) (l : net_Listener) (clients : list net_Conn)
    (port : Z) :
  readCommand input = Some line -> TrimSpace line = "REGISTER" ->
  0 <= nextPortIndex s ->
  portPool s !! Z.to_nat (nextPortIndex s) = Some port ->
  let id := "tenant-" +:+ fmt_d port in
  let t := {| ID := id; AssignedPort := port; YamuxSession := session;
              Listener := l; ActiveConns := 0 |} in
  let s1 := set_nextPortIndex (fun i => i + 1) s in
  let s2 := set_tenants (<[id := length (heap s)]>)
              (set_heap (fun h => h ++ [t]) s1) in
  let s3 := set_tenants (delete id) s2 in
  handleConnection c input false (Ok session) (Ok l) clients s
  = (Done tt, s3,
     [(EvWrite c ("OK port:" +:+ fmt_d port +:+ LF), s1);
      (EvListen port (Ok l), s1)]
     ++ ((fun cl => (EvGo (TForward cl session), s2)) <$> clients)
     ++ [(EvCloseListener l, s3); (EvCloseSession session, s3);
         (EvCloseConn c, s3)]).
Proof.
  intros Hinput Hline Hidx Hport id t s1 s2 s3.
  destruct (simple_cursor s port Hidx Hport) as [Hle Hlt].
  assert (handleConnection_register c input false (Ok session) (Ok l) s
          = (Done (Some (length (heap s), l),
                   [(s' <- get ;; put (set_tenants (delete id) s'));
                    emit (EvCloseListener l);
                    emit (EvCloseSession session)]),
             s2,
             [(EvWrite c ("OK port:" +:+ fmt_d port +:+ LF), s1);
              (EvListen port (Ok l), s1)])) as Ereg.
  { unfold handleConnection_register. rewrite Hinput, Hline.
    case_decide; [done|]. unfold index, alloc.
    unfold bind, get, put, ret, emit. simpl. rewrite Hle, Hlt, Hport.
    reflexivity. }
  unfold handleConnection, defer.
  rewrite (bind_done _ _ _ _ _ _ Ereg). cbn [fst snd].
  rewrite (simple_forwards clients s2 (length (heap s)) t)
    by (simpl; by apply list_lookup_middle).
  unfold result, final, log. simpl.
  rewrite <- !app_assoc. reflexivity.
Qed.



(** X10.  A session of the simple draft that registers writes the OK line
    before it binds the port, forwards every accepted client over the
    session while the tenant is in the registry, and on leaving removes the
    tenant first, then closes the listener, the session and the connection,
    in that order; the port it used stays behind the cursor. *)
Theorem simple_session_order (s : SimpleRelay) (c : net_Conn)
    (input line : string) (session : yamux_Session) (l : net_Listener)
    (clients : list net_Conn) (port : Z) :
  readCommand input = Some line -> TrimSpace line = "REGISTER" ->
  0 <= nextPortIndex s ->
  portPool s !! Z.to_nat (nextPortIndex s) = Some port ->
  let id := "tenant-" +:+ fmt_d port in
  let run := handleConnection c input false (Ok session) (Ok l) clients s in
  result run = Done tt
  /\ events run
     = [EvWrite c ("OK port:" +:+ fmt_d port +:+ LF); EvListen port (Ok l)]
       ++ ((fun cl => EvGo (TForward cl session)) <$> clients)
       ++ [EvCloseListener l; EvCloseSession session; EvCloseConn c]
  /\ (forall cl st, (EvGo (TForward cl session), st) ∈ log run ->
                    tenants st !! id = Some (length (heap s)))
  /\ (forall st, (EvCloseListener l, st) ∈ log run -> tenants st !! id = None)
  /\ tenants (final run) !! id = None
  /\ nextPortIndex (final run) = nextPortIndex s + 1.
Proof.
  intros Hinput Hline Hidx Hport id run. subst run.
  rewrite (simple_session s c input line session l clients port
             Hinput Hline Hidx Hport).
  unfold result, events, final, log. simpl. split; [done|]. split.
  { rewrite fmap_app, <- list_fmap_compose. done. }
  split.
  { intros cl st Hin.
    repeat (apply elem_of_cons in Hin as [Hin|Hin]; [discriminate|]).
    apply elem_of_app in Hin as [Hin|Hin].
    - apply list_elem_of_fmap in Hin as (cl' & [= _ ->] & _).
      simpl. apply lookup_insert_eq.
    - repeat (apply elem_of_cons in Hin as [Hin|Hin]; [discriminate|]).
      by apply elem_of_nil in Hin. }
  split.
  { intros st Hin.
    repeat (apply elem_of_cons in Hin as [Hin|Hin]; [discriminate|]).
    apply elem_of_app in Hin as [Hin|Hin].
    - apply list_elem_of_fmap in Hin as (cl' & [=] & _).
    - apply elem_of_cons in Hin as [[= ->]|Hin];
        [simpl; apply lookup_delete_eq|].
      repeat (apply elem_of_cons in Hin as [Hin|Hin]; [discriminate|]).
      by apply elem_of_nil in Hin. }
  split; [apply lookup_delete_eq|done].
Qed.

Lemma simple_session_order_witness :
  let run := handleConnection 7%nat ("REGISTER" +:+ LF) false (Ok 1%nat)
               (Ok 5%nat) [9%nat] (NewSimpleRelay 50000 50001) in
  events run
  = [EvWrite 7%nat ("OK port:50000" +:+ LF); EvListen 50000 (Ok 5%nat);
     EvGo (TForward 9%nat 1%nat);
     EvCloseListener 5%nat; EvCloseSession 1%nat; EvCloseConn 7%nat]
  /\ tenants (final run) !! "tenant-50000" = None.
Proof.
  pose proof (simple_session_order (NewSimpleRelay 50000 50001) 7%nat
                ("REGISTER" +:+ LF) "REGISTER" 1%nat 5%nat [9%nat] 50000
                ltac:(vm_compute; reflexivity) ltac:(vm_compute; reflexivity)
                ltac:(vm_compute; discriminate)
                ltac:(vm_compute; reflexivity)) as (_ & Hev & _ & _ & Hten & _).
  split; [exact Hev|exact Hten].
Defined.
End SimpleFacts.

(** ** The simple draft: the forwarder *)

Section SimpleForwarder.
Import Simple.

Lemma simple_deref (s : SimpleRelay) (p : nat) (t : SimpleTenant) :
  heap s !! p = Some t -> deref p s = (Done t, s, []).
Proof.
  intros H. unfold deref, bind, get, ret. simpl. by rewrite H.
Qed.

Lemma simple_update (s : SimpleRelay) (p : nat) (t : SimpleTenant)
    (f : SimpleTenant -> SimpleTenant) :
  heap s !! p = Some t ->
  update p f s = (Done tt, set_heap (<[p := f t]>) s, []).
Proof.
  intros H. unfold update.
  eapply bind_run; [by apply simple_deref|reflexivity|reflexivity].
Qed.

(** X11.  The forwarder of the simple draft counts a client only once
    the stream to the agent is open, and uncounts it when the copy ends:
    on both paths the relay is as before, the stream that was opened is
    closed, and the client is closed last. *)
Theorem simple_forwarder_restores_count (s : SimpleRelay) (cl : net_Conn)
    (tenant : nat) (t : SimpleTenant) (stream : res net_Conn) :
  heap s !! tenant = Some t ->
  handleClientConnection cl tenant stream s
  = (Done tt, s,
     (EvOpenStream (YamuxSession t) stream, s)
     :: match stream with
        | Ok st => [(EvCloseConn st, s)]
        | Err _ => []
        end ++ [(EvCloseConn cl, s)]).
Proof.
  intros Ht. pose proof (lookup_lt_Some _ _ _ Ht) as Hlt.
  set (t1 := set_ActiveConns (fun n => n + 1) t).
  set (s1 := set_heap (<[tenant := t1]>) s).
  assert (heap s1 !! tenant = Some t1) as Ht1
    by (simpl; by apply list_lookup_insert_eq).
  assert (set_heap (<[tenant := set_ActiveConns (fun n => n - 1) t1]>) s1 = s)
    as Hback.
  { destruct s as [ten hp pool idx]. unfold s1, set_heap. simpl. f_equal.
    rewrite list_insert_insert_eq. apply list_insert_id.
    simpl in Ht. rewrite Ht. f_equal. destruct t. unfold t1, set_ActiveConns.
    simpl. f_equal. lia. }
  unfold handleClientConnection. destruct stream as [st|err].
  - eapply defer_run_eq.
    { eapply bind_run.
      { by apply simple_deref. }
      { eapply bind_run.
        { reflexivity. }
        { eapply defer_run_eq.
          { eapply bind_run.
            { by apply simple_update. }
            { eapply defer_run_eq.
              { reflexivity. }
              { rewrite (simple_update s1 tenant t1 _ Ht1), Hback.
                reflexivity. }
              reflexivity. }
            reflexivity. }
          { reflexivity. }
          reflexivity. }
        reflexivity. }
      reflexivity. }
    { reflexivity. }
    reflexivity.
  - eapply defer_run_eq.
    { eapply bind_run.
      { by apply simple_deref. }
      { reflexivity. }
      reflexivity. }
    { reflexivity. }
    reflexivity.
Qed.

Lemma simple_forwarder_restores_count_witness :
  let s := final (handleConnection_register 7%nat ("REGISTER" +:+ LF) false
                    (Ok 1%nat) (Ok 5%nat) (NewSimpleRelay 50000 50001)) in
  handleClientConnection 9%nat 0%nat (Ok 11%nat) s
  = (Done tt, s,
     [(EvOpenStream 1%nat (Ok 11%nat), s); (EvCloseConn 11%nat, s);
      (EvCloseConn 9%nat, s)]).
Proof.
  exact (simple_forwarder_restores_count
           (final (handleConnection_register 7%nat ("REGISTER" +:+ LF) false
                     (Ok 1%nat) (Ok 5%nat) (NewSimpleRelay 50000 50001)))
           9%nat 0%nat
           {| ID := "tenant-50000"; AssignedPort := 50000;
              YamuxSession := 1%nat; Listener := 5%nat; ActiveConns := 0 |}
           (Ok 11%nat) ltac:(vm_compute; reflexivity)).
Defined.
End SimpleForwarder.

(** ** jwt.go *)

Section TokenFacts.
Import JWT.

Lemma splitDot_length (s : string) : length (splitDot s) = S (dots s).
Proof.
  induction s as [|ch s IH]; [reflexivity|]. simpl.
  destruct (Ascii.eqb ch "."%char); simpl; [by rewrite IH|].
  destruct (splitDot s); simpl in *; [discriminate|done].
Qed.

Lemma splitDot_join (s : string) :
  joinDot (splitDot s) = s /\ Forall (fun p => dots p = 0%nat) (splitDot s).
Proof.
  induction s as [|ch s [IHj IHd]]; [by repeat constructor|].
  pose proof (splitDot_length s) as Hlen. simpl.
  destruct (Ascii.eqb ch "."%char) eqn:Hch.
  - apply Ascii.eqb_eq in Hch. subst ch. split; [|by constructor].
    destruct (splitDot s) as [|p ps]; [discriminate|].
    cbn [joinDot] in *. by rewrite IHj.
  - destruct (splitDot s) as [|p ps]; [discriminate|].
    apply Forall_cons in IHd as [Hp Hps]. split.
    + cbn [joinDot] in *. by destruct ps; rewrite <- IHj.
    + constructor; [|done]. simpl. by rewrite Hch.
Qed.

Lemma splitDot_three (s header payload signature : string) :
  splitDot s = [header; payload; signature] ->
  s = header +:+ "." +:+ payload +:+ "." +:+ signature
  /\ dots header = 0%nat /\ dots payload = 0%nat /\ dots signature = 0%nat.
Proof.
  intros H. destruct (splitDot_join s) as [Hj Hd]. rewrite H in Hj, Hd.
  split; [by rewrite <- Hj|].
  repeat (apply Forall_cons in Hd as [? Hd]). done.
Qed.

(** X12.  Whatever the library answers, [VerifyJWT] refuses a token that
    does not hold exactly two dots with the format error that names the
    number of parts, and refuses a three-part token whose third part is not
    the signature of the first two with "invalid signature", before the
    payload is decoded. *)
Theorem malformed_token_is_refused (lib : Lib) (now : Z)
    (token secret issuer audience : string) :
  (dots token <> 2%nat ->
   VerifyJWT lib now token secret issuer audience
   = Err ("invalid JWT format: expected 3 parts, got "
          +:+ fmt_d (Z.of_nat (S (dots token)))))
  /\ (forall header payload signature,
        splitDot token = [header; payload; signature] ->
        signature <> base64_RawURL_encode lib
                       (hmac_sha256 lib secret (header +:+ "." +:+ payload)) ->
        VerifyJWT lib now token secret issuer audience
        = Err "invalid signature").
Proof.
  split.
  - intros Hdots. pose proof (splitDot_length token) as Hlen.
    unfold VerifyJWT. rewrite <- Hlen.
    destruct (splitDot token) as [|a [|b [|d [|e rest]]]]; simpl in *;
      try reflexivity.
    lia.
  - intros header payload signature Hsplit Hsig.
    unfold VerifyJWT, computeSignature. rewrite Hsplit.
    by rewrite decide_True.
Qed.

Lemma malformed_token_is_refused_witness :
  VerifyJWT Samples.lib 1700000000 "abc.def" Samples.secret Samples.issuer
    Samples.audience
  = Err "invalid JWT format: expected 3 parts, got 2"
  /\ VerifyJWT Samples.lib 1700000000
       (Samples.header +:+ "." +:+ Samples.payload Samples.expiring
        +:+ "." +:+ "forged")
       Samples.secret Samples.issuer Samples.audience
     = Err "invalid signature".
Proof.
  split.
  - apply (malformed_token_is_refused Samples.lib 1700000000 "abc.def").
    vm_compute. discriminate.
  - apply (proj2 (malformed_token_is_refused Samples.lib 1700000000
                    (Samples.header +:+ "." +:+ Samples.payload Samples.expiring
                     +:+ "." +:+ "forged")
                    Samples.secret Samples.issuer Samples.audience)
             Samples.header (Samples.payload Samples.expiring) "forged").
    + vm_compute. reflexivity.
    + vm_compute. discriminate.
Defined.

(** X13.  A token [VerifyJWT] accepts is made of three dot-free parts, its
    third part is the encoded MAC of the first two under the secret, its
    second part decodes and parses to the claims returned, the issuer and
    the audience are the expected ones, and [exp] is not a positive time
    before the clock. *)
Theorem accepted_token_is_sound (lib : Lib) (now : Z)
    (token secret issuer audience : string) (claims : JWTClaims) :
  VerifyJWT lib now token secret issuer audience = Ok claims ->
  exists header payload signature decoded,
    token = header +:+ "." +:+ payload +:+ "." +:+ signature
    /\ dots header = 0%nat /\ dots payload = 0%nat /\ dots signature = 0%nat
    /\ signature = base64_RawURL_encode lib
                     (hmac_sha256 lib secret (header +:+ "." +:+ payload))
    /\ base64_RawURL_decode lib payload = Ok decoded
    /\ json_Unmarshal lib decoded = Ok claims
    /\ Iss claims = issuer /\ Aud claims = audience
    /\ (Exp claims <= 0 \/ now <= Exp claims).
Proof.
  unfold VerifyJWT, computeSignature.
  destruct (splitDot token) as [|header [|payload [|signature [|e rest]]]]
    eqn:Hsplit; try discriminate.
  destruct (decide (signature <> _)) as [|Hsig%dec_stable]; [discriminate|].
  destruct (base64_RawURL_decode lib payload) as [decoded|] eqn:Hdec;
    [|discriminate].
  destruct (json_Unmarshal lib decoded) as [cl|] eqn:Hjson; [|discriminate].
  destruct (decide (Iss cl <> issuer)) as [|Hiss%dec_stable]; [discriminate|].
  destruct (decide (Aud cl <> audience)) as [|Haud%dec_stable];
    [discriminate|].
  destruct ((0 <? Exp cl) && (Exp cl <? now)) eqn:Hexp; [discriminate|].
  intros [= <-].
  destruct (splitDot_three token header payload signature Hsplit)
    as (Htok & Hh & Hp & Hs).
  exists header, payload, signature, decoded.
  repeat (split; [done|]).
  apply andb_false_iff in Hexp as [H%Z.ltb_ge|H%Z.ltb_ge]; lia.
Qed.

Lemma accepted_token_is_sound_witness :
  exists header payload signature decoded,
    Samples.token Samples.expiring
    = header +:+ "." +:+ payload +:+ "." +:+ signature
    /\ dots header = 0%nat /\ dots payload = 0%nat /\ dots signature = 0%nat
    /\ signature = base64_RawURL_encode Samples.lib
                     (hmac_sha256 Samples.lib Samples.secret
                        (header +:+ "." +:+ payload))
    /\ base64_RawURL_decode Samples.lib payload = Ok decoded
    /\ json_Unmarshal Samples.lib decoded
       = Ok (Samples.parsed Samples.expiring)
    /\ Iss (Samples.parsed Samples.expiring) = Samples.issuer
    /\ Aud (Samples.parsed Samples.expiring) = Samples.audience
    /\ (Exp (Samples.parsed Samples.expiring) <= 0
        \/ 1700000000 <= Exp (Samples.parsed Samples.expiring)).
Proof.
  apply (accepted_token_is_sound Samples.lib 1700000000
           (Samples.token Samples.expiring) Samples.secret).
  vm_compute. reflexivity.
Defined.

Lemma splitDot_dotfree (s : string) : dots s = 0%nat -> splitDot s = [s].
Proof.
  induction s as [|ch s IH]; [reflexivity|]. simpl.
  destruct (Ascii.eqb ch "."%char); [discriminate|].
  intros H. by rewrite IH.
Qed.

Lemma splitDot_part (part rest : string) :
  dots part = 0%nat ->
  splitDot (part +:+ "." +:+ rest) = part :: splitDot rest.
Proof.
  induction part as [|ch part IH]; [reflexivity|]. simpl.
  destruct (Ascii.eqb ch "."%char); [discriminate|].
  intros H. by rewrite IH.
Qed.

(** X14.  [VerifyJWT] never looks into the header: it only enters the
    MAC.  Two tokens with the same payload, each signed over its own
    header, get the same answer, whatever algorithm or type the headers
    name. *)
Theorem header_is_not_examined (lib : Lib) (now : Z)
    (header header' payload secret issuer audience : string) :
  let sign h :=
    base64_RawURL_encode lib (hmac_sha256 lib secret (h +:+ "." +:+ payload)) in
  dots header = 0%nat -> dots header' = 0%nat -> dots payload = 0%nat ->
  dots (sign header) = 0%nat -> dots (sign header') = 0%nat ->
  VerifyJWT lib now (header +:+ "." +:+ payload +:+ "." +:+ sign header)
    secret issuer audience
  = VerifyJWT lib now (header' +:+ "." +:+ payload +:+ "." +:+ sign header')
      secret issuer audience.
Proof.
  intros sign Hh Hh' Hp Hs Hs'.
  assert (forall h, dots h = 0%nat -> dots (sign h) = 0%nat ->
            splitDot (h +:+ "." +:+ payload +:+ "." +:+ sign h)
            = [h; payload; sign h]) as Hsplit.
  { intros h H1 H2.
    by rewrite (splitDot_part h _ H1), (splitDot_part payload _ Hp),
         (splitDot_dotfree _ H2). }
  unfold VerifyJWT, computeSignature.
  rewrite (Hsplit header Hh Hs), (Hsplit header' Hh' Hs').
  fold (sign header). fold (sign header').
  destruct (decide (sign header <> sign header)) as [Hne|_]; [done|].
  destruct (decide (sign header' <> sign header')) as [Hne|_]; [done|].
  reflexivity.
Qed.

(** The sample table signs a message it does not list with the empty
    MAC, so the second token ends in an empty signature. *)
Lemma header_is_not_examined_witness :
  VerifyJWT Samples.lib 1600000000
    (Samples.header +:+ "." +:+ Samples.payload Samples.expiring +:+ "."
     +:+ Samples.signature Samples.expiring)
    Samples.secret Samples.issuer Samples.audience
  = VerifyJWT Samples.lib 1600000000
      ("e30" +:+ "." +:+ Samples.payload Samples.expiring +:+ "."
       +:+ EmptyString)
      Samples.secret Samples.issuer Samples.audience.
Proof.
  exact (header_is_not_examined Samples.lib 1600000000 Samples.header "e30"
           (Samples.payload Samples.expiring) Samples.secret Samples.issuer
           Samples.audience eq_refl eq_refl eq_refl eq_refl eq_refl).
Defined.
End TokenFacts.

(** ** main.go: bookkeeping of ports and tenants *)

Section MuxInvariant.
Import Mux Scenario.

Lemma mux_evolves_refl (s : RelayServer) : mux_evolves s s.
Proof. intros H. split; [done|]. split; [done|]. split; [done|lia]. Qed.

Lemma mux_evolves_trans (s1 s2 s3 : RelayServer) :
  mux_evolves s1 s2 -> mux_evolves s2 s3 -> mux_evolves s1 s3.
Proof.
  intros H12 H23 H1. destruct (H12 H1) as (H2 & Ep2 & Ec2 & Hi2).
  destruct (H23 H2) as (H3 & Ep3 & Ec3 & Hi3).
  split; [done|]. split; [congruence|]. split; [congruence|lia].
Qed.

Lemma take_grows (l : list Z) (i : Z) (x : Z) :
  0 <= i -> x ∈ take (Z.to_nat i) l -> x ∈ take (Z.to_nat (i + 1)) l.
Proof.
  intros Hi Hx. replace (Z.to_nat (i + 1)) with (S (Z.to_nat i)) by lia.
  apply list_elem_of_lookup in Hx as [j Hj].
  apply lookup_take_Some in Hj as [Hj Hlt].
  apply list_elem_of_lookup. exists j. apply lookup_take_Some. split; [done|lia].
Qed.

Lemma take_cursor (l : list Z) (i : Z) (x : Z) :
  0 <= i -> l !! Z.to_nat i = Some x -> x ∈ take (Z.to_nat (i + 1)) l.
Proof.
  intros Hi Hx. replace (Z.to_nat (i + 1)) with (S (Z.to_nat i)) by lia.
  apply list_elem_of_lookup. exists (Z.to_nat i).
  apply lookup_take_Some. split; [done|lia].
Qed.

Lemma cursor_fresh (l : list Z) (i : nat) (x : Z) :
  NoDup l -> l !! i = Some x -> x ∉ take i l.
Proof.
  intros Hnd Hx Hin. apply list_elem_of_lookup in Hin as [j Hj].
  apply lookup_take_Some in Hj as [Hj Hlt].
  pose proof (NoDup_lookup l i j x Hnd Hx Hj). lia.
Qed.

(** Moving the cursor on keeps the bookkeeping. *)
Lemma inv_cursor_moves (s : RelayServer) :
  mux_inv s -> nextPortIndex s < Z.of_nat (length (portPool s)) ->
  mux_inv (set_nextPortIndex (fun i => i + 1) s).
Proof.
  intros (Hwf & Hnd & Hidx & Hsize & Hcons & Hdiff) Hroom.
  split; [done|]. split; [done|]. simpl. split; [lia|]. split; [lia|].
  split; [|done]. intros id p t Hp Ht.
  destruct (Hcons id p t Hp Ht) as (? & ? & Hin).
  split; [done|]. split; [done|]. apply take_grows; [lia|done].
Qed.

(** Registering a tenant on the port at the cursor keeps the bookkeeping. *)
Lemma inv_registered (s : RelayServer) (id : string) (port : Z)
    (prefix : string) (now : Z) (m : yamux_Session) (l : net_Listener) :
  mux_inv s -> portPool s !! Z.to_nat (nextPortIndex s) = Some port ->
  mux_inv (set_tenants (<[id := length (heap s)]>)
             (set_heap (fun h => h ++ [registered id port prefix now m l])
                (set_nextPortIndex (fun i => i + 1) s))).
Proof.
  intros (Hwf & Hnd & Hidx & Hsize & Hcons & Hdiff) Hport.
  pose proof (lookup_lt_Some _ _ _ Hport) as Hroom.
  assert (forall k q, tenants s !! k = Some q ->
            (heap s ++ [registered id port prefix now m l]) !! q
            = heap s !! q) as Hold.
  { intros k q Hk. apply lookup_app_l, lookup_lt_is_Some. exact (Hwf k q Hk). }
  assert (forall k q t, tenants s !! k = Some q -> heap s !! q = Some t ->
            AssignedPort t <> port) as Hfresh.
  { intros k q t Hk Hq Heq. destruct (Hcons k q t Hk Hq) as (_ & _ & Hin).
    rewrite Heq in Hin. by apply (cursor_fresh _ _ _ Hnd Hport). }
  unfold mux_inv, wf. simpl. split.
  { intros k q [[-> <-]|[Hne Hk]]%lookup_insert_Some.
    - eexists. by apply list_lookup_middle.
    - rewrite (Hold k q Hk). exact (Hwf k q Hk). }
  split; [done|]. split; [lia|]. split.
  { rewrite map_size_insert. destruct (tenants s !! id); simpl; lia. }
  split.
  - intros k q t [[-> <-]|[Hne Hk]]%lookup_insert_Some Hq.
    + rewrite list_lookup_middle in Hq by done. injection Hq as <-. simpl.
      split; [done|]. split; [by eexists|]. apply take_cursor; [lia|done].
    + rewrite (Hold k q Hk) in Hq. destruct (Hcons k q t Hk Hq) as (? & ? & ?).
      split; [done|]. split; [done|]. apply take_grows; [lia|done].
  - intros id1 id2 p1 p2 t1 t2 Hne
      [[-> <-]|[Hne1 Hk1]]%lookup_insert_Some
      [[-> <-]|[Hne2 Hk2]]%lookup_insert_Some Hq1 Hq2; [done| | |].
    + rewrite list_lookup_middle in Hq1 by done. injection Hq1 as <-.
      rewrite (Hold _ _ Hk2) in Hq2. simpl.
      intros Heq. by apply (Hfresh id2 p2 t2).
    + rewrite list_lookup_middle in Hq2 by done. injection Hq2 as <-.
      rewrite (Hold _ _ Hk1) in Hq1. simpl. by apply (Hfresh id1 p1 t1).
    + rewrite (Hold _ _ Hk1) in Hq1. rewrite (Hold _ _ Hk2) in Hq2.
      by apply (Hdiff id1 id2 p1 p2 t1 t2).
Qed.

Lemma registerTenant_evolves (id : string) (session : yamux_Session)
    (now : Z) (bound : res net_Listener) :
  preserves mux_evolves (registerTenant id session now bound).
Proof.
  intros s Hinv. pose proof Hinv as (Hwf & Hnd & Hidx & Hsize & Hcons & Hdiff).
  destruct (Z.le_gt_cases (Z.of_nat (length (portPool s))) (nextPortIndex s))
    as [Hfull|Hroom].
  { rewrite (registerTenant_exhausted s id session now bound Hwf Hfull).
    by apply mux_evolves_refl. }
  destruct (portPool s !! Z.to_nat (nextPortIndex s)) as [port|] eqn:Hport.
  2:{ apply lookup_ge_None in Hport. lia. }
  destruct bound as [l|err].
  - destruct (slice_to id 6) as [prefix|] eqn:Hslice.
    + rewrite (registerTenant_ok s id session now l port prefix Hwf
                 (proj1 Hidx) Hport Hslice).
      unfold final. simpl. split; [by apply inv_registered|].
      simpl. repeat split; try done; lia.
    + rewrite (registerTenant_panics s id session now l port Hwf
                 (proj1 Hidx) Hport Hslice).
      unfold final. simpl. split; [by apply inv_cursor_moves|].
      simpl. repeat split; try done; lia.
  - rewrite (registerTenant_bind_fails s id session now err port Hwf
               (proj1 Hidx) Hport).
    unfold final. simpl. split; [by apply inv_cursor_moves|].
    simpl. repeat split; try done; lia.
Qed.

Lemma unregisterTenant_run (s : RelayServer) (id : string) :
  wf s ->
  unregisterTenant id s
  = match tenants s !! id with
    | Some _ => (Done tt, set_tenants (delete id) s, old_closing s id)
    | None => (Done tt, s, [])
    end.
Proof.
  intros Hwf. unfold unregisterTenant, old_closing.
  destruct (tenants s !! id) as [p|] eqn:Hp.
  - destruct (Hwf id p Hp) as [t Ht].
    unfold deref, closeListener, bind, get, put, ret, emit. simpl.
    rewrite Hp. simpl. rewrite Ht. destruct (Listener t); reflexivity.
  - unfold bind, get, ret. simpl. by rewrite Hp.
Qed.

Lemma unregisterTenant_evolves (id : string) :
  preserves mux_evolves (unregisterTenant id).
Proof.
  intros s Hinv. pose proof Hinv as (Hwf & Hnd & Hidx & Hsize & Hcons & Hdiff).
  rewrite (unregisterTenant_run s id Hwf).
  destruct (tenants s !! id) as [p|] eqn:Hp; [|by apply mux_evolves_refl].
  unfold final. simpl. split; [|repeat split; try done; lia].
  unfold mux_inv, wf. simpl. split.
  { intros k q [_ Hk]%lookup_delete_Some. exact (Hwf k q Hk). }
  split; [done|]. split; [done|]. split.
  { rewrite map_size_delete, Hp. simpl. lia. }
  split.
  - intros k q t [_ Hk]%lookup_delete_Some Hq. by apply (Hcons k q t).
  - intros id1 id2 p1 p2 t1 t2 Hne [_ Hk1]%lookup_delete_Some
      [_ Hk2]%lookup_delete_Some Hq1 Hq2.
    by apply (Hdiff id1 id2 p1 p2 t1 t2).
Qed.

Lemma update_evolves (tenant : nat) (f : Z -> Z) :
  preserves mux_evolves (update tenant (set_ActiveConns f)).
Proof.
  intros s Hinv. pose proof Hinv as (Hwf & Hnd & Hidx & Hsize & Hcons & Hdiff).
  unfold update. destruct (heap s !! tenant) as [t|] eqn:Ht.
  2:{ unfold deref, bind, get, panic, final. simpl. rewrite Ht.
      by apply mux_evolves_refl. }
  rewrite (bind_done _ _ _ _ _ _ (deref_tenant s tenant t Ht)).
  unfold final. simpl. split; [|repeat split; try done; lia].
  assert (forall q b, (<[tenant := set_ActiveConns f t]> (heap s)) !! q = Some b ->
            exists b0, heap s !! q = Some b0 /\ ID b = ID b0
                       /\ Listener b = Listener b0
                       /\ AssignedPort b = AssignedPort b0) as Hsame.
  { intros q b Hq. destruct (decide (q = tenant)) as [->|Hne].
    - rewrite list_lookup_insert_eq in Hq by (by eapply lookup_lt_Some).
      injection Hq as <-. by exists t.
    - rewrite list_lookup_insert_ne in Hq by done. by exists b. }
  unfold mux_inv, wf. simpl. split.
  { intros k q Hk. apply lookup_lt_is_Some. rewrite length_insert.
    apply lookup_lt_is_Some. exact (Hwf k q Hk). }
  split; [done|]. split; [done|]. split; [done|]. split.
  - intros k q b Hk Hq. destruct (Hsame q b Hq) as (b0 & Hq0 & -> & -> & ->).
    by apply (Hcons k q b0).
  - intros id1 id2 p1 p2 t1 t2 Hne Hk1 Hk2 Hq1 Hq2.
    destruct (Hsame p1 t1 Hq1) as (b1 & Hb1 & _ & _ & ->).
    destruct (Hsame p2 t2 Hq2) as (b2 & Hb2 & _ & _ & ->).
    by apply (Hdiff id1 id2 p1 p2 b1 b2).
Qed.

Lemma deref_evolves (p : nat) : preserves mux_evolves (deref p).
Proof.
  unfold deref.
  apply (preserves_bind mux_evolves mux_evolves_trans).
  - apply (preserves_get mux_evolves mux_evolves_refl).
  - intros s. destruct (heap s !! p).
    + apply (preserves_ret mux_evolves mux_evolves_refl).
    + apply (preserves_panic mux_evolves mux_evolves_refl).
Qed.

Lemma closeListener_evolves (l : option net_Listener) :
  preserves mux_evolves (closeListener l).
Proof.
  unfold closeListener. destruct l.
  - apply (preserves_emit mux_evolves mux_evolves_refl).
  - apply (preserves_ret mux_evolves mux_evolves_refl).
Qed.

Create HintDb evolves discriminated.

#[local] Hint Resolve deref_evolves closeListener_evolves
  registerTenant_evolves unregisterTenant_evolves update_evolves : evolves.
#[local] Hint Extern 1 (preserves mux_evolves (bind _ _)) =>
  apply (preserves_bind mux_evolves mux_evolves_trans) : evolves.
#[local] Hint Extern 1 (preserves mux_evolves (defer _ _)) =>
  apply (preserves_defer mux_evolves mux_evolves_trans) : evolves.
#[local] Hint Extern 1 (preserves mux_evolves (for_each _ _)) =>
  apply (preserves_for_each mux_evolves mux_evolves_refl mux_evolves_trans)
  : evolves.
#[local] Hint Extern 1 (preserves mux_evolves (ret _)) =>
  apply (preserves_ret mux_evolves mux_evolves_refl) : evolves.
#[local] Hint Extern 1 (preserves mux_evolves get) =>
  apply (preserves_get mux_evolves mux_evolves_refl) : evolves.
#[local] Hint Extern 1 (preserves mux_evolves (emit _)) =>
  apply (preserves_emit mux_evolves mux_evolves_refl) : evolves.
#[local] Hint Extern 1 (preserves mux_evolves (panic _)) =>
  apply (preserves_panic mux_evolves mux_evolves_refl) : evolves.
#[local] Hint Extern 2 (preserves mux_evolves (match ?x with _ => _ end)) =>
  destruct x : evolves.

Lemma accept_evolves (tenant : nat) (c : net_Conn) :
  preserves mux_evolves (acceptTenantConnections_accept tenant c).
Proof. unfold acceptTenantConnections_accept. auto 20 with evolves. Qed.

#[local] Hint Resolve accept_evolves : evolves.

Lemma acceptLoop_evolves (tenant : nat) (clients : list net_Conn) :
  preserves mux_evolves (acceptTenantConnections tenant clients).
Proof. unfold acceptTenantConnections. auto 20 with evolves. Qed.

Lemma forward_evolves (tenant : nat) (c : net_Conn) (stream : res net_Conn) :
  preserves mux_evolves (handleTenantConnection tenant c stream).
Proof. unfold handleTenantConnection. auto 20 with evolves. Qed.

Lemma keepAlive_evolves (stream : net_Conn) (tenant : nat) (pings : nat) :
  preserves mux_evolves (keepAlive stream tenant pings).
Proof. induction pings as [|n IH]; simpl; auto 20 with evolves. Qed.

#[local] Hint Resolve keepAlive_evolves : evolves.

Lemma handler_evolves (lib : JWT.Lib) (c : net_Conn)
    (mux : res yamux_Session) (accepted : res net_Conn)
    (request : option RegisterPayload) (now_jwt now_pwd : Z)
    (bound : res net_Listener) (write_err : bool) (pings : nat) :
  preserves mux_evolves
    (handleControlConnection lib c mux accepted request now_jwt now_pwd
       bound write_err pings).
Proof. unfold handleControlConnection, sendError. auto 40 with evolves. Qed.

Lemma mux_step_evolves (s s' : RelayServer) : step s s' -> mux_evolves s s'.
Proof.
  intros [id session now bound s0|id s0|tenant c s0|tenant c stream s0].
  - apply registerTenant_evolves.
  - apply unregisterTenant_evolves.
  - apply accept_evolves.
  - apply forward_evolves.
Qed.

Lemma NewRelayServer_inv (cfg : RelayConfig) (secret : string) :
  mux_inv (NewRelayServer cfg secret).
Proof.
  unfold mux_inv, wf. simpl. split; [apply map_Forall_empty|].
  split; [apply (initPorts_NoDup (TenantPortStart cfg) (TenantPortEnd cfg))|].
  rewrite map_size_empty. split; [lia|]. split; [lia|]. split.
  - intros id p t H. by rewrite lookup_empty in H.
  - intros id1 id2 p1 p2 t1 t2 _ H. by rewrite lookup_empty in H.
Qed.

Lemma mux_reachable_inv (cfg : RelayConfig) (secret : string)
    (s : RelayServer) :
  reachable cfg secret s ->
  mux_inv s /\ config s = cfg
  /\ portPool s
     = Heartbeat.initPorts (TenantPortStart cfg) (TenantPortEnd cfg).
Proof.
  intros Hr. induction Hr as [|s s' Hr (IH & Hcfg & Hpool) Hstep].
  - split; [apply NewRelayServer_inv|done].
  - destruct (mux_step_evolves s s' Hstep IH) as (Hinv & Ep & Ec & _).
    split; [done|]. split; congruence.
Qed.

Lemma two_tenants_reachable : reachable sample_config Samples.secret two_tenants.
Proof.
  apply reach_step with sample_relay; [|apply step_register].
  apply reach_step with (NewRelayServer sample_config Samples.secret);
    [apply reach_init|apply step_register].
Qed.

Lemma steps_evolve (s s' : RelayServer) : rtc step s s' -> mux_evolves s s'.
Proof.
  induction 1 as [s|s1 s2 s3 H12 _ IH]; [apply mux_evolves_refl|].
  eapply mux_evolves_trans; [by apply mux_step_evolves|exact IH].
Qed.

(** X15.  After any sequence of registrations, unregistrations, accept
    rounds and forwarders on the relay of main.go, two tenants registered
    under different ids are different tenants on different ports.  The
    range is one [make] accepts: its end is not more than one below its
    start. *)
Theorem tenant_ports_are_distinct (cfg : RelayConfig) (secret : string)
    (s : RelayServer) (id1 id2 : string) (p1 p2 : nat) (t1 t2 : Tenant) :
  TenantPortStart cfg <= TenantPortEnd cfg + 1 ->
  reachable cfg secret s -> id1 <> id2 ->
  tenants s !! id1 = Some p1 -> tenants s !! id2 = Some p2 ->
  heap s !! p1 = Some t1 -> heap s !! p2 = Some t2 ->
  p1 <> p2 /\ AssignedPort t1 <> AssignedPort t2.
Proof.
  intros _ Hr Hne H1 H2 Ht1 Ht2.
  destruct (mux_reachable_inv cfg secret s Hr)
    as ((_ & _ & _ & _ & _ & Hdiff) & _).
  pose proof (Hdiff id1 id2 p1 p2 t1 t2 Hne H1 H2 Ht1 Ht2) as Hports.
  split; [|done]. intros ->. congruence.
Qed.

Lemma tenant_ports_are_distinct_witness :
  0%nat <> 1%nat
  /\ AssignedPort (registered "tenant-001" 50000 "tenant" 1699999000 1%nat
                     5%nat)
     <> AssignedPort (registered "tenant-002" 50001 "tenant" 1700000000
                        2%nat 6%nat).
Proof.
  apply (tenant_ports_are_distinct sample_config Samples.secret two_tenants
           "tenant-001" "tenant-002");
    [vm_compute; discriminate|exact two_tenants_reachable|discriminate
    |vm_compute; reflexivity|vm_compute; reflexivity
    |vm_compute; reflexivity|vm_compute; reflexivity].
Defined.

(** X16.  After any such sequence a registered id points to an allocated
    tenant that carries this id, a bound listener and a port of the
    configured range. *)
Theorem registered_tenant_is_consistent (cfg : RelayConfig)
    (secret : string) (s : RelayServer) (id : string) (p : nat) :
  TenantPortStart cfg <= TenantPortEnd cfg + 1 ->
  reachable cfg secret s -> tenants s !! id = Some p ->
  exists t l, heap s !! p = Some t /\ ID t = id /\ Listener t = Some l
              /\ TenantPortStart cfg <= AssignedPort t <= TenantPortEnd cfg.
Proof.
  intros _ Hr Hp.
  destruct (mux_reachable_inv cfg secret s Hr)
    as ((Hwf & _ & _ & _ & Hcons & _) & _ & Hpool).
  destruct (Hwf id p Hp) as [t Ht].
  destruct (Hcons id p t Hp Ht) as (Hid & [l Hl] & Hin).
  exists t, l. split; [done|]. split; [done|]. split; [done|].
  apply initPorts_elem. rewrite <- Hpool.
  apply list_elem_of_lookup in Hin as [j Hj].
  apply lookup_take_Some in Hj as [Hj _].
  apply list_elem_of_lookup. by exists j.
Qed.

Lemma registered_tenant_is_consistent_witness :
  exists t l, heap two_tenants !! 1%nat = Some t /\ ID t = "tenant-002"
              /\ Listener t = Some l /\ 50000 <= AssignedPort t <= 50001.
Proof.
  apply (registered_tenant_is_consistent sample_config Samples.secret
           two_tenants "tenant-002" 1%nat);
    [vm_compute; discriminate|exact two_tenants_reachable
    |vm_compute; reflexivity].
Defined.

(** X17.  After any such sequence the numbers /metrics and /health report
    are bounded by the range: [available_ports] is not negative, and the
    tenants registered and the ports still available together are not
    more than the ports of the range. *)
Theorem metrics_are_bounded (cfg : RelayConfig) (secret : string)
    (s : RelayServer) :
  TenantPortStart cfg <= TenantPortEnd cfg + 1 ->
  reachable cfg secret s ->
  0 <= available_ports s
  /\ activeTenants s + available_ports s
     <= TenantPortEnd cfg - TenantPortStart cfg + 1.
Proof.
  intros Hrange Hr.
  destruct (mux_reachable_inv cfg secret s Hr)
    as ((_ & _ & Hidx & Hsize & _) & _ & Hpool).
  unfold available_ports, activeTenants.
  rewrite Hpool, initPorts_length in *. lia.
Qed.

Lemma metrics_are_bounded_witness :
  0 <= available_ports two_tenants
  /\ activeTenants two_tenants + available_ports two_tenants
     <= 50001 - 50000 + 1.
Proof.
  apply (metrics_are_bounded sample_config Samples.secret two_tenants);
    [vm_compute; discriminate|exact two_tenants_reachable].
Defined.

(** X18.  main.go never gives a port back: over any further such
    sequence [available_ports] does not grow, and once it is 0 every
    later [registerTenant] returns nil and leaves the relay as it is,
    after closing the listener of the tenant registered under the id, if
    there is one. *)
Theorem exhaustion_is_permanent (cfg : RelayConfig) (secret : string)
    (s s' : RelayServer) :
  TenantPortStart cfg <= TenantPortEnd cfg + 1 ->
  reachable cfg secret s -> rtc step s s' ->
  available_ports s' <= available_ports s
  /\ (available_ports s = 0 ->
      forall id session now bound,
        registerTenant id session now bound s'
        = (Done None, s', old_closing s' id)).
Proof.
  intros _ Hr Hsteps.
  destruct (mux_reachable_inv cfg secret s Hr) as (Hinv & _).
  destruct (steps_evolve s s' Hsteps Hinv) as (Hinv' & Hpool & _ & Hidx).
  unfold available_ports. rewrite Hpool. split; [lia|].
  intros Hzero id session now bound.
  apply registerTenant_exhausted; [by destruct Hinv'|]. rewrite Hpool. lia.
Qed.

Lemma exhaustion_is_permanent_witness :
  let s' := final (unregisterTenant "tenant-001" two_tenants) in
  available_ports s' <= available_ports two_tenants
  /\ (available_ports two_tenants = 0 ->
      forall id session now bound,
        registerTenant id session now bound s'
        = (Done None, s', old_closing s' id)).
Proof.
  apply (exhaustion_is_permanent sample_config Samples.secret two_tenants);
    [vm_compute; discriminate|exact two_tenants_reachable|].
  apply rtc_once. apply step_unregister.
Defined.
End MuxInvariant.

(** ** main.go: sessions *)

Section MuxSessions.
Import Mux Scenario.

(** X19.  A request whose token does not verify, or verifies for another
    tenant, is answered with one error frame, INVALID_JWT or
    TENANT_ID_MISMATCH; then the stream, the session and the connection
    are closed, in this order, and the relay is as before. *)
Theorem unauthorised_request_is_refused (lib : JWT.Lib) (c : net_Conn)
    (session : yamux_Session) (stream : net_Conn) (reg : RegisterPayload)
    (now_jwt now_pwd : Z) (bound : res net_Listener) (write_err : bool)
    (pings : nat) (s : RelayServer) :
  let verdict := JWT.VerifyJWT lib now_jwt (rq_JWT reg) (jwtSecret s)
                   (jwtIssuer s) (jwtAudience s) in
  (forall claims, verdict = Ok claims -> JWT.Sub claims <> rq_TenantID reg) ->
  handleControlConnection lib c (Ok session) (Ok stream) (Some reg)
    now_jwt now_pwd bound write_err pings s
  = (Done tt, s,
     [(EvWriteFrame stream
         match verdict with
         | Err e => FrError "INVALID_JWT" ("JWT verification failed: " +:+ e)
         | Ok _ => FrError "TENANT_ID_MISMATCH"
                     "Tenant ID does not match JWT claims"
         end, s);
      (EvCloseConn stream, s); (EvCloseSession session, s);
      (EvCloseConn c, s)]).
Proof.
  intros verdict Hbad. subst verdict.
  unfold handleControlConnection, sendError, defer, bind, get, emit. simpl.
  destruct (JWT.VerifyJWT _ _ _ _ _ _) as [claims|e]; [|reflexivity].
  case_decide; [reflexivity|]. by destruct (Hbad claims).
Qed.

Lemma unauthorised_request_is_refused_witness :
  handleControlConnection Samples.lib 7%nat (Ok 2%nat) (Ok 8%nat)
    (Some {| rq_TenantID := "tenant-002";
             rq_JWT := Samples.token Samples.expiring;
             rq_Version := "1.0.0" |})
    1700000000 1700000000 (Ok 6%nat) false 0%nat sample_relay
  = (Done tt, sample_relay,
     [(EvWriteFrame 8%nat
         (FrError "TENANT_ID_MISMATCH" "Tenant ID does not match JWT claims"),
       sample_relay);
      (EvCloseConn 8%nat, sample_relay); (EvCloseSession 2%nat, sample_relay);
      (EvCloseConn 7%nat, sample_relay)]).
Proof.
  refine (unauthorised_request_is_refused Samples.lib 7%nat 2%nat 8%nat
            {| rq_TenantID := "tenant-002";
               rq_JWT := Samples.token Samples.expiring;
               rq_Version := "1.0.0" |}
            1700000000 1700000000 (Ok 6%nat) false 0%nat sample_relay _).
  intros claims E. vm_compute in E. injection E as <-.
  vm_compute. discriminate.
Defined.

(** X20.  Only a verified request changes the relay: when a run of the
    handler leaves a relay other than the one it started in, the yamux
    session and the control stream were set up, the registration message
    was decoded, and its token verified for the tenant id it names. *)
Theorem state_change_needs_valid_token (lib : JWT.Lib) (c : net_Conn)
    (mux : res yamux_Session) (accepted : res net_Conn)
    (request : option RegisterPayload) (now_jwt now_pwd : Z)
    (bound : res net_Listener) (write_err : bool) (pings : nat)
    (s : RelayServer) :
  final (handleControlConnection lib c mux accepted request now_jwt now_pwd
           bound write_err pings s) <> s ->
  exists session stream reg claims,
    mux = Ok session /\ accepted = Ok stream /\ request = Some reg
    /\ JWT.VerifyJWT lib now_jwt (rq_JWT reg) (jwtSecret s) (jwtIssuer s)
         (jwtAudience s) = Ok claims
    /\ JWT.Sub claims = rq_TenantID reg.
Proof.
  intros Hchanged.
  destruct mux as [session|]; [|by destruct Hchanged].
  destruct accepted as [stream|]; [|by destruct Hchanged].
  destruct request as [reg|]; [|by destruct Hchanged].
  exists session, stream, reg.
  unfold handleControlConnection, sendError, defer, bind, get, emit, final
    in Hchanged.
  simpl in Hchanged.
  destruct (JWT.VerifyJWT lib now_jwt (rq_JWT reg) (jwtSecret s)
              (jwtIssuer s) (jwtAudience s)) as [claims|e];
    [|by destruct Hchanged].
  destruct (decide (JWT.Sub claims <> rq_TenantID reg)) as [Hsub|Hsub];
    [by destruct Hchanged|].
  exists claims. repeat split.
  destruct (decide (JWT.Sub claims = rq_TenantID reg)) as [Heq|Hne];
    [exact Heq|by destruct Hsub].
Qed.

Lemma state_change_needs_valid_token_witness :
  exists session stream reg claims,
    Ok 2%nat = Ok session /\ Ok 8%nat = Ok stream
    /\ Some sample_request = Some reg
    /\ JWT.VerifyJWT Samples.lib 1700000000 (rq_JWT reg)
         (jwtSecret sample_relay) (jwtIssuer sample_relay)
         (jwtAudience sample_relay) = Ok claims
    /\ JWT.Sub claims = rq_TenantID reg.
Proof.
  apply (state_change_needs_valid_token Samples.lib 7%nat (Ok 2%nat)
           (Ok 8%nat) (Some sample_request) 1700000000 1700000000
           (Ok 6%nat) false 0%nat sample_relay).
  intros H. apply (f_equal nextPortIndex) in H. vm_compute in H.
  discriminate.
Defined.

Lemma forward_run (s : RelayServer) (tenant : nat) (t : Tenant)
    (c : net_Conn) (stream : res net_Conn) :
  heap s !! tenant = Some t ->
  handleTenantConnection tenant c stream s
  = let s' := set_heap (<[tenant := set_ActiveConns (fun n => n - 1) t]>) s in
    (Done tt, s',
     (EvOpenStream (ControlSession t) stream, s)
     :: match stream with
        | Ok st => [(EvCloseConn st, s)]
        | Err _ => []
        end ++ [(EvCloseConn c, s')]).
Proof.
  intros Ht. unfold handleTenantConnection, update, deref.
  unfold defer, bind, get, put, ret, emit. simpl. rewrite Ht. simpl.
  destruct stream; simpl; rewrite Ht; reflexivity.
Qed.

(** X21.  A client accepted under the cap is counted once and uncounted
    once: after the accept round and the forwarder started for it the
    relay is as before, whether or not the stream to the agent opened.
    The forwarder closes the stream it opened, then the client. *)
Theorem forwarded_client_is_uncounted (s : RelayServer) (tenant : nat)
    (t : Tenant) (c : net_Conn) (stream : res net_Conn) :
  heap s !! tenant = Some t ->
  ActiveConns t < MaxConnectionsPerTenant (config s) ->
  let accepted := acceptTenantConnections_accept tenant c s in
  let forwarded := handleTenantConnection tenant c stream (final accepted) in
  events accepted = [EvGo (TForward c (ControlSession t))]
  /\ ActiveConns <$> heap (final accepted) !! tenant
     = Some (ActiveConns t + 1)
  /\ events forwarded
     = EvOpenStream (ControlSession t) stream
       :: match stream with
          | Ok st => [EvCloseConn st]
          | Err _ => []
          end ++ [EvCloseConn c]
  /\ final forwarded = s.
Proof.
  intros Ht Hroom accepted forwarded.
  pose proof (lookup_lt_Some _ _ _ Ht) as Hlt.
  set (t1 := set_ActiveConns (fun n => n + 1) t).
  set (s1 := set_heap (<[tenant := t1]>) s).
  assert (accepted = (Done tt, s1, [(EvGo (TForward c (ControlSession t)), s1)]))
    as Hacc.
  { unfold accepted. rewrite (accept_run s tenant t c Ht).
    apply Z.leb_gt in Hroom. by rewrite Hroom. }
  assert (heap s1 !! tenant = Some t1) as Ht1
    by (simpl; by apply list_lookup_insert_eq).
  assert (set_heap (<[tenant := set_ActiveConns (fun n => n - 1) t1]>) s1 = s)
    as Hback.
  { destruct s as [cfg ten hp pool idx sec iss aud].
    unfold s1, set_heap. simpl. f_equal.
    rewrite list_insert_insert_eq. apply list_insert_id.
    simpl in Ht. rewrite Ht. f_equal. destruct t. unfold t1, set_ActiveConns.
    simpl. f_equal. lia. }
  assert (forwarded
          = (Done tt, s,
             (EvOpenStream (ControlSession t) stream, s1)
             :: match stream with
                | Ok st => [(EvCloseConn st, s1)]
                | Err _ => []
                end ++ [(EvCloseConn c, s)])) as Hfw.
  { unfold forwarded. rewrite Hacc.
    change (final (Done tt, s1, [(EvGo (TForward c (ControlSession t)), s1)]))
      with s1.
    rewrite (forward_run s1 tenant t1 c stream Ht1). cbv zeta.
    by rewrite Hback. }
  rewrite Hacc, Hfw. unfold events, log, final. cbn [fst snd fmap list_fmap].
  split; [reflexivity|]. split; [by rewrite Ht1|].
  split; [|reflexivity]. by destruct stream.
Qed.

Lemma forwarded_client_is_uncounted_witness :
  let s := capped_relay in
  let accepted := acceptTenantConnections_accept 0%nat 9%nat s in
  let forwarded :=
    handleTenantConnection 0%nat 9%nat (Err "session shutdown")
      (final accepted) in
  events accepted = [EvGo (TForward 9%nat 1%nat)]
  /\ ActiveConns <$> heap (final accepted) !! 0%nat = Some (0 + 1)
  /\ events forwarded
     = [EvOpenStream 1%nat (Err "session shutdown"); EvCloseConn 9%nat]
  /\ final forwarded = s.
Proof.
  apply (forwarded_client_is_uncounted capped_relay 0%nat
           (registered "tenant-001" 50000 "tenant" 1699999000 1%nat 5%nat)
           9%nat (Err "session shutdown"));
    [vm_compute; reflexivity|vm_compute; reflexivity].
Defined.

Lemma wf_registered (s : RelayServer) (id : string) (T : Tenant)
    (f : Z -> Z) :
  wf s ->
  wf (set_tenants (<[id := length (heap s)]>)
        (set_heap (fun h => h ++ [T]) (set_nextPortIndex f s))).
Proof.
  intros Hwf. unfold wf. simpl. apply map_Forall_insert_2.
  - exists T. by apply list_lookup_middle.
  - intros i p Hp. destruct (Hwf i p Hp) as [t Ht]. exists t.
    by apply lookup_app_l_Some.
Qed.

Lemma keepAlive_run (s : RelayServer) (stream : net_Conn) (tenant : nat)
    (T : Tenant) (pings : nat) :
  wf s -> heap s !! tenant = Some T -> is_Some (tenants s !! ID T) ->
  keepAlive stream tenant pings s
  = (Done tt, set_tenants (delete (ID T)) s,
     replicate (S pings) (EvWriteFrame stream FrPing, s)
     ++ old_closing s (ID T)).
Proof.
  intros Hwf HT [p Hp]. induction pings as [|n IH]; simpl.
  - eapply bind_run.
    { reflexivity. }
    { eapply bind_run.
      { by apply deref_tenant. }
      { rewrite (unregisterTenant_run s (ID T) Hwf), Hp. reflexivity. }
      reflexivity. }
    reflexivity.
  - eapply bind_run; [reflexivity|exact IH|reflexivity].
Qed.

(** X22.  A session that registers and is then left alone: the handler
    listens on the port at the cursor, writes REGISTERED, starts the three
    background tasks, pings until a ping fails, and then closes the
    tenant's listener, the stream, the session and the connection, in this
    order.  It leaves the id unregistered and the cursor one port further:
    the port is used up. *)
Theorem session_uses_up_a_port (lib : JWT.Lib) (c : net_Conn)
    (session : yamux_Session) (stream : net_Conn) (reg : RegisterPayload)
    (now_jwt now_pwd : Z) (l : net_Listener) (pings : nat)
    (s : RelayServer) (claims : JWT.JWTClaims) (port : Z)
    (prefix : string) :
  wf s ->
  JWT.VerifyJWT lib now_jwt (rq_JWT reg) (jwtSecret s) (jwtIssuer s)
    (jwtAudience s) = Ok claims ->
  JWT.Sub claims = rq_TenantID reg ->
  0 <= nextPortIndex s ->
  portPool s !! Z.to_nat (nextPortIndex s) = Some port ->
  slice_to (rq_TenantID reg) 6 = Some prefix ->
  let id := rq_TenantID reg in
  let T := registered id port prefix now_pwd session l in
  let run := handleControlConnection lib c (Ok session) (Ok stream)
               (Some reg) now_jwt now_pwd (Ok l) false pings s in
  result run = Done tt
  /\ events run
     = (old_closing s id).*1
       ++ [EvListen port (Ok l);
           EvWriteFrame stream (FrRegistered (response T));
           EvGo (TNotifyPort id port); EvGo (TAccept l);
           EvGo (THeartbeats id)]
       ++ replicate (S pings) (EvWriteFrame stream FrPing)
       ++ [EvCloseListener l; EvCloseConn stream; EvCloseSession session;
           EvCloseConn c]
  /\ tenants (final run) = delete id (tenants s)
  /\ heap (final run) = heap s ++ [T]
  /\ available_ports (final run) = available_ports s - 1.
Proof.
  intros Hwf Hjwt Hsub Hidx Hport Hslice id T run.
  pose proof (registerTenant_ok s id session now_pwd l port prefix
                Hwf Hidx Hport Hslice) as Hreg.
  fold T in Hreg.
  set (s1 := set_nextPortIndex (fun i => i + 1) s) in *.
  set (s2 := set_tenants (<[id := length (heap s)]>)
               (set_heap (fun h => h ++ [T]) s1)) in *.
  assert (wf s2) as Hwf2 by by apply wf_registered.
  assert (heap s2 !! length (heap s) = Some T) as HT
    by (simpl; by apply list_lookup_middle).
  assert (is_Some (tenants s2 !! ID T)) as Hin
    by (exists (length (heap s)); simpl; apply lookup_insert_eq).
  assert (old_closing s2 (ID T) = [(EvCloseListener l, s2)]) as Hclose.
  { unfold old_closing.
    replace (tenants s2 !! ID T) with (Some (length (heap s)))
      by (symmetry; apply lookup_insert_eq).
    by rewrite HT. }
  set (s3 := set_tenants (delete (ID T)) s2).
  assert (run
          = (Done tt, s3,
             ((((old_closing s id ++ [(EvListen port (Ok l), s1)])
                ++ [(EvWriteFrame stream (FrRegistered (response T)), s2)]
                ++ [(EvGo (TNotifyPort (ID T) (AssignedPort T)), s2)]
                ++ [(EvGo (TAccept l), s2)]
                ++ [(EvGo (THeartbeats (ID T)), s2)]
                ++ replicate (S pings) (EvWriteFrame stream FrPing, s2)
                ++ [(EvCloseListener l, s2)])
               ++ [(EvCloseConn stream, s3)])
              ++ [(EvCloseSession session, s3)])
             ++ [(EvCloseConn c, s3)])) as Hrun.
  { unfold handleControlConnection in run.
    unfold run.
    eapply defer_run.
    { eapply defer_run.
      { eapply defer_run.
        { eapply bind_run.
          { reflexivity. }
          { rewrite Hjwt. case_decide as Hd; [exfalso; exact (Hd Hsub)|].
            eapply bind_run.
            { exact Hreg. }
            { cbv beta iota. eapply bind_run.
              { by apply deref_tenant. }
              { eapply bind_run.
                { reflexivity. }
                { cbv beta iota. eapply bind_run.
                  { reflexivity. }
                  { eapply bind_run.
                    { reflexivity. }
                    { eapply bind_run.
                      { reflexivity. }
                      { rewrite (keepAlive_run s2 stream (length (heap s)) T
                                   pings Hwf2 HT Hin).
                        rewrite Hclose. reflexivity. }
                      reflexivity. }
                    reflexivity. }
                  reflexivity. }
                reflexivity. }
              reflexivity. }
            reflexivity. }
          reflexivity. }
        reflexivity. }
      reflexivity. }
    reflexivity. }
  rewrite Hrun. unfold result, events, final, log, available_ports.
  cbn [fst snd].
  split; [reflexivity|]. split.
  { rewrite !fmap_app, fmap_replicate. cbn [fmap list_fmap fst].
    rewrite <- !app_assoc. reflexivity. }
  simpl. split; [apply delete_insert_eq|]. split; [reflexivity|lia].
Qed.

Lemma session_uses_up_a_port_witness :
  let s := NewRelayServer sample_config Samples.secret in
  let run := handleControlConnection Samples.lib 7%nat (Ok 2%nat) (Ok 8%nat)
               (Some sample_request) 1700000000 1700000000 (Ok 6%nat)
               false 1%nat s in
  let T := registered "tenant-001" 50000 "tenant" 1700000000 2%nat 6%nat in
  result run = Done tt
  /\ events run
     = [EvListen 50000 (Ok 6%nat);
        EvWriteFrame 8%nat (FrRegistered (response T));
        EvGo (TNotifyPort "tenant-001" 50000); EvGo (TAccept 6%nat);
        EvGo (THeartbeats "tenant-001");
        EvWriteFrame 8%nat FrPing; EvWriteFrame 8%nat FrPing;
        EvCloseListener 6%nat; EvCloseConn 8%nat; EvCloseSession 2%nat;
        EvCloseConn 7%nat]
  /\ tenants (final run) = delete "tenant-001" (tenants s)
  /\ heap (final run) = heap s ++ [T]
  /\ available_ports (final run) = available_ports s - 1.
Proof.
  exact (session_uses_up_a_port Samples.lib 7%nat 2%nat 8%nat sample_request
           1700000000 1700000000 6%nat 1%nat
           (NewRelayServer sample_config Samples.secret)
           (Samples.parsed Samples.expiring) 50000 "tenant"
           (map_Forall_empty _)
           ltac:(vm_compute; reflexivity) ltac:(vm_compute; reflexivity)
           ltac:(vm_compute; discriminate) ltac:(vm_compute; reflexivity)
           ltac:(vm_compute; reflexivity)).
Defined.

(** The accept rounds of one tenant leave the registry, the other tenants
    and the tenant's id as they are. *)
Lemma accept_rounds_frame (clients : list net_Conn) (s : RelayServer)
    (e : nat) (t : Tenant) :
  heap s !! e = Some t ->
  exists s' tr t',
    for_each clients (acceptTenantConnections_accept e) s = (Done tt, s', tr)
    /\ tenants s' = tenants s
    /\ heap s' = <[e := t']> (heap s)
    /\ ID t' = ID t.
Proof.
  revert s t. induction clients as [|c clients IH]; intros s t Ht.
  - exists s, [], t. split; [reflexivity|]. split; [reflexivity|].
    split; [|reflexivity]. symmetry. by apply list_insert_id.
  - pose proof (accept_run s e t c Ht) as E. simpl.
    destruct (MaxConnectionsPerTenant (config s) <=? ActiveConns t).
    + destruct (IH s t Ht) as (s' & tr & t' & Hrun & Hten & Hheap & Hid).
      exists s', ((EvCloseConn c, s) :: tr), t'.
      split; [|done]. eapply bind_run; [exact E|exact Hrun|reflexivity].
    + simpl in E.
      set (t1 := set_ActiveConns (fun n => n + 1) t) in *.
      set (s1 := set_heap (<[e := t1]>) s) in *.
      destruct (IH s1 t1) as (s' & tr & t' & Hrun & Hten & Hheap & Hid).
      { simpl. apply list_lookup_insert_eq. by eapply lookup_lt_Some. }
      exists s', ((EvGo (TForward c (ControlSession t)), s1) :: tr), t'.
      split; [eapply bind_run; [exact E|exact Hrun|reflexivity]|].
      split; [done|]. split; [|done].
      rewrite Hheap. simpl. apply list_insert_insert_eq.
Qed.

(** X23.  A second registration of a tenant does not survive the first
    one's accept loop.  [registerTenant] closes the first listener; the
    first loop, whatever it accepted before, then ends, and the
    [unregisterTenant] it deferred goes by the id: it closes the listener
    of the second registration and removes the id from the registry. *)
Theorem reregistration_is_undone (s : RelayServer) (id : string)
    (session : yamux_Session) (now : Z) (l : net_Listener) (e : nat)
    (existing : Tenant) (port : Z) (prefix : string)
    (clients : list net_Conn) :
  wf s ->
  tenants s !! id = Some e -> heap s !! e = Some existing ->
  ID existing = id ->
  0 <= nextPortIndex s ->
  portPool s !! Z.to_nat (nextPortIndex s) = Some port ->
  slice_to id 6 = Some prefix ->
  let registered_again := final (registerTenant id session now (Ok l) s) in
  let old_loop := acceptTenantConnections e clients registered_again in
  tenants registered_again !! id = Some (length (heap s))
  /\ result old_loop = Done tt
  /\ tenants (final old_loop) = delete id (tenants s)
  /\ exists accepted, events old_loop = accepted ++ [EvCloseListener l].
Proof.
  intros Hwf He Hex Hid Hidx Hport Hslice registered_again old_loop.
  pose proof (registerTenant_ok s id session now l port prefix
                Hwf Hidx Hport Hslice) as Hreg.
  set (T := registered id port prefix now session l) in *.
  set (s1 := set_tenants (<[id := length (heap s)]>)
               (set_heap (fun h => h ++ [T])
                  (set_nextPortIndex (fun i => i + 1) s))) in *.
  assert (registered_again = s1) as -> by (unfold registered_again; by rewrite Hreg).
  pose proof (lookup_lt_Some _ _ _ Hex) as Hlt.
  assert (heap s1 !! e = Some existing) as Hex1
    by (simpl; by apply lookup_app_l_Some).
  destruct (accept_rounds_frame clients s1 e existing Hex1)
    as (s2 & tr & t' & Hrun & Hten & Hheap & Hid').
  assert (heap s2 !! length (heap s) = Some T) as HT.
  { rewrite Hheap. simpl. rewrite list_lookup_insert_ne by lia.
    by apply list_lookup_middle. }
  assert (wf s2) as Hwf2.
  { intros i p Hp. rewrite Hten in Hp. rewrite Hheap.
    destruct (wf_registered s id T (fun i => i + 1) Hwf i p Hp) as [x Hx].
    apply lookup_lt_is_Some. rewrite length_insert.
    by eapply lookup_lt_Some. }
  assert (tenants s2 !! id = Some (length (heap s))) as Hnew
    by (rewrite Hten; apply lookup_insert_eq).
  assert (old_loop
          = (Done tt, set_tenants (delete id) s2,
             tr ++ [(EvCloseListener l, s2)])) as Hloop.
  { unfold old_loop, acceptTenantConnections.
    eapply bind_run.
    { by apply deref_tenant. }
    { eapply defer_run; [exact Hrun|]. rewrite Hid.
      rewrite (unregisterTenant_run s2 id Hwf2), Hnew.
      unfold old_closing. by rewrite Hnew, HT. }
    reflexivity. }
  rewrite Hloop. unfold result, final, events, log. cbn [fst snd].
  split; [apply lookup_insert_eq|]. split; [reflexivity|]. split.
  - simpl. rewrite Hten. apply delete_insert_eq.
  - exists (tr.*1). by rewrite fmap_app.
Qed.

Lemma reregistration_is_undone_witness :
  let registered_again :=
    final (registerTenant "tenant-001" 2%nat 1700000000 (Ok 6%nat)
             sample_relay) in
  let old_loop := acceptTenantConnections 0%nat [] registered_again in
  tenants registered_again !! "tenant-001" = Some 1%nat
  /\ result old_loop = Done tt
  /\ tenants (final old_loop) = delete "tenant-001" (tenants sample_relay)
  /\ exists accepted, events old_loop = accepted ++ [EvCloseListener 6%nat].
Proof.
  exact (reregistration_is_undone sample_relay "tenant-001" 2%nat 1700000000
           6%nat 0%nat
           (registered "tenant-001" 50000 "tenant" 1699999000 1%nat 5%nat)
           50001 "tenant" [] sample_relay_wf
           ltac:(vm_compute; reflexivity) ltac:(vm_compute; reflexivity)
           ltac:(vm_compute; reflexivity) ltac:(vm_compute; discriminate)
           ltac:(vm_compute; reflexivity) ltac:(vm_compute; reflexivity)).
Defined.
End MuxSessions.
